(** * Ingestion job lifecycle of the user-document-management service

    A shallow embedding of [IngestionService] (ingestion.service.ts) and
    of the entities and DTOs it works on, followed by the properties of
    the job state machine: retry back-off, retry admission, the execution
    path and the webhook ingress. *)

From Stdlib Require Import Ascii DecimalString DecimalN.
From stdpp Require Import base option list gmap strings.

Local Open Scope Z_scope.

(** ** JavaScript values used by the service *)

(** Timestamps are milliseconds since the epoch, as [Date.now()] and
    [Date.prototype.getTime] give them. *)
Definition Time := Z.

(** The [any]-typed payloads ([parameters], [outputData], the processing
    result) are JSON values. *)
#[warnings="-register-all"]
Inductive Json : Type :=
  | JNull
  | JBool (b : bool)
  | JNum (n : Z)
  | JStr (s : string)
  | JArr (l : list Json)
  | JObj (l : list (string * Json)).

(** JavaScript truthiness, which decides every [a || b] of the service. *)
Definition truthy_json (v : Json) : bool :=
  match v with
  | JNull => false
  | JBool b => b
  | JNum n => negb (n =? 0)
  | JStr s => negb (String.eqb s "")
  | JArr _ | JObj _ => true
  end.

Definition truthy_num (n : Z) : bool := negb (n =? 0).
Definition truthy_str (s : string) : bool := negb (String.eqb s "").

(** [x || d] where [x] is an optional property: [undefined] and falsy
    values both give [d]. *)
Definition or_else {A} (truthy : A → bool) (x : option A) (d : A) : A :=
  match x with
  | Some v => if truthy v then v else d
  | None => d
  end.

(** [x || d] where [d] itself may be [null]. *)
Definition or_keep {A} (truthy : A → bool) (x d : option A) : option A :=
  match x with
  | Some v => if truthy v then Some v else d
  | None => d
  end.

(** [Math.round (n / d)] for integers [n] and [d > 0]: halves go up. *)
Definition round_div (n d : Z) : Z := (2 * n + d) / (2 * d).

(** [`${n}`] for a non-negative integer. *)
Definition decimal (n : Z) : string :=
  NilZero.string_of_uint (N.to_uint (Z.to_N n)).

(** ** Entities (ingestion-job.entity.ts, document.entity.ts) *)

Inductive IngestionStatus := PENDING | PROCESSING | COMPLETED | FAILED | RETRYING.

Inductive IngestionType :=
  OCR | TEXT_EXTRACTION | DOCUMENT_CLASSIFICATION | DATA_EXTRACTION.

Global Instance IngestionStatus_eq_dec : EqDecision IngestionStatus.
Proof. solve_decision. Defined.

(** What the [status] property of a job object holds at run time. The
    declared type is the enum, and every assignment of the service but
    one writes a value of it; [mapExternalStatus] can also return what
    its status map inherits from [Object.prototype] under the key it is
    given: a function, or for [__proto__] the prototype itself. *)
Inductive StatusValue :=
  | enum (s : IngestionStatus)
  | inherited (key : string).

Coercion enum : IngestionStatus >-> StatusValue.

Global Instance StatusValue_eq_dec : EqDecision StatusValue.
Proof. solve_decision. Defined.

(** processing.service.ts *)
Module Processing.
Inductive ProcessingType :=
  OCR | TEXT_EXTRACTION | DOCUMENT_CLASSIFICATION | DATA_EXTRACTION.
End Processing.

Record Document := {
  doc_id : Z;
  doc_title : string;
  doc_filePath : string;
  doc_originalFileName : string;
  doc_mimeType : string;
  doc_createdById : Z;
}.

(** The snapshot of a document kept in [inputData.documents]. *)
Record DocumentSnapshot := {
  snap_id : Z;
  snap_title : string;
  snap_filePath : string;
  snap_fileName : string;
  snap_mimeType : string;
}.

(** [DocumentInfo] of processing.service.ts. *)
Record DocumentInfo := {
  info_id : Z;
  info_filePath : string;
  info_fileName : string;
  info_mimeType : string;
}.

Record InputData := {
  documentIds : list Z;
  documents : list DocumentSnapshot;
}.

(** The columns of [IngestionJob]. [id] is absent until the first save;
    the [createdBy] relation and the system-managed [createdAt] and
    [updatedAt] play no part in the service's logic and are left out. *)
Record IngestionJob := {
  id : option Z;
  name : string;
  description : option string;
  type : IngestionType;
  status : StatusValue;
  progress : Z;
  errorMessage : option string;
  retryCount : Z;
  maxRetries : Z;
  parameters : Json;
  inputData : option InputData;
  outputData : option Json;
  externalJobId : option string;
  startedAt : option Time;
  completedAt : option Time;
  nextRetryAt : option Time;
  createdById : Z;
}.

(** Assignments to one field of a job object. *)
Definition set_id v (j : IngestionJob) : IngestionJob :=
  let 'Build_IngestionJob _ a b c d e f g h i k l m n o p q := j in
  Build_IngestionJob v a b c d e f g h i k l m n o p q.
Definition set_status v (j : IngestionJob) : IngestionJob :=
  let 'Build_IngestionJob z a b c _ e f g h i k l m n o p q := j in
  Build_IngestionJob z a b c v e f g h i k l m n o p q.
Definition set_progress v (j : IngestionJob) : IngestionJob :=
  let 'Build_IngestionJob z a b c d _ f g h i k l m n o p q := j in
  Build_IngestionJob z a b c d v f g h i k l m n o p q.
Definition set_errorMessage v (j : IngestionJob) : IngestionJob :=
  let 'Build_IngestionJob z a b c d e _ g h i k l m n o p q := j in
  Build_IngestionJob z a b c d e v g h i k l m n o p q.
Definition set_retryCount v (j : IngestionJob) : IngestionJob :=
  let 'Build_IngestionJob z a b c d e f _ h i k l m n o p q := j in
  Build_IngestionJob z a b c d e f v h i k l m n o p q.
Definition set_outputData v (j : IngestionJob) : IngestionJob :=
  let 'Build_IngestionJob z a b c d e f g h i k _ m n o p q := j in
  Build_IngestionJob z a b c d e f g h i k v m n o p q.
Definition set_externalJobId v (j : IngestionJob) : IngestionJob :=
  let 'Build_IngestionJob z a b c d e f g h i k l _ n o p q := j in
  Build_IngestionJob z a b c d e f g h i k l v n o p q.
Definition set_startedAt v (j : IngestionJob) : IngestionJob :=
  let 'Build_IngestionJob z a b c d e f g h i k l m _ o p q := j in
  Build_IngestionJob z a b c d e f g h i k l m v o p q.
Definition set_completedAt v (j : IngestionJob) : IngestionJob :=
  let 'Build_IngestionJob z a b c d e f g h i k l m n _ p q := j in
  Build_IngestionJob z a b c d e f g h i k l m n v p q.
Definition set_nextRetryAt v (j : IngestionJob) : IngestionJob :=
  let 'Build_IngestionJob z a b c d e f g h i k l m n o _ q := j in
  Build_IngestionJob z a b c d e f g h i k l m n o v q.

(** ** DTOs *)

(** trigger-ingestion.dto.ts: optional properties are [option]s. *)
Record TriggerIngestionDto := {
  dto_name : option string;
  dto_description : option string;
  dto_type : IngestionType;
  dto_documentIds : list Z;
  dto_parameters : option Json;
  dto_maxRetries : option Z;
}.

(** The [statusUpdate] argument of [updateJobStatus]: the fields the
    controller copies from [WebhookStatusUpdateDto]. *)
Record StatusUpdate := {
  upd_status : string;
  upd_progress : option Z;
  upd_error : option string;
  upd_output : option Json;
}.

(** [ProcessingResult] of processing.service.ts. *)
Record ProcessingResult := {
  res_success : bool;
  res_data : option Json;
  res_error : option string;
}.

(** ** Exceptions and the effect monad *)

Inductive Exn :=
  | NotFoundException (message : string)
  | BadRequestException (message : string)
  | Error (message : string).

Definition message (e : Exn) : string :=
  match e with
  | NotFoundException m | BadRequestException m | Error m => m
  end.

(** The spec's name for the error a [BadRequestException] carries. *)
Definition isInvalidRequest (e : Exn) : bool :=
  match e with BadRequestException _ => true | _ => false end.

(** A computation over a mutable state [S] that returns or throws; what
    it wrote before throwing stays written. *)
Definition M (S A : Type) : Type := S → (Exn + A) * S.

Global Instance M_ret {S} : MRet (M S) := λ A a s, (inr a, s).
Global Instance M_bind {S} : MBind (M S) := λ A B f c s,
  match c s with
  | (inr a, s') => f a s'
  | (inl e, s') => (inl e, s')
  end.

Definition throw {S A} (e : Exn) : M S A := λ s, (inl e, s).
Definition gets {S A} (f : S → A) : M S A := λ s, (inr (f s), s).
Definition modify {S} (f : S → S) : M S unit := λ s, (inr tt, f s).

(** [try { body } catch (error) { handler }] *)
Definition try_catch {S A} (body : M S A) (handler : Exn → M S A) : M S A :=
  λ s, match body s with
       | (inl e, s') => handler e s'
       | r => r
       end.

(** [for (const x of xs) { body }] *)
Fixpoint for_each {S A} (xs : list A) (body : A → M S unit) : M S unit :=
  match xs with
  | [] => mret tt
  | x :: xs' => body x ;; for_each xs' body
  end.

(** ** The world the service runs in *)

(** The two repositories, the clock behind [Date.now()] and [new Date()],
    the values [Math.random().toString(36).substr(2, 9)] takes at its
    successive evaluations, the executions handed off without being
    awaited, and the log of every [ingestionJobRepository.save]. *)
Record World := {
  jobTable : gmap Z IngestionJob;
  nextId : Z;
  documentTable : list Document;
  clock : Time;
  random : nat → string;
  draws : nat;
  pending : list (IngestionJob * list Document);
  saves : list IngestionJob;
}.

Definition set_jobTable v (w : World) : World :=
  let 'Build_World _ b c d e f g h := w in Build_World v b c d e f g h.
Definition set_nextId v (w : World) : World :=
  let 'Build_World a _ c d e f g h := w in Build_World a v c d e f g h.
Definition set_clock v (w : World) : World :=
  let 'Build_World a b c _ e f g h := w in Build_World a b c v e f g h.
Definition set_draws v (w : World) : World :=
  let 'Build_World a b c d e _ g h := w in Build_World a b c d e v g h.
Definition set_pending v (w : World) : World :=
  let 'Build_World a b c d e f _ h := w in Build_World a b c d e f v h.
Definition set_saves v (w : World) : World :=
  let 'Build_World a b c d e f g _ := w in Build_World a b c d e f g v.

(** A row read back from the table carries its primary key. *)
Definition row (k : Z) (j : IngestionJob) : IngestionJob := set_id (Some k) j.

(** [ingestionJobRepository.save] when the store accepts the save: an
    object without [id] is inserted under the next generated key, one
    with an [id] replaces that row; the saved object, now with its key,
    is returned. The store applies a save when it is issued. *)
Definition save (j : IngestionJob) : M World IngestionJob := λ w,
  let k := default (nextId w) (id j) in
  let j' := set_id (Some k) j in
  let w1 := set_jobTable (<[k := j']> (jobTable w)) w in
  let w2 := match id j with
            | Some _ => w1
            | None => set_nextId (nextId w + 1) w1
            end in
  (inr j', set_saves (saves w ++ [j']) w2).

(** [ingestionJobRepository.save] on any store. A store can reject a
    save, and the awaited promise then rejects: [rejects w j] is the
    exception with which the store of the world [w] rejects the save of
    [j], if it does. A rejected save writes nothing. *)
Definition saveOn (rejects : World → IngestionJob → option Exn)
    (j : IngestionJob) : M World IngestionJob := λ w,
  match rejects w j with
  | Some e => (inl e, w)
  | None => save j w
  end.

(** The store that accepts every save. *)
Definition accepts : World → IngestionJob → option Exn := λ _ _, None.

(** [ingestionJobRepository.findOne({ where: { id } })] *)
Definition findOneById (k : Z) : M World (option IngestionJob) :=
  gets (λ w, row k <$> jobTable w !! k).

(** The rows whose [externalJobId] is [e]. *)
Definition rowsByExternalJobId (e : string) (t : gmap Z IngestionJob)
  : list IngestionJob :=
  filter (λ j, externalJobId j = Some e)
         ((λ kj, row kj.1 kj.2) <$> map_to_list t).

(** [ingestionJobRepository.findOne({ where: { externalJobId } })] *)
Definition findOneByExternalJobId (e : string) : M World (option IngestionJob) :=
  gets (λ w, head (rowsByExternalJobId e (jobTable w))).

(** [documentRepository.find({ where: { id: In(ids) } })] *)
Definition findDocuments (ids : list Z) : M World (list Document) :=
  gets (λ w, filter (λ d, doc_id d ∈ ids) (documentTable w)).

(** [Date.now()], and [new Date()] as its time value. *)
Definition Date_now : M World Time := gets clock.

(** [await this.delay(ms)] *)
Definition delay (ms : Z) : M World unit :=
  modify (λ w, set_clock (clock w + ms) w).

(** [Math.random().toString(36).substr(2, 9)] *)
Definition randomSuffix : M World string := λ w,
  (inr (random w (draws w)), set_draws (S (draws w)) w).

(** A computation that also holds the job object it mutates in place. *)
Definition liftW {A} (c : M World A) : M (IngestionJob * World) A := λ s,
  let '(r, w') := c s.2 in (r, (s.1, w')).
Definition this_job : M (IngestionJob * World) IngestionJob := gets fst.
Definition assign (f : IngestionJob → IngestionJob) : M (IngestionJob * World) unit :=
  modify (λ s, (f s.1, s.2)).

(** ** IngestionService (ingestion.service.ts) *)

(** [`ext_job_${now}_${suffix}`] *)
Definition externalJobIdOf (now : Time) (suffix : string) : string :=
  "ext_job_" +:+ decimal now +:+ "_" +:+ suffix.

(** [doc => ({ id, filePath, fileName, mimeType })] of [processJob] *)
Definition documentInfo (doc : Document) : DocumentInfo :=
  {| info_id := doc_id doc; info_filePath := doc_filePath doc;
     info_fileName := doc_originalFileName doc;
     info_mimeType := doc_mimeType doc |}.

(** [doc => ({ id, title, filePath, fileName, mimeType })] of
    [triggerIngestion] *)
Definition documentSnapshot (doc : Document) : DocumentSnapshot :=
  {| snap_id := doc_id doc; snap_title := doc_title doc;
     snap_filePath := doc_filePath doc;
     snap_fileName := doc_originalFileName doc;
     snap_mimeType := doc_mimeType doc |}.

Section IngestionService.

(** [ProcessingService.processDocuments], the processing invoker: it
    returns a result or throws. [Date.prototype.toISOString] renders a
    time value. Calls to the logger leave the world as it is and are
    not written. *)
Variable processDocuments :
  Processing.ProcessingType → list DocumentInfo → Json → Exn + ProcessingResult.
Variable toISOString : Time → string.

(** [{ ...job, createdBy: ... }]: a copy of the job with its relation
    trimmed; on the columns, the job. *)
Definition formatJobResponse (job : IngestionJob) : IngestionJob := job.

(** The [default] branch, which throws, is out of reach of a value of
    the enum. *)
Definition mapIngestionTypeToProcessingType {S} (ingestionType : IngestionType)
  : M S Processing.ProcessingType :=
  match ingestionType with
  | OCR => mret Processing.OCR
  | TEXT_EXTRACTION => mret Processing.TEXT_EXTRACTION
  | DOCUMENT_CLASSIFICATION => mret Processing.DOCUMENT_CLASSIFICATION
  | DATA_EXTRACTION => mret Processing.DATA_EXTRACTION
  end.

(** The property names an object literal inherits from
    [Object.prototype]. Each holds a function, and [__proto__] the
    prototype object, so all of them are truthy. *)
Definition Object_prototype_keys : list string :=
  ["constructor"; "__defineGetter__"; "__defineSetter__"; "hasOwnProperty";
   "__lookupGetter__"; "__lookupSetter__"; "isPrototypeOf";
   "propertyIsEnumerable"; "toString"; "valueOf"; "__proto__";
   "toLocaleString"]%string.

(** [statusMap[externalStatus] || IngestionStatus.FAILED]. The map is an
    object literal: the lookup finds its four own keys, then the keys it
    inherits, and only a key found nowhere gives [undefined] and so
    FAILED. *)
Definition mapExternalStatus (externalStatus : string) : StatusValue :=
  if String.eqb externalStatus "pending" then PENDING
  else if String.eqb externalStatus "processing" then PROCESSING
  else if String.eqb externalStatus "completed" then COMPLETED
  else if String.eqb externalStatus "failed" then FAILED
  else if bool_decide (externalStatus ∈ Object_prototype_keys)
       then inherited externalStatus
  else FAILED.

Definition calculateNextRetry (job : IngestionJob) : M World Time :=
  let delayMinutes := 2 ^ retryCount job in
  let maxDelayMinutes := 60 in
  let actualDelayMinutes := Z.min delayMinutes maxDelayMinutes in
  now ← Date_now;
  mret (now + actualDelayMinutes * 60 * 1000).

Definition validateDocuments (ids : list Z) (userId : Z) : M World (list Document) :=
  docs ← findDocuments ids;
  if negb (length docs =? length ids)%nat then
    throw (BadRequestException "Some documents not found")
  else
    let unauthorizedDocs := filter (λ doc, doc_createdById doc ≠ userId) docs in
    if (0 <? length unauthorizedDocs)%nat then
      throw (BadRequestException "Access denied to some documents")
    else mret docs.

Definition findOne (k : Z) (userId : Z) : M World IngestionJob :=
  job ← findOneById k;
  match job with
  | None => throw (NotFoundException "Ingestion job not found")
  | Some job =>
      if negb (createdById job =? userId) then
        throw (BadRequestException "Access denied to this ingestion job")
      else mret (formatJobResponse job)
  end.

(** The failure branch shared by the unsuccessful result and the
    [catch] block of [processJob], and by the webhook: schedule a retry
    if retries remain. *)
Definition scheduleRetry : M (IngestionJob * World) unit :=
  job ← this_job;
  if retryCount job <? maxRetries job then
    t ← liftW (calculateNextRetry job);
    assign (set_nextRetryAt (Some t))
  else mret tt.

Section Store.

(** The store the execution path saves to. *)
Variable rejects : World → IngestionJob → option Exn.

(** [await this.ingestionJobRepository.save(job)]: the job object
    itself receives the generated key; a rejected save is thrown at the
    [await]. *)
Definition saveThis : M (IngestionJob * World) unit :=
  job ← this_job; saved ← liftW (saveOn rejects job); assign (λ _, saved).

(** The [try] block of [processJob] up to its first [await]. *)
Definition processJob_start : M (IngestionJob * World) unit :=
  assign (set_status PROCESSING);;
  now ← liftW Date_now;
  assign (set_startedAt (Some now));;
  saveThis.

(** The [try] block after that [await]. *)
Definition processJob_rest (docs : list Document) : M (IngestionJob * World) unit :=
  job ← this_job;
  processingType ← mapIngestionTypeToProcessingType (type job);
  let documentInfos := documentInfo <$> docs in
  let totalSteps := 10 in
  for_each (Z.of_nat <$> seq 0 (Z.to_nat totalSteps)) (λ step,
    assign (set_progress (round_div ((step + 1) * 100) totalSteps));;
    saveThis;;
    liftW (delay 200));;
  job ← this_job;
  match processDocuments processingType documentInfos (parameters job) with
  | inl e => throw e
  | inr result =>
      (if res_success result then
         assign (set_status COMPLETED);;
         assign (set_progress 100);;
         assign (set_outputData (res_data result));;
         now ← liftW Date_now;
         assign (set_completedAt (Some now))
       else
         assign (set_status FAILED);;
         assign (set_errorMessage
                   (Some (or_else truthy_str (res_error result) "Processing failed")));;
         now ← liftW Date_now;
         assign (set_completedAt (Some now));;
         scheduleRetry);;
      saveThis
  end.

Definition processJob_try (docs : list Document) : M (IngestionJob * World) unit :=
  processJob_start;; processJob_rest docs.

Definition processJob_catch (error : Exn) : M (IngestionJob * World) unit :=
  assign (set_status FAILED);;
  assign (set_errorMessage
            (Some (or_else truthy_str (Some (message error)) "Processing failed")));;
  now ← liftW Date_now;
  assign (set_completedAt (Some now));;
  scheduleRetry;;
  saveThis.

(** [processJob(job, documents)], awaited: the result, the job object as
    the routine leaves it, and the world. *)
Definition processJob (job : IngestionJob) (docs : list Document)
  : World → (Exn + unit) * (IngestionJob * World) :=
  λ w, try_catch (processJob_try docs) processJob_catch (job, w).

(** [processJob] from its first [await] on, for a job object on which
    the routine has run up to there. *)
Definition processJob_resume (job : IngestionJob) (docs : list Document)
  : World → (Exn + unit) * (IngestionJob * World) :=
  λ w, try_catch (processJob_rest docs) processJob_catch (job, w).

End Store.

(** [this.processJob(job, documents).catch(...)], not awaited. The call
    runs [processJob] up to its first [await]: the job object becomes
    PROCESSING with its [startedAt], and its save is issued, which the
    store applies. What follows that [await] is handed off with the job
    object, and [runPending] takes it up. The callers of the service are
    modelled on the store that accepts every save. *)
Definition schedule (job : IngestionJob) (docs : list Document) : M World unit :=
  λ w, let '(_, (job', w')) := processJob_start accepts (job, w) in
       (inr tt, set_pending (pending w' ++ [(job', docs)]) w').

(** The oldest handed-off execution runs to its end; a rejection only
    reaches the [.catch] that logs it. *)
Definition runPending : M World unit := λ w,
  match pending w with
  | [] => (inr tt, w)
  | (job, docs) :: rest =>
      let '(_, (_, w')) := processJob_resume accepts job docs (set_pending rest w) in
      (inr tt, w')
  end.

(** The object [triggerIngestion] gives to
    [ingestionJobRepository.create]; [now] is the time [new Date()]
    denotes in the default name. *)
Definition newJob (triggerDto : TriggerIngestionDto) (userId : Z)
    (docs : list Document) (now : Time) : IngestionJob :=
  {| id := None;
     name := or_else truthy_str (dto_name triggerDto)
               ("Ingestion Job " +:+ toISOString now);
     description := dto_description triggerDto;
     type := dto_type triggerDto;
     status := PENDING;
     progress := 0;
     errorMessage := None;
     retryCount := 0;
     maxRetries := or_else truthy_num (dto_maxRetries triggerDto) 3;
     parameters := or_else truthy_json (dto_parameters triggerDto) (JObj []);
     inputData := Some
       {| documentIds := dto_documentIds triggerDto;
          documents := documentSnapshot <$> docs |};
     outputData := None;
     externalJobId := None;
     startedAt := None;
     completedAt := None;
     nextRetryAt := None;
     createdById := userId |}.

Definition triggerIngestion (triggerDto : TriggerIngestionDto) (userId : Z)
  : M World IngestionJob :=
  docs ← validateDocuments (dto_documentIds triggerDto) userId;
  now ← Date_now;
  let ingestionJob := newJob triggerDto userId docs now in
  savedJob ← save ingestionJob;
  now ← Date_now;
  suffix ← randomSuffix;
  let externalJobId := externalJobIdOf now suffix in
  let savedJob := set_externalJobId (Some externalJobId) savedJob in
  save savedJob;;
  schedule savedJob docs;;
  findOne (default 0 (id savedJob)) userId.

Definition retryJob (k : Z) (userId : Z) : M World IngestionJob :=
  job ← findOne k userId;
  if negb (bool_decide (status job = FAILED)) then
    throw (BadRequestException "Only failed jobs can be retried")
  else if retryCount job >=? maxRetries job then
    throw (BadRequestException "Maximum retry attempts reached")
  else
    let job := set_status RETRYING job in
    let job := set_progress 0 job in
    let job := set_errorMessage None job in
    let job := set_retryCount (retryCount job + 1) job in
    let job := set_nextRetryAt None job in
    updatedJob ← save job;
    let documentIds := from_option documentIds [] (inputData job) in
    docs ← findDocuments documentIds;
    schedule updatedJob docs;;
    findOne (default 0 (id updatedJob)) userId.

Definition updateJobStatus (externalJobId : string) (statusUpdate : StatusUpdate)
  : M World unit :=
  job ← findOneByExternalJobId externalJobId;
  match job with
  | None => mret tt
  | Some job =>
      let job := set_status (mapExternalStatus (upd_status statusUpdate)) job in
      let job := set_progress
        (or_else truthy_num (upd_progress statusUpdate) (progress job)) job in
      let job := set_errorMessage
        (or_keep truthy_str (upd_error statusUpdate) (errorMessage job)) job in
      let job := set_outputData
        (or_keep truthy_json (upd_output statusUpdate) (outputData job)) job in
      now ← Date_now;
      let job :=
        if String.eqb (upd_status statusUpdate) "processing"
           && negb (bool_decide (is_Some (startedAt job)))
        then set_startedAt (Some now) job else job in
      let job :=
        if String.eqb (upd_status statusUpdate) "completed"
        then set_progress 100 (set_completedAt (Some now) job) else job in
      job ←
        (if String.eqb (upd_status statusUpdate) "failed" then
           let job := set_errorMessage
             (Some (or_else truthy_str (upd_error statusUpdate) "Processing failed"))
             job in
           if retryCount job <? maxRetries job then
             t ← calculateNextRetry job;
             mret (set_nextRetryAt (Some t) job)
           else mret job
         else mret job);
      save job;; mret tt
  end.

End IngestionService.

(** ** The listing of jobs (ingestion.service.ts, [findAll]) *)

(** [Math.ceil (n / d)] for integers [n] and [d > 0]. *)
Definition ceil_div (n d : Z) : Z := - ((- n) / d).

(** The object [findAll] returns. *)
Record JobPage := {
  page_jobs : list IngestionJob;
  page_total : Z;
  page_page : Z;
  page_limit : Z;
  page_totalPages : Z;
}.

(** The rows whose [createdById] is [userId]. *)
Definition rowsByCreatedById (userId : Z) (t : gmap Z IngestionJob)
  : list IngestionJob :=
  filter (λ j, createdById j = userId)
         ((λ kj, row kj.1 kj.2) <$> map_to_list t).

Section Listing.

(** The order [order: { createdAt: 'DESC' }] puts rows in. The
    [createdAt] column is written by the database and is not among the
    modelled columns, so the order is left to the database. *)
Variable orderByCreatedAtDesc : list IngestionJob → list IngestionJob.

(** [ingestionJobRepository.findAndCount({ where: { createdById },
    order, skip, take })]: the page of rows and the count of all rows
    that match. *)
Definition findAndCount (userId skip take_ : Z)
  : M World (list IngestionJob * Z) :=
  gets (λ w,
    let found := orderByCreatedAtDesc (rowsByCreatedById userId (jobTable w)) in
    (take (Z.to_nat take_) (drop (Z.to_nat skip) found), Z.of_nat (length found))).

(** [findAll(userId, page = 1, limit = 10)]: an absent argument takes
    its default. *)
Definition findAll (userId : Z) (page limit : option Z) : M World JobPage :=
  let page := default 1 page in
  let limit := default 10 limit in
  found ← findAndCount userId ((page - 1) * limit) limit;
  mret {| page_jobs := formatJobResponse <$> found.1;
          page_total := found.2;
          page_page := page;
          page_limit := limit;
          page_totalPages := ceil_div found.2 limit |}.

End Listing.

(** ** Wire values of the enums and the request validators *)

(** ingestion-job.entity.ts *)
Definition IngestionStatus_value (s : IngestionStatus) : string :=
  match s with
  | PENDING => "pending"
  | PROCESSING => "processing"
  | COMPLETED => "completed"
  | FAILED => "failed"
  | RETRYING => "retrying"
  end.

Definition IngestionType_value (t : IngestionType) : string :=
  match t with
  | OCR => "ocr"
  | TEXT_EXTRACTION => "text_extraction"
  | DOCUMENT_CLASSIFICATION => "document_classification"
  | DATA_EXTRACTION => "data_extraction"
  end.

(** processing.service.ts *)
Definition ProcessingType_value (t : Processing.ProcessingType) : string :=
  match t with
  | Processing.OCR => "ocr"
  | Processing.TEXT_EXTRACTION => "text_extraction"
  | Processing.DOCUMENT_CLASSIFICATION => "document_classification"
  | Processing.DATA_EXTRACTION => "data_extraction"
  end.

(** The constraints trigger-ingestion.dto.ts declares on what the types
    leave open: [maxRetries], when present, is between 0 and 10. *)
Definition validTriggerIngestionDto (dto : TriggerIngestionDto) : bool :=
  match dto_maxRetries dto with
  | None => true
  | Some v => (0 <=? v) && (v <=? 10)
  end.

(** webhook-status-update.dto.ts *)
Record WebhookStatusUpdateDto := {
  wh_externalJobId : string;
  wh_status : IngestionStatus;
  wh_progress : option Z;
  wh_error : option string;
  wh_output : option Json;
}.

(** Its constraints: [progress], when present, is between 0 and 100, and
    [output], when present, is an object. *)
Definition validWebhookStatusUpdateDto (dto : WebhookStatusUpdateDto) : bool :=
  match wh_progress dto with
  | None => true
  | Some p => (0 <=? p) && (p <=? 100)
  end
  && match wh_output dto with
     | None | Some (JObj _) => true
     | Some _ => false
     end.

(** ** IngestionController (ingestion.controller.ts) *)

Module Controller.

Section Listing.

Variable orderByCreatedAtDesc : list IngestionJob → list IngestionJob.

(** [findAll(page?, limit?, req)] *)
Definition findAll (page limit : option Z) (userId : Z) : M World JobPage :=
  findAll orderByCreatedAtDesc userId
    (Some (or_else truthy_num page 1)) (Some (or_else truthy_num limit 10)).

End Listing.

(** [updateJobStatus(statusUpdate)] *)
Definition updateJobStatus (statusUpdate : WebhookStatusUpdateDto)
  : M World string :=
  updateJobStatus (wh_externalJobId statusUpdate)
    {| upd_status := IngestionStatus_value (wh_status statusUpdate);
       upd_progress := wh_progress statusUpdate;
       upd_error := wh_error statusUpdate;
       upd_output := wh_output statusUpdate |};;
  mret "Status updated successfully"%string.

End Controller.

(** ** ProcessingService (processing.service.ts) *)

Module ProcessingService.

(** [ProcessingResult], in full. *)
Record Result := {
  type : Processing.ProcessingType;
  success : bool;
  data : option Json;
  error : option string;
  processingTime : Z;
  metadata : option (Z * Json);
}.

Section Routines.

(** The four processing routines; they take their time and may throw. *)
Variables processOCR processTextExtraction processDocumentClassification
  processDataExtraction : list DocumentInfo → Json → M World Json.

(** [processDocuments(type, documents, parameters = {})]; [metadata]
    holds [documentsProcessed] and [parameters]. *)
Definition processDocuments (type_ : Processing.ProcessingType)
    (documents_ : list DocumentInfo) (parameters_ : option Json)
  : M World Result :=
  let parameters_ := default (JObj []) parameters_ in
  startTime ← Date_now;
  try_catch
    (result ←
       match type_ with
       | Processing.OCR => processOCR documents_ parameters_
       | Processing.TEXT_EXTRACTION => processTextExtraction documents_ parameters_
       | Processing.DOCUMENT_CLASSIFICATION =>
           processDocumentClassification documents_ parameters_
       | Processing.DATA_EXTRACTION => processDataExtraction documents_ parameters_
       end;
     now ← Date_now;
     let processingTime_ := now - startTime in
     mret {| type := type_; success := true; data := Some result;
             error := None; processingTime := processingTime_;
             metadata := Some (Z.of_nat (length documents_), parameters_) |})
    (λ e,
       now ← Date_now;
       let processingTime_ := now - startTime in
       mret {| type := type_; success := false; data := None;
               error := Some (message e); processingTime := processingTime_;
               metadata := None |}).

End Routines.

End ProcessingService.

(** * The vocabulary of the properties *)

(** ** Retry *)

(** The minutes [calculateNextRetry] adds for a retry count. *)
Definition backoffMinutes (r : Z) : Z := Z.min (2 ^ r) 60.

(** The job object [retryJob] saves for a job it accepts. *)
Definition retried (job : IngestionJob) : IngestionJob :=
  set_nextRetryAt None
    (set_retryCount (retryCount job + 1)
       (set_errorMessage None (set_progress 0 (set_status RETRYING job)))).

(** The job object as [processJob] has it at its first [await]. *)
Definition started (now : Time) (job : IngestionJob) : IngestionJob :=
  set_startedAt (Some now) (set_status PROCESSING job).

(** The documents re-fetched for a retry. *)
Definition retryDocuments (job : IngestionJob) (w : World) : list Document :=
  filter (λ d, doc_id d ∈ from_option documentIds [] (inputData job))
         (documentTable w).

(** ** Outcomes of computations *)

(** [wp c Q s]: run from [s], the computation [c] ends, returning or
    throwing, in a result and a state that satisfy [Q]. *)
Definition wp {S A} (c : M S A) (Q : Exn + A → S → Prop) (s : S) : Prop :=
  Q (c s).1 (c s).2.

(** ** The execution path *)

(** The columns [processJob] never assigns. *)
Definition untouched (j0 j : IngestionJob) : Prop :=
  name j = name j0 ∧ description j = description j0 ∧ type j = type j0
  ∧ retryCount j = retryCount j0 ∧ maxRetries j = maxRetries j0
  ∧ parameters j = parameters j0 ∧ inputData j = inputData j0
  ∧ externalJobId j = externalJobId j0 ∧ createdById j = createdById j0.

(** The run of job [j0] under key [k], before its result is known. *)
Definition running (k : Z) (j0 : IngestionJob) (s : IngestionJob * World) : Prop :=
  id s.1 = Some k ∧ untouched j0 s.1 ∧ nextRetryAt s.1 = nextRetryAt j0.

(** The run of job [j0] under key [k], ended and persisted. *)
Definition settled (k : Z) (j0 : IngestionJob) (s : IngestionJob * World) : Prop :=
  id s.1 = Some k ∧ untouched j0 s.1
  ∧ jobTable s.2 !! k = Some s.1 ∧ last (saves s.2) = Some s.1
  ∧ completedAt s.1 = Some (clock s.2)
  ∧ (status s.1 = COMPLETED ∧ progress s.1 = 100
     ∨ status s.1 = FAILED
       ∧ (∃ m, errorMessage s.1 = Some m ∧ m ≠ "")
       ∧ nextRetryAt s.1 =
           if retryCount j0 <? maxRetries j0
           then Some (clock s.2 + Z.min (2 ^ retryCount j0) 60 * 60 * 1000)
           else nextRetryAt j0).

(** During the run of the job under key [k] from the world [w0], the
    other rows, the key sequence and the hand-off queue stay as they
    were. *)
Definition framed (k : Z) (w0 : World) (s : IngestionJob * World) : Prop :=
  id s.1 = Some k
  ∧ (∀ k', k' ≠ k → jobTable s.2 !! k' = jobTable w0 !! k')
  ∧ pending s.2 = pending w0 ∧ nextId s.2 = nextId w0.

(** The processing type a job's type maps to. *)
Definition processingTypeOf (t : IngestionType) : Processing.ProcessingType :=
  match t with
  | OCR => Processing.OCR
  | TEXT_EXTRACTION => Processing.TEXT_EXTRACTION
  | DOCUMENT_CLASSIFICATION => Processing.DOCUMENT_CLASSIFICATION
  | DATA_EXTRACTION => Processing.DATA_EXTRACTION
  end.

(** An invocation that does not succeed: it throws or reports failure. *)
Definition fails (o : Exn + ProcessingResult) : Prop :=
  match o with
  | inl _ => True
  | inr result => res_success result = false
  end.

(** ** Trigger and the external id *)

(** No character of [s] is an underscore. *)
Fixpoint no_underscore (s : string) : Prop :=
  match s with
  | EmptyString => True
  | String c s' => c ≠ "_"%char ∧ no_underscore s'
  end.

(** Keys are handed out below [nextId], and every execution handed off
    holds a job object that has its key and the external id of its row. *)
Definition in_sync (w : World) : Prop :=
  (∀ k, nextId w ≤ k → jobTable w !! k = None)
  ∧ (∀ job docs, (job, docs) ∈ pending w →
       ∃ k j, id job = Some k ∧ jobTable w !! k = Some j
              ∧ externalJobId j = externalJobId job).

(** Every stored job is still stored, with the external id it had. *)
Definition keeps_external_ids (w w' : World) : Prop :=
  ∀ k j, jobTable w !! k = Some j →
         ∃ j', jobTable w' !! k = Some j' ∧ externalJobId j' = externalJobId j.

Section Vocabulary.

Variable processDocuments :
  Processing.ProcessingType → list DocumentInfo → Json → Exn + ProcessingResult.
Variable toISOString : Time → string.

(** The call [processJob] makes to the invoker for a job and its
    documents. *)
Definition invocation (job : IngestionJob) (docs : list Document)
  : Exn + ProcessingResult :=
  processDocuments (processingTypeOf (type job)) (documentInfo <$> docs)
    (parameters job).

(** What the outcome of the invocation makes of the job [j']. *)
Definition verdict (job : IngestionJob) (docs : list Document)
    (j' : IngestionJob) : Prop :=
  match invocation job docs with
  | inr result =>
      if res_success result
      then status j' = COMPLETED ∧ outputData j' = res_data result
      else status j' = FAILED
           ∧ errorMessage j' =
               Some (or_else truthy_str (res_error result) "Processing failed")
  | inl e =>
      status j' = FAILED
      ∧ errorMessage j' =
          Some (or_else truthy_str (Some (message e)) "Processing failed")
  end.

(** The two objects a trigger saves: the new job once it has its key,
    and the same job with its external id. *)
Definition firstSaved dto userId docs (w : World) : IngestionJob :=
  set_id (Some (nextId w)) (newJob toISOString dto userId docs (clock w)).

(** The second of them. *)
Definition secondSaved dto userId docs (w : World) : IngestionJob :=
  set_externalJobId
    (Some (externalJobIdOf (clock w) (random w (draws w))))
    (firstSaved dto userId docs w).

(** One operation of the service: a trigger, a retry, a webhook
    delivery, or the execution of a handed-off job. *)
Inductive step : World → World → Prop :=
  | step_trigger dto userId w :
      step w (triggerIngestion toISOString dto userId w).2
  | step_retry k userId w :
      step w (retryJob k userId w).2
  | step_webhook e u w :
      step w (updateJobStatus e u w).2
  | step_run w :
      step w (runPending processDocuments w).2.

End Vocabulary.

(** ** Bounds and requests *)

(** The bounds of a job's counters: progress is a percentage, and the
    retries made do not exceed the retries allowed, which are at most 10. *)
Definition well_formed (j : IngestionJob) : Prop :=
  0 ≤ progress j ≤ 100 ∧ 0 ≤ retryCount j ≤ maxRetries j ∧ maxRetries j ≤ 10.

(** Every stored job and every job object handed off is within bounds. *)
Definition all_well_formed (w : World) : Prop :=
  (∀ k j, jobTable w !! k = Some j → well_formed j)
  ∧ (∀ job docs, (job, docs) ∈ pending w → well_formed job).

(** Job [k] of [userId] is FAILED after [c] of [m] retries and nothing
    waits for execution. *)
Definition failed_after (k userId c m : Z) (w : World) : Prop :=
  pending w = []
  ∧ ∃ j, jobTable w !! k = Some j ∧ createdById j = userId
         ∧ status j = FAILED ∧ retryCount j = c ∧ maxRetries j = m.

Section Requests.

Variable processDocuments :
  Processing.ProcessingType → list DocumentInfo → Json → Exn + ProcessingResult.
Variable toISOString : Time → string.

(** A retry of job [k] by [userId] followed by the execution it hands
    off. *)
Definition retryCycle (k userId : Z) (w : World) : World :=
  (runPending processDocuments (retryJob k userId w).2).2.

(** What can happen to the world: a request that reaches the service
    through the controller with a body that satisfies its DTO, or the
    execution of a handed-off job. *)
Inductive request : World → World → Prop :=
  | request_trigger dto userId w :
      validTriggerIngestionDto dto = true →
      request w (triggerIngestion toISOString dto userId w).2
  | request_findOne k userId w :
      request w (findOne k userId w).2
  | request_retry k userId w :
      request w (retryJob k userId w).2
  | request_webhook dto w :
      validWebhookStatusUpdateDto dto = true →
      request w (Controller.updateJobStatus dto w).2
  | request_run w :
      request w (runPending processDocuments w).2.

End Requests.

(** ** Sample data, after the fixtures of ingestion.service.spec.ts *)

Module Sample.

Definition mockDocument : Document :=
  {| doc_id := 1; doc_title := "Test Document";
     doc_filePath := "/uploads/test.pdf";
     doc_originalFileName := "test.pdf";
     doc_mimeType := "application/pdf"; doc_createdById := 1 |}.

Definition mockIngestionJob : IngestionJob :=
  {| id := Some 1; name := "Test Ingestion Job";
     description := Some "Test description"%string;
     type := OCR; status := PENDING; progress := 0; errorMessage := None;
     retryCount := 0; maxRetries := 3; parameters := JObj [];
     inputData := Some {| documentIds := [1]; documents := [] |};
     outputData := None; externalJobId := Some "ext_job_123"%string;
     startedAt := None; completedAt := None; nextRetryAt := None;
     createdById := 1 |}.

Definition failedJob : IngestionJob :=
  set_errorMessage (Some "Processing error"%string)
    (set_retryCount 1 (set_status FAILED mockIngestionJob)).

Definition completedJob : IngestionJob :=
  set_progress 100 (set_status COMPLETED mockIngestionJob).

Definition halfwayJob : IngestionJob :=
  set_progress 40 (set_status PROCESSING mockIngestionJob).

(** A world holding one job under key 1 and the sample document. *)
Definition worldWith (job : IngestionJob) : World :=
  {| jobTable := {[ 1 := job ]}; nextId := 2;
     documentTable := [mockDocument]; clock := 1700000000000;
     random := λ _, "k3x9q2m1z"%string; draws := 0;
     pending := []; saves := [] |}.

Definition emptyWorld : World :=
  {| jobTable := ∅; nextId := 1;
     documentTable := [mockDocument]; clock := 1700000000000;
     random := λ _, "k3x9q2m1z"%string; draws := 0;
     pending := []; saves := [] |}.

(** A stand-in for the ISO rendering of a time value. *)
Definition toISOString (t : Time) : string := decimal t.

(** The request of the unit tests, with a chosen [maxRetries]. *)
Definition triggerDto (maxRetries : option Z) : TriggerIngestionDto :=
  {| dto_name := Some "Test OCR Job"%string;
     dto_description := Some "Process test document"%string;
     dto_type := OCR; dto_documentIds := [1];
     dto_parameters := Some (JObj [("language"%string, JStr "en")]);
     dto_maxRetries := maxRetries |}.

(** An invoker that reports an unsuccessful result. *)
Definition failingInvoker (_ : Processing.ProcessingType)
    (_ : list DocumentInfo) (_ : Json) : Exn + ProcessingResult :=
  inr {| res_success := false; res_data := None;
         res_error := Some "OCR engine unavailable"%string |}.

(** An invoker that throws. *)
Definition throwingInvoker (_ : Processing.ProcessingType)
    (_ : list DocumentInfo) (_ : Json) : Exn + ProcessingResult :=
  inl (Error "connection reset").

Definition succeedingInvoker (_ : Processing.ProcessingType)
    (_ : list DocumentInfo) (_ : Json) : Exn + ProcessingResult :=
  inr {| res_success := true; res_data := Some (JObj [("result", JStr "success")]);
         res_error := None |}.


End Sample.

(** * Properties *)

(** ** Runs of the model *)

(** The saves of a successful run report PROCESSING at the job's old
    progress, then 10, 20, ..., 100, then the completed job. *)
Example processJob_progress_sequence :
  let run := processJob Sample.succeedingInvoker accepts Sample.mockIngestionJob
               [Sample.mockDocument] (Sample.worldWith Sample.mockIngestionJob) in
  (λ j, (status j, progress j)) <$> saves run.2.2
  = (enum PROCESSING, 0)
    :: ((λ p, (enum PROCESSING, p)) <$> [10; 20; 30; 40; 50; 60; 70; 80; 90; 100])
    ++ [(enum COMPLETED, 100)].
Proof. vm_compute. reflexivity. Qed.

(** An exception of the invoker ends in FAILED, two seconds of progress
    steps after the start, with a retry one minute later. *)
Example processJob_invoker_throws :
  let run := processJob Sample.throwingInvoker accepts Sample.mockIngestionJob
               [Sample.mockDocument] (Sample.worldWith Sample.mockIngestionJob) in
  run.1 = inr tt
  ∧ status run.2.1 = FAILED
  ∧ errorMessage run.2.1 = Some "connection reset"%string
  ∧ completedAt run.2.1 = Some 1700000002000
  ∧ nextRetryAt run.2.1 = Some 1700000062000.
Proof. vm_compute. repeat split. Qed.

(** ** Retry back-off *)

Lemma backoffMinutes_small r : 0 ≤ r ≤ 5 → backoffMinutes r = 2 ^ r.
Proof.
  intros Hr. unfold backoffMinutes.
  assert (2 ^ r ≤ 2 ^ 5) by (apply Z.pow_le_mono_r; lia).
  change (2 ^ 5) with 32 in *. lia.
Qed.

Lemma backoffMinutes_capped r : 6 ≤ r → backoffMinutes r = 60.
Proof.
  intros Hr. unfold backoffMinutes.
  assert (2 ^ 6 ≤ 2 ^ r) by (apply Z.pow_le_mono_r; lia).
  change (2 ^ 6) with 64 in *. lia.
Qed.

(** C1. For a job with retry count [r >= 0], [calculateNextRetry] returns
    the current time plus [min(2^r, 60)] minutes and changes nothing; the
    delay is [2^r] minutes up to [r = 5] and 60 minutes from [r = 6] on,
    so the counts 0..6 give 1, 2, 4, 8, 16, 32, 60 minutes. *)
Theorem calculateNextRetry_backoff (job : IngestionJob) (w : World) :
  0 ≤ retryCount job →
  ∃ t, calculateNextRetry job w = (inr t, w)
     ∧ t - clock w = Z.min (2 ^ retryCount job) 60 * 60 * 1000
     ∧ (retryCount job ≤ 5 → t - clock w = 2 ^ retryCount job * 60 * 1000)
     ∧ (6 ≤ retryCount job → t - clock w = 60 * 60 * 1000)
     ∧ ((λ r, (calculateNextRetry (set_retryCount r job) w).1)
          <$> [0; 1; 2; 3; 4; 5; 6])
       = (λ m, inr (clock w + m * 60 * 1000)) <$> [1; 2; 4; 8; 16; 32; 60].
Proof.
  intros Hr. eexists. split; [reflexivity|].
  fold (backoffMinutes (retryCount job)).
  split; [lia|]. split; [|split].
  - intros Hle. rewrite backoffMinutes_small by lia. lia.
  - intros Hge. rewrite backoffMinutes_capped by lia. lia.
  - destruct job; reflexivity.
Qed.

(** Runs a computation of [M] as far as it is determined. *)
Ltac run_M :=
  repeat (progress (unfold mbind, M_bind, mret, M_ret, throw, gets, modify;
                    cbn -[lookup insert filter Z.add Z.pow Z.min Z.mul Z.ltb
                          Z.geb Z.eqb String.eqb map_to_list decimal])).

(** ** Lookup and retry *)

Lemma row_fields k j :
  id (row k j) = Some k ∧ status (row k j) = status j
  ∧ retryCount (row k j) = retryCount j ∧ maxRetries (row k j) = maxRetries j
  ∧ createdById (row k j) = createdById j
  ∧ externalJobId (row k j) = externalJobId j
  ∧ inputData (row k j) = inputData j.
Proof. by destruct j. Qed.

Lemma findOne_found k userId w job :
  jobTable w !! k = Some job → createdById job = userId →
  findOne k userId w = (inr (row k job), w).
Proof.
  intros Hk Ho. unfold findOne, findOneById, gets, mbind, M_bind.
  rewrite Hk. cbn.
  destruct (row_fields k job) as (_ & _ & _ & _ & -> & _).
  rewrite Ho, Z.eqb_refl. reflexivity.
Qed.

(** What the un-awaited call does at once for a job that has its key:
    the job object is started and saved, and the rest is handed off. *)
Lemma schedule_run job docs w k :
  id job = Some k →
  schedule job docs w =
    (inr tt,
     set_pending (pending w ++ [(started (clock w) job, docs)])
       (set_saves (saves w ++ [started (clock w) job])
          (set_jobTable (<[k := started (clock w) job]> (jobTable w)) w))).
Proof. intros Hid. destruct job, w. cbn in Hid. subst. reflexivity. Qed.

Lemma retryJob_found k userId w job :
  jobTable w !! k = Some job → createdById job = userId →
  retryJob k userId w =
    if negb (bool_decide (status job = FAILED)) then
      (inl (BadRequestException "Only failed jobs can be retried"), w)
    else if retryCount job >=? maxRetries job then
      (inl (BadRequestException "Maximum retry attempts reached"), w)
    else
      (inr (started (clock w) (retried (row k job))),
       set_pending
         (pending w ++ [(started (clock w) (retried (row k job)),
                         retryDocuments job w)])
         (set_saves
            (saves w ++ [retried (row k job);
                         started (clock w) (retried (row k job))])
            (set_jobTable
               (<[k := started (clock w) (retried (row k job))]>
                  (<[k := retried (row k job)]> (jobTable w))) w))).
Proof.
  intros Hk Ho. unfold retryJob.
  unfold mbind at 1. unfold M_bind at 1.
  rewrite (findOne_found _ _ _ _ Hk Ho).
  destruct job as [i n d ty st pr em rc mr pa ind od ex sa ca nr cb].
  cbn [row set_id status retryCount maxRetries].
  destruct (bool_decide (st = FAILED)); [|reflexivity].
  cbn [negb]. destruct (rc >=? mr); [reflexivity|].
  destruct w as [jt ni dt ck rn dr pe sv]. cbn in Ho, Hk. subst cb.
  unfold save, findDocuments, schedule, processJob_start, saveThis, liftW,
    assign, this_job, saveOn, accepts, save, Date_now.
  run_M.
  match goal with
  | |- findOne _ _ ?w' = (inr ?j, _) => rewrite (findOne_found k userId w' j)
  end; [rewrite <- app_assoc; reflexivity | apply lookup_insert_eq | reflexivity].
Qed.

Lemma findOne_missing k userId w :
  jobTable w !! k = None →
  findOne k userId w = (inl (NotFoundException "Ingestion job not found"), w).
Proof.
  intros Hk. unfold findOne, findOneById, gets, mbind, M_bind.
  rewrite Hk. reflexivity.
Qed.

Lemma findOne_denied k userId w job :
  jobTable w !! k = Some job → createdById job ≠ userId →
  findOne k userId w =
    (inl (BadRequestException "Access denied to this ingestion job"), w).
Proof.
  intros Hk Ho. unfold findOne, findOneById, gets, mbind, M_bind.
  rewrite Hk. cbn.
  destruct (row_fields k job) as (_ & _ & _ & _ & -> & _).
  apply Z.eqb_neq in Ho. rewrite Ho. reflexivity.
Qed.

Lemma retryJob_accepted_inv k userId w r w' :
  retryJob k userId w = (inr r, w') →
  ∃ job, jobTable w !! k = Some job ∧ createdById job = userId.
Proof.
  intros Hrun. destruct (jobTable w !! k) as [job|] eqn:Hk.
  - exists job. split; [reflexivity|].
    destruct (decide (createdById job = userId)) as [|Hne]; [assumption|].
    unfold retryJob, mbind, M_bind in Hrun.
    rewrite (findOne_denied _ _ _ _ Hk Hne) in Hrun. discriminate.
  - unfold retryJob, mbind, M_bind in Hrun.
    rewrite (findOne_missing _ _ _ Hk) in Hrun. discriminate.
Qed.

(** C1, at the job of the unit test: one earlier retry, two minutes. *)
Lemma calculateNextRetry_backoff_witness :
  ∃ t, calculateNextRetry Sample.failedJob (Sample.worldWith Sample.failedJob)
       = (inr t, Sample.worldWith Sample.failedJob)
     ∧ t - 1700000000000 = 2 * 60 * 1000.
Proof.
  destruct (calculateNextRetry_backoff Sample.failedJob
              (Sample.worldWith Sample.failedJob)) as (t & Ht & Hd & _).
  - vm_compute. discriminate.
  - exists t. split; [exact Ht | exact Hd].
Defined.

(** C2. For a job that exists and belongs to the caller, [retryJob] fails
    with InvalidRequest exactly when the job's status is not FAILED or its
    retry count has reached [maxRetries]; in every other case, and only
    then, the retry is accepted and a job is returned. *)
Theorem retryJob_rejected_iff k userId w job :
  jobTable w !! k = Some job → createdById job = userId →
  ((∃ e, (retryJob k userId w).1 = inl e ∧ isInvalidRequest e = true)
     ↔ (status job ≠ FAILED ∨ retryCount job >= maxRetries job))
  ∧ ((∃ r, (retryJob k userId w).1 = inr r)
     ↔ (status job = FAILED ∧ retryCount job < maxRetries job)).
Proof.
  intros Hk Ho. rewrite (retryJob_found _ _ _ _ Hk Ho).
  destruct (bool_decide_reflect (status job = FAILED)) as [Hs|Hs]; cbn [negb].
  - destruct (Z.geb_spec (retryCount job) (maxRetries job)) as [Hc|Hc]; cbn [fst].
    + split; split.
      * intros _. right. lia.
      * intros _. eexists. split; reflexivity.
      * intros [r Hr]. discriminate.
      * intros [_ Hlt]. lia.
    + split; split.
      * intros (e & He & _). discriminate.
      * intros [Hne|Hge]; [contradiction | lia].
      * intros _. split; [assumption | lia].
      * intros _. eexists. reflexivity.
  - cbn [fst]. split; split.
    + intros _. left. assumption.
    + intros _. eexists. split; reflexivity.
    + intros [r Hr]. discriminate.
    + intros [Hs' _]. contradiction.
Qed.

Lemma retryJob_rejected_iff_witness :
  ((∃ e, (retryJob 1 1 (Sample.worldWith Sample.failedJob)).1 = inl e
         ∧ isInvalidRequest e = true)
     ↔ (status Sample.failedJob ≠ FAILED
        ∨ retryCount Sample.failedJob >= maxRetries Sample.failedJob))
  ∧ ((∃ r, (retryJob 1 1 (Sample.worldWith Sample.failedJob)).1 = inr r)
     ↔ (status Sample.failedJob = FAILED
        ∧ retryCount Sample.failedJob < maxRetries Sample.failedJob)).
Proof.
  apply (retryJob_rejected_iff 1 1 (Sample.worldWith Sample.failedJob)
           Sample.failedJob); reflexivity.
Defined.

Lemma retried_fields job :
  status (retried job) = RETRYING ∧ progress (retried job) = 0
  ∧ errorMessage (retried job) = None
  ∧ retryCount (retried job) = retryCount job + 1
  ∧ nextRetryAt (retried job) = None
  ∧ id (retried job) = id job ∧ name (retried job) = name job
  ∧ description (retried job) = description job ∧ type (retried job) = type job
  ∧ maxRetries (retried job) = maxRetries job
  ∧ parameters (retried job) = parameters job
  ∧ inputData (retried job) = inputData job
  ∧ outputData (retried job) = outputData job
  ∧ externalJobId (retried job) = externalJobId job
  ∧ startedAt (retried job) = startedAt job
  ∧ completedAt (retried job) = completedAt job
  ∧ createdById (retried job) = createdById job.
Proof. destruct job. cbn. repeat split. Qed.

Lemma started_fields now job :
  status (started now job) = PROCESSING
  ∧ startedAt (started now job) = Some now
  ∧ id (started now job) = id job
  ∧ progress (started now job) = progress job
  ∧ errorMessage (started now job) = errorMessage job
  ∧ outputData (started now job) = outputData job
  ∧ completedAt (started now job) = completedAt job
  ∧ nextRetryAt (started now job) = nextRetryAt job
  ∧ name (started now job) = name job
  ∧ description (started now job) = description job
  ∧ type (started now job) = type job
  ∧ retryCount (started now job) = retryCount job
  ∧ maxRetries (started now job) = maxRetries job
  ∧ parameters (started now job) = parameters job
  ∧ inputData (started now job) = inputData job
  ∧ externalJobId (started now job) = externalJobId job
  ∧ createdById (started now job) = createdById job.
Proof. destruct job. cbn. repeat split. Qed.

(** C6. A [retryJob] call that succeeds on the stored job [job] saves,
    as its first save, a job whose status is RETRYING, progress 0,
    errorMessage null, retryCount one more than before and nextRetryAt
    null, every other column being as stored: [saved]. That save puts
    [saved] in the job's row. The execution is then started on that
    object, with the documents whose ids are in [inputData.documentIds]:
    what the call hands off is [saved] as [processJob] has it at its
    first [await], and no other save of the call is of anything else.
    The row the call leaves and the job it returns have the progress,
    the error message, the retry count and the next retry time of
    [saved]. *)
Theorem retryJob_transition k userId w r w' :
  retryJob k userId w = (inr r, w') →
  ∃ job saved,
    jobTable w !! k = Some job
    ∧ status saved = RETRYING ∧ progress saved = 0 ∧ errorMessage saved = None
    ∧ retryCount saved = retryCount job + 1 ∧ nextRetryAt saved = None
    ∧ saved = retried (row k job)
    ∧ (id saved = Some k
       ∧ name saved = name job ∧ description saved = description job
       ∧ type saved = type job ∧ maxRetries saved = maxRetries job
       ∧ parameters saved = parameters job ∧ inputData saved = inputData job
       ∧ outputData saved = outputData job
       ∧ externalJobId saved = externalJobId job
       ∧ startedAt saved = startedAt job ∧ completedAt saved = completedAt job
       ∧ createdById saved = createdById job)
    ∧ (save saved w).1 = inr saved
    ∧ jobTable (save saved w).2 !! k = Some saved
    ∧ (∃ later, saves w' = saves w ++ saved :: later
                ∧ ∀ j, j ∈ later → j = started (clock w) saved)
    ∧ pending w' =
        pending w ++
        [(started (clock w) saved,
          filter (λ d, doc_id d ∈ from_option documentIds [] (inputData job))
                 (documentTable w))]
    ∧ jobTable w' !! k = Some r
    ∧ (id r = Some k ∧ progress r = 0 ∧ errorMessage r = None
       ∧ retryCount r = retryCount job + 1 ∧ nextRetryAt r = None)
    ∧ (∀ k', k' ≠ k → jobTable w' !! k' = jobTable w !! k')
    ∧ documentTable w' = documentTable w ∧ clock w' = clock w.
Proof.
  intros Hrun.
  destruct (retryJob_accepted_inv _ _ _ _ _ Hrun) as (job & Hk & Ho).
  exists job, (retried (row k job)). split; [assumption|].
  rewrite (retryJob_found _ _ _ _ Hk Ho) in Hrun.
  destruct (negb (bool_decide (status job = FAILED))); [discriminate|].
  destruct (retryCount job >=? maxRetries job); [discriminate|].
  injection Hrun as <- <-. clear Hk Ho.
  destruct job, w. cbn.
  do 9 (split; [first [reflexivity | by repeat split | apply lookup_insert_eq]|]).
  split.
  { eexists. split; [reflexivity|]. by intros j ->%list_elem_of_singleton. }
  repeat split;
    first [reflexivity | apply lookup_insert_eq
          | intros k' Hk'; by rewrite !lookup_insert_ne].
Qed.

Lemma retryJob_transition_witness :
  ∃ r w' saved later,
    retryJob 1 1 (Sample.worldWith Sample.failedJob) = (inr r, w')
    ∧ status saved = RETRYING ∧ progress saved = 0 ∧ errorMessage saved = None
    ∧ retryCount saved = 2 ∧ nextRetryAt saved = None
    ∧ saves w' = saved :: later
    ∧ pending w' = [(started 1700000000000 saved, [Sample.mockDocument])].
Proof.
  set (res := retryJob 1 1 (Sample.worldWith Sample.failedJob)).
  assert (Hrun : res = (inr (started 1700000000000 (retried Sample.failedJob)),
                        res.2))
    by (vm_compute; reflexivity).
  destruct (retryJob_transition 1 1 _ _ _ Hrun)
    as (job & saved & Hk & Hs & Hp & He & Hc & Hn & Hsaved & _ & _ & _
        & (later & Hsaves & _) & Hpend & _).
  injection Hk as <-.
  exists (started 1700000000000 (retried Sample.failedJob)), res.2, saved, later.
  split; [exact Hrun|]. do 3 (split; [assumption|]).
  split; [rewrite Hc; reflexivity|]. split; [assumption|].
  split; [exact Hsaves | exact Hpend].
Defined.

(** ** A weakest-precondition calculus for [M] *)

Lemma wp_bind {S A B} (c : M S A) (f : A → M S B) Q s :
  wp c (λ r s', match r with
                | inl e => Q (inl e) s'
                | inr a => wp (f a) Q s'
                end) s →
  wp (c ≫= f) Q s.
Proof.
  unfold wp, mbind, M_bind. destruct (c s) as [[e|a] s']; cbn; auto.
Qed.

Lemma wp_try_catch {S A} (body : M S A) handler Q s :
  wp body (λ r s', match r with
                   | inl e => wp (handler e) Q s'
                   | inr a => Q (inr a) s'
                   end) s →
  wp (try_catch body handler) Q s.
Proof.
  unfold wp, try_catch. destruct (body s) as [[e|a] s']; cbn; auto.
Qed.

Lemma wp_mono {S A} (c : M S A) (Q Q' : Exn + A → S → Prop) s :
  (∀ r s', Q r s' → Q' r s') → wp c Q s → wp c Q' s.
Proof. unfold wp. auto. Qed.

(** A loop whose body keeps an invariant and does not throw keeps it
    and does not throw. *)
Lemma wp_for_each {S A} (xs : list A) (body : A → M S unit) (I : S → Prop) s :
  (∀ x s, I s → wp (body x) (λ r s', r = inr tt ∧ I s') s) →
  I s → wp (for_each xs body) (λ r s', r = inr tt ∧ I s') s.
Proof.
  intros Hbody. revert s. induction xs as [|x xs IH]; intros s Hs.
  - split; [reflexivity | exact Hs].
  - cbn [for_each]. apply wp_bind.
    eapply wp_mono; [|apply (Hbody x s Hs)].
    intros r s' [-> Hs']. apply IH, Hs'.
Qed.

Lemma wp_eval {S A} (c : M S A) (Q : Exn + A → S → Prop) s r s' :
  c s = (r, s') → Q r s' → wp c Q s.
Proof. unfold wp. intros ->. auto. Qed.

(** Runs a command of the execution path on a given state. *)
Ltac run_P :=
  repeat (progress (unfold saveThis, liftW, assign, this_job, saveOn, accepts,
                      save, delay,
                      scheduleRetry, calculateNextRetry, Date_now,
                      mapIngestionTypeToProcessingType,
                      mbind, M_bind, mret, M_ret, throw, gets, modify;
                    cbn -[lookup insert filter Z.add Z.pow Z.min Z.mul Z.ltb
                          Z.geb Z.eqb String.eqb map_to_list decimal or_else])).

(** One step of a sequence: run its first command, go on with the rest. *)
Ltac wp_run := eapply wp_eval; [run_P; reflexivity|]; cbn beta iota.
Ltac wp_run_using H :=
  eapply wp_eval; [run_P; rewrite H; run_P; reflexivity|]; cbn beta iota.
Ltac wp_next := apply wp_bind; wp_run.

(** ** The execution path *)

Ltac open_state s :=
  destruct s as [[i n d ty st pr em rc mr pa ind od ex sa ca nr cb]
                 [jt ni dt ck rn dr pe sv]].

Ltac open_state2 s :=
  destruct s as [[i2 n2 d2 ty2 st2 pr2 em2 rc2 mr2 pa2 ind2 od2 ex2 sa2 ca2 nr2 cb2]
                 [jt2 ni2 dt2 ck2 rn2 dr2 pe2 sv2]].

Lemma progress_step_running k j0 (step : Z) s :
  running k j0 s →
  wp (assign (set_progress (round_div ((step + 1) * 100) 10));;
      saveThis accepts;; liftW (delay 200))
     (λ r s', r = inr tt ∧ running k j0 s') s.
Proof.
  open_state s. intros (Hid & Hun & Hnr). cbn in Hid. subst i.
  wp_run. split; [reflexivity|].
  split; [reflexivity|]. split; [exact Hun | exact Hnr].
Qed.

Lemma mapIngestionTypeToProcessingType_total {S} t (s : S) :
  mapIngestionTypeToProcessingType t s = (inr (processingTypeOf t), s).
Proof. by destruct t. Qed.

Section Execution.

Variable processDocuments :
  Processing.ProcessingType → list DocumentInfo → Json → Exn + ProcessingResult.

Lemma or_else_nonempty (x : option string) (d : string) :
  d ≠ "" → or_else truthy_str x d ≠ "".
Proof.
  intros Hd. destruct x as [v|]; [|exact Hd]. unfold or_else, truthy_str.
  destruct (String.eqb_spec v ""); [exact Hd | assumption].
Qed.

Lemma processJob_start_spec job w :
  wp (processJob_start accepts)
     (λ r s', r = inr tt ∧ running (default (nextId w) (id job)) job s')
     (job, w).
Proof.
  unfold processJob_start.
  destruct job as [ji jn jd jty jst jpr jem jrc jmr jpa jind jod jex jsa jca jnr jcb];
  destruct w as [wjt wni wdt wck wrn wdr wpe wsv].
  do 3 wp_next. wp_run. by repeat split.
Qed.

Lemma processJob_rest_spec docs k j0 s :
  running k j0 s →
  wp (processJob_rest processDocuments accepts docs)
     (λ r s', match r with
              | inr _ => settled k j0 s'
                         ∧ verdict processDocuments j0 docs s'.1
                         ∧ ∃ result, invocation processDocuments j0 docs = inr result
              | inl e => running k j0 s'
                         ∧ invocation processDocuments j0 docs = inl e
              end) s.
Proof.
  intros Hrun1. unfold processJob_rest.
  assert (Hty : type s.1 = type j0) by apply Hrun1.
  destruct j0 as [ji jn jd jty jst jpr jem jrc jmr jpa jind jod jex jsa jca jnr jcb].
  set (j0 := Build_IngestionJob ji jn jd jty jst jpr jem jrc jmr jpa jind
               jod jex jsa jca jnr jcb) in *.
  wp_next. rewrite Hty. cbn [type j0].
  apply wp_bind.
  eapply wp_eval; [apply mapIngestionTypeToProcessingType_total|].
  cbn beta iota. apply wp_bind.
  eapply wp_mono;
    [|apply (wp_for_each _ _ (running k j0));
      [intros step s1 Hs; apply progress_step_running, Hs | exact Hrun1]].
  intros r s2 [-> Hrun2]. clear s Hrun1 Hty.
  wp_next.
  assert (Hpa : parameters s2.1 = jpa) by apply Hrun2. rewrite Hpa.
  change (processDocuments (processingTypeOf jty) (documentInfo <$> docs) jpa)
    with (invocation processDocuments j0 docs).
  unfold verdict.
  destruct (invocation processDocuments j0 docs) as [e|result] eqn:Hinv.
  { wp_run. split; [exact Hrun2 | reflexivity]. }
  open_state s2. destruct Hrun2 as (Hid & Hun & Hnr).
  unfold untouched, j0 in Hun. unfold j0 in Hnr. cbn in Hid, Hun, Hnr.
  destruct Hun as (-> & -> & -> & -> & -> & -> & -> & -> & ->).
  subst i nr. clear Hpa.
  apply wp_bind. destruct (res_success result) eqn:Hok.
  - do 4 wp_next. wp_run. wp_run.
    split; [|split; [split; reflexivity | eauto]].
    repeat split; cbn.
    + apply lookup_insert_eq.
    + apply last_snoc.
    + left. split; reflexivity.
  - do 4 wp_next. cbn [retryCount maxRetries j0].
    destruct (jrc <? jmr) eqn:Hlt.
    + wp_run_using Hlt. wp_run.
      split; [|split; [split; reflexivity | eauto]].
      repeat split; cbn.
      * apply lookup_insert_eq.
      * apply last_snoc.
      * right. split; [reflexivity|]. split; [|by rewrite Hlt].
        eexists. split; [reflexivity|]. by apply or_else_nonempty.
    + wp_run_using Hlt. wp_run.
      split; [|split; [split; reflexivity | eauto]].
      repeat split; cbn.
      * apply lookup_insert_eq.
      * apply last_snoc.
      * right. split; [reflexivity|]. split; [|by rewrite Hlt].
        eexists. split; [reflexivity|]. by apply or_else_nonempty.
Qed.

Lemma processJob_try_spec docs job w :
  wp (processJob_try processDocuments accepts docs)
     (λ r s', match r with
              | inr _ => settled (default (nextId w) (id job)) job s'
                         ∧ verdict processDocuments job docs s'.1
                         ∧ ∃ result, invocation processDocuments job docs = inr result
              | inl e => running (default (nextId w) (id job)) job s'
                         ∧ invocation processDocuments job docs = inl e
              end) (job, w).
Proof.
  unfold processJob_try. apply wp_bind.
  eapply wp_mono; [|apply processJob_start_spec].
  intros r s1 [-> Hrun1]. cbn beta iota.
  apply processJob_rest_spec, Hrun1.
Qed.

Lemma processJob_catch_spec e k j0 s :
  running k j0 s →
  wp (processJob_catch accepts e)
     (λ r s', r = inr tt ∧ settled k j0 s' ∧ status s'.1 = FAILED
              ∧ errorMessage s'.1 =
                  Some (or_else truthy_str (Some (message e)) "Processing failed"))
     s.
Proof.
  open_state s. intros (Hid & Hun & Hnr).
  unfold untouched in Hun. cbn in Hid, Hun, Hnr.
  destruct Hun as (Hn & Hd & Hty & Hrc & Hmr & Hpa & Hind & Hex & Hcb).
  subst i nr. unfold processJob_catch. do 4 wp_next.
  assert (Hsettled : ∀ s' : IngestionJob * World,
    id s'.1 = Some k → untouched j0 s'.1 →
    jobTable s'.2 !! k = Some s'.1 → last (saves s'.2) = Some s'.1 →
    completedAt s'.1 = Some (clock s'.2) → status s'.1 = FAILED →
    errorMessage s'.1 =
      Some (or_else truthy_str (Some (message e)) "Processing failed") →
    nextRetryAt s'.1 =
      (if retryCount j0 <? maxRetries j0
       then Some (clock s'.2 + Z.min (2 ^ retryCount j0) 60 * 60 * 1000)
       else nextRetryAt j0) →
    settled k j0 s' ∧ status s'.1 = FAILED
    ∧ errorMessage s'.1 =
        Some (or_else truthy_str (Some (message e)) "Processing failed")).
  { intros s' ? ? ? ? ? Hst Hem ?. split; [|by split].
    repeat (split; [assumption|]). right. split; [assumption|].
    split; [|assumption]. eexists. split; [exact Hem|].
    by apply or_else_nonempty. }
  destruct (rc <? mr) eqn:Hlt.
  - apply wp_bind. wp_run_using Hlt. wp_run. split; [reflexivity|].
    apply Hsettled; cbn; rewrite <- ?Hrc, <- ?Hmr, ?Hlt;
      first [reflexivity | by repeat split | apply lookup_insert_eq
            | apply last_snoc].
  - apply wp_bind. wp_run_using Hlt. wp_run. split; [reflexivity|].
    apply Hsettled; cbn; rewrite <- ?Hrc, <- ?Hmr, ?Hlt;
      first [reflexivity | by repeat split | apply lookup_insert_eq
            | apply last_snoc].
Qed.

(** The whole of [processJob]: it returns, the job object is settled
    and persisted, and its status follows the invocation. *)
Lemma processJob_settles job docs w :
  (processJob processDocuments accepts job docs w).1 = inr tt
  ∧ settled (default (nextId w) (id job)) job
      (processJob processDocuments accepts job docs w).2
  ∧ verdict processDocuments job docs (processJob processDocuments accepts job docs w).2.1.
Proof.
  unfold processJob.
  change (wp (try_catch (processJob_try processDocuments accepts docs) (processJob_catch accepts))
            (λ r s', r = inr tt
                     ∧ settled (default (nextId w) (id job)) job s'
                     ∧ verdict processDocuments job docs s'.1) (job, w)).
  apply wp_try_catch.
  eapply wp_mono; [|apply processJob_try_spec].
  intros [e|[]] s'; cbn beta iota.
  - intros [Hrun Hinv].
    eapply wp_mono; [|apply (processJob_catch_spec e), Hrun].
    intros r s'' (-> & Hset & Hst & Hem). split; [reflexivity|].
    split; [exact Hset|]. unfold verdict. rewrite Hinv. by split.
  - intros (Hset & Hver & _). split; [reflexivity | split; assumption].
Qed.

(** The same of an execution taken up after its first [await], for a
    job object that has its key. *)
Lemma processJob_resume_settles job docs w k :
  id job = Some k →
  (processJob_resume processDocuments accepts job docs w).1 = inr tt
  ∧ settled k job (processJob_resume processDocuments accepts job docs w).2
  ∧ verdict processDocuments job docs
      (processJob_resume processDocuments accepts job docs w).2.1.
Proof.
  intros Hid. unfold processJob_resume.
  change (wp (try_catch (processJob_rest processDocuments accepts docs)
                (processJob_catch accepts))
            (λ r s', r = inr tt ∧ settled k job s'
                     ∧ verdict processDocuments job docs s'.1) (job, w)).
  assert (Hrun0 : running k job (job, w)) by (by repeat split).
  apply wp_try_catch.
  eapply wp_mono; [|apply processJob_rest_spec, Hrun0].
  intros [e|[]] s'; cbn beta iota.
  - intros [Hrun Hinv].
    eapply wp_mono; [|apply (processJob_catch_spec e), Hrun].
    intros r s'' (-> & Hset & Hst & Hem). split; [reflexivity|].
    split; [exact Hset|]. unfold verdict. rewrite Hinv. by split.
  - intros (Hset & Hver & _). split; [reflexivity | split; assumption].
Qed.

End Execution.

(** On the store that accepts every save [processJob] always returns:
    nothing thrown on the execution path, the invoker's exceptions
    included, leaves it. When it has returned, the persisted job is the
    job object of the run, its status is COMPLETED or FAILED and never
    PROCESSING, and a FAILED job carries a non-empty errorMessage; an
    exception of the invoker and an unsuccessful result both end in
    FAILED. *)
Lemma processJob_on_accepting_store
    (processDocuments :
       Processing.ProcessingType → list DocumentInfo → Json → Exn + ProcessingResult)
    (job : IngestionJob) (docs : list Document) (w : World) :
  let run := processJob processDocuments accepts job docs w in
  let k := default (nextId w) (id job) in
  run.1 = inr tt
  ∧ (∃ j, jobTable run.2.2 !! k = Some j ∧ last (saves run.2.2) = Some j
        ∧ j = run.2.1
        ∧ status j ≠ PROCESSING
        ∧ (status j = COMPLETED
           ∨ status j = FAILED ∧ ∃ m, errorMessage j = Some m ∧ m ≠ ""))
  ∧ (∀ e, invocation processDocuments job docs = inl e →
       status run.2.1 = FAILED
       ∧ errorMessage run.2.1 =
           Some (or_else truthy_str (Some (message e)) "Processing failed"))
  ∧ (∀ result, invocation processDocuments job docs = inr result →
       res_success result = false →
       status run.2.1 = FAILED
       ∧ errorMessage run.2.1 =
           Some (or_else truthy_str (res_error result) "Processing failed")).
Proof.
  intros run k.
  destruct (processJob_settles processDocuments job docs w)
    as (Hret & Hset & Hver).
  fold run in Hret, Hset, Hver. fold k in Hset.
  destruct Hset as (_ & _ & Htab & Hlast & _ & Hend).
  split; [exact Hret|]. split; [|split].
  - exists run.2.1. repeat (split; [done|]).
    destruct Hend as [[Hst _]|(Hst & Hem & _)].
    + split; [congruence | by left].
    + split; [congruence | by right].
  - intros e He. unfold verdict in Hver. by rewrite He in Hver.
  - intros result Hres Hok. unfold verdict in Hver.
    by rewrite Hres, Hok in Hver.
Qed.

(** ** The execution path on a store that can reject *)

Lemma wp_any {S A} (c : M S A) s : wp c (λ _ _, True) s.
Proof. exact I. Qed.


Section ExecutionOnAnyStore.

Variable rejects : World → IngestionJob → option Exn.
Variable processDocuments :
  Processing.ProcessingType → list DocumentInfo → Json → Exn + ProcessingResult.







End ExecutionOnAnyStore.



(** ** Trigger *)

Lemma validateDocuments_world ids userId w :
  (validateDocuments ids userId w).2 = w.
Proof.
  unfold validateDocuments, findDocuments, gets, mbind, M_bind. cbn.
  repeat match goal with
         | |- context [if ?b then _ else _] => destruct b
         end; reflexivity.
Qed.

Section Trigger.

Variable toISOString : Time → string.

Lemma triggerIngestion_run dto userId w docs :
  (validateDocuments (dto_documentIds dto) userId w).1 = inr docs →
  triggerIngestion toISOString dto userId w =
    (inr (started (clock w) (secondSaved toISOString dto userId docs w)),
     {| jobTable :=
          <[nextId w := started (clock w) (secondSaved toISOString dto userId docs w)]>
            (<[nextId w := secondSaved toISOString dto userId docs w]>
               (<[nextId w := firstSaved toISOString dto userId docs w]> (jobTable w)));
        nextId := nextId w + 1;
        documentTable := documentTable w;
        clock := clock w;
        random := random w;
        draws := S (draws w);
        pending := pending w
                   ++ [(started (clock w) (secondSaved toISOString dto userId docs w),
                        docs)];
        saves := ((saves w ++ [firstSaved toISOString dto userId docs w])
                  ++ [secondSaved toISOString dto userId docs w])
                 ++ [started (clock w) (secondSaved toISOString dto userId docs w)] |}).
Proof.
  intros Hval. unfold triggerIngestion.
  unfold mbind at 1. unfold M_bind at 1.
  pose proof (validateDocuments_world (dto_documentIds dto) userId w) as Hw.
  destruct (validateDocuments (dto_documentIds dto) userId w) as [r w0].
  cbn in Hval, Hw. subst r w0.
  destruct w as [jt ni dt ck rn dr pe sv].
  unfold randomSuffix, schedule, processJob_start, saveThis, liftW, assign,
    this_job, saveOn, accepts, Date_now, save.
  run_M.
  match goal with
  | |- findOne _ _ ?w' = (inr ?j, _) => rewrite (findOne_found ni userId w' j)
  end; [reflexivity | apply lookup_insert_eq | reflexivity].
Qed.

Lemma triggerIngestion_rejected dto userId w e :
  (validateDocuments (dto_documentIds dto) userId w).1 = inl e →
  triggerIngestion toISOString dto userId w = (inl e, w).
Proof.
  intros Hval. unfold triggerIngestion.
  unfold mbind at 1. unfold M_bind at 1.
  pose proof (validateDocuments_world (dto_documentIds dto) userId w) as Hw.
  destruct (validateDocuments (dto_documentIds dto) userId w) as [r w0].
  cbn in Hval, Hw. by subst r w0.
Qed.

End Trigger.

Lemma triggerIngestion_accepted_inv toISOString dto userId w r w' :
  triggerIngestion toISOString dto userId w = (inr r, w') →
  ∃ docs, (validateDocuments (dto_documentIds dto) userId w).1 = inr docs.
Proof.
  intros Hrun.
  destruct (validateDocuments (dto_documentIds dto) userId w).1
    as [e|docs] eqn:Hval; [|by exists docs].
  rewrite (triggerIngestion_rejected _ _ _ _ _ Hval) in Hrun. discriminate.
Qed.

(** The retry budget of a created job: the request's [maxRetries] unless
    it is absent or falsy, and 3 then. *)
Lemma triggerIngestion_maxRetries toISOString dto userId w r w' :
  triggerIngestion toISOString dto userId w = (inr r, w') →
  maxRetries r = or_else truthy_num (dto_maxRetries dto) 3.
Proof.
  intros Hrun.
  destruct (triggerIngestion_accepted_inv _ _ _ _ _ _ Hrun) as [docs Hval].
  rewrite (triggerIngestion_run _ _ _ _ _ Hval) in Hrun.
  injection Hrun as <- _. reflexivity.
Qed.

Lemma triggerIngestion_maxRetries_supplied toISOString dto userId w r w' v :
  triggerIngestion toISOString dto userId w = (inr r, w') →
  dto_maxRetries dto = Some v → v ≠ 0 → maxRetries r = v.
Proof.
  intros Hrun Hv Hne. rewrite (triggerIngestion_maxRetries _ _ _ _ _ _ Hrun), Hv.
  unfold or_else, truthy_num. apply Z.eqb_neq in Hne. by rewrite Hne.
Qed.

Lemma triggerIngestion_maxRetries_omitted toISOString dto userId w r w' :
  triggerIngestion toISOString dto userId w = (inr r, w') →
  dto_maxRetries dto = None → maxRetries r = 3.
Proof.
  intros Hrun Hv. by rewrite (triggerIngestion_maxRetries _ _ _ _ _ _ Hrun), Hv.
Qed.

(** C4, at [maxRetries = 0]. A trigger whose request supplies
    [maxRetries = 0] creates and persists a job whose [maxRetries] is 3,
    not 0: the supplied value is replaced by the default. *)
Theorem triggerIngestion_zero_maxRetries :
  ∃ job w',
    triggerIngestion Sample.toISOString (Sample.triggerDto (Some 0)) 1
      Sample.emptyWorld = (inr job, w')
    ∧ jobTable w' !! 1 = Some job
    ∧ maxRetries job = 3.
Proof.
  set (run := triggerIngestion Sample.toISOString (Sample.triggerDto (Some 0)) 1
                Sample.emptyWorld).
  exists (started (clock Sample.emptyWorld)
            (secondSaved Sample.toISOString (Sample.triggerDto (Some 0)) 1
               [Sample.mockDocument] Sample.emptyWorld)), run.2.
  split; [|split].
  - apply (triggerIngestion_run Sample.toISOString). reflexivity.
  - unfold run. erewrite triggerIngestion_run by reflexivity. cbn [snd jobTable].
    apply lookup_insert_eq.
  - reflexivity.
Qed.

(** ** The first failure of a triggered job *)

Lemma runPending_head pd w job docs rest :
  pending w = (job, docs) :: rest →
  runPending pd w
  = (inr tt, (processJob_resume pd accepts job docs (set_pending rest w)).2.2).
Proof.
  intros Hp. unfold runPending. rewrite Hp.
  by destruct (processJob_resume pd accepts job docs (set_pending rest w))
    as [? [? ?]].
Qed.

Lemma verdict_fails pd job docs j' :
  fails (invocation pd job docs) → verdict pd job docs j' → status j' = FAILED.
Proof.
  unfold fails, verdict. destruct (invocation pd job docs) as [e|result].
  - by intros _ [? _].
  - intros ->. by intros [? _].
Qed.




(** ** The webhook *)

Lemma rowsByExternalJobId_elem e t job :
  job ∈ rowsByExternalJobId e t ↔
  ∃ k j, t !! k = Some j ∧ externalJobId j = Some e ∧ job = row k j.
Proof.
  unfold rowsByExternalJobId. rewrite list_elem_of_filter, list_elem_of_fmap.
  split.
  - intros (Hext & [k j] & -> & Hin). apply elem_of_map_to_list in Hin.
    exists k, j. cbn in *. by destruct j.
  - intros (k & j & Hk & Hext & ->). split; [by destruct j|].
    exists (k, j). split; [reflexivity | by apply elem_of_map_to_list].
Qed.

Lemma findOneByExternalJobId_found e w job :
  findOneByExternalJobId e w = (inr (Some job), w) →
  ∃ k j, jobTable w !! k = Some j ∧ externalJobId j = Some e ∧ job = row k j.
Proof.
  unfold findOneByExternalJobId, gets. intros [= Hhead].
  apply rowsByExternalJobId_elem, head_Some_elem_of, Hhead.
Qed.

Lemma findOneByExternalJobId_unknown e w :
  (∀ k j, jobTable w !! k = Some j → externalJobId j ≠ Some e) →
  findOneByExternalJobId e w = (inr None, w).
Proof.
  intros Hno. unfold findOneByExternalJobId, gets. f_equal. f_equal.
  destruct (head _) as [job|] eqn:Hhead; [|reflexivity].
  apply head_Some_elem_of, rowsByExternalJobId_elem in Hhead
    as (k & j & Hk & Hext & _).
  by destruct (Hno k j Hk).
Qed.

(** C8. [updateJobStatus] called with an external id that no job carries
    returns without an error and leaves the world as it was: no job is
    created, none is changed, nothing is saved. *)
Theorem updateJobStatus_unknown_ignored e u w :
  (∀ k j, jobTable w !! k = Some j → externalJobId j ≠ Some e) →
  updateJobStatus e u w = (inr tt, w)
  ∧ jobTable (updateJobStatus e u w).2 = jobTable w
  ∧ saves (updateJobStatus e u w).2 = saves w.
Proof.
  intros Hno.
  assert (Hrun : updateJobStatus e u w = (inr tt, w)).
  { unfold updateJobStatus, mbind, M_bind.
    by rewrite (findOneByExternalJobId_unknown _ _ Hno). }
  by rewrite Hrun.
Qed.

Lemma updateJobStatus_unknown_ignored_witness :
  updateJobStatus "nonexistent_job" 
    {| upd_status := "processing"; upd_progress := None; upd_error := None;
       upd_output := None |}
    (Sample.worldWith Sample.mockIngestionJob)
  = (inr tt, Sample.worldWith Sample.mockIngestionJob).
Proof.
  apply (updateJobStatus_unknown_ignored "nonexistent_job").
  intros k j Hk. cbn in Hk.
  apply lookup_singleton_Some in Hk as [_ <-]. discriminate.
Defined.

(** What a webhook update makes of the job it finds, column by column;
    [now] is the time of the call. *)
Lemma updateJobStatus_found e u w job k :
  findOneByExternalJobId e w = (inr (Some job), w) → id job = Some k →
  ∃ j',
    updateJobStatus e u w =
      (inr tt, set_saves (saves w ++ [j'])
                 (set_jobTable (<[k := j']> (jobTable w)) w))
    ∧ id j' = Some k
    ∧ status j' = mapExternalStatus (upd_status u)
    ∧ progress j' =
        (if String.eqb (upd_status u) "completed" then 100
         else or_else truthy_num (upd_progress u) (progress job))
    ∧ errorMessage j' =
        (if String.eqb (upd_status u) "failed"
         then Some (or_else truthy_str (upd_error u) "Processing failed")
         else or_keep truthy_str (upd_error u) (errorMessage job))
    ∧ outputData j' = or_keep truthy_json (upd_output u) (outputData job)
    ∧ startedAt j' =
        (if String.eqb (upd_status u) "processing"
         then Some (default (clock w) (startedAt job))
         else startedAt job)
    ∧ completedAt j' =
        (if String.eqb (upd_status u) "completed" then Some (clock w)
         else completedAt job)
    ∧ nextRetryAt j' =
        (if String.eqb (upd_status u) "failed"
            && (retryCount job <? maxRetries job)
         then Some (clock w + Z.min (2 ^ retryCount job) 60 * 60 * 1000)
         else nextRetryAt job)
    ∧ untouched job j'.
Proof.
  intros Hfind Hid. unfold updateJobStatus.
  unfold mbind at 1. unfold M_bind at 1. rewrite Hfind.
  destruct job as [i n d ty st pr em rc mr pa ind od ex sa ca nr cb].
  destruct w as [jt ni dt ck rn dr pe sv]. cbn in Hid. subst i.
  unfold calculateNextRetry, Date_now, save.
  destruct (String.eqb (upd_status u) "processing") eqn:Hp;
    destruct (String.eqb (upd_status u) "completed") eqn:Hc;
    destruct (String.eqb (upd_status u) "failed") eqn:Hf;
    destruct (rc <? mr) eqn:Hlt; destruct sa as [t|];
    run_M; rewrite ?Hlt; run_M;
    (eexists; split; [reflexivity|]); cbn; rewrite ?Hlt;
    repeat split.
Qed.

Lemma updateJobStatus_persists e u w job :
  findOneByExternalJobId e w = (inr (Some job), w) →
  ∃ k j', id job = Some k
    ∧ (updateJobStatus e u w).1 = inr tt
    ∧ jobTable (updateJobStatus e u w).2 !! k = Some j'
    ∧ updateJobStatus e u w =
        (inr tt, set_saves (saves w ++ [j'])
                   (set_jobTable (<[k := j']> (jobTable w)) w)).
Proof.
  intros Hfind.
  destruct (findOneByExternalJobId_found _ _ _ Hfind) as (k & j & _ & _ & ->).
  destruct (updateJobStatus_found e u w (row k j) k Hfind) as (j' & Hrun & _);
    [by destruct j|].
  exists k, j'. split; [by destruct j|]. rewrite Hrun.
  split; [reflexivity|]. split; [|reflexivity].
  destruct w. cbn. apply lookup_insert_eq.
Qed.

Lemma mapExternalStatus_unrecognized token :
  token ∉ ["pending"; "processing"; "completed"; "failed"]%string →
  mapExternalStatus token
  = if bool_decide (token ∈ Object_prototype_keys) then inherited token
    else FAILED.
Proof.
  intros Hnot. unfold mapExternalStatus.
  repeat match goal with
         | |- context [String.eqb token ?s] =>
             destruct (String.eqb_spec token s) as [->|_]
         end; try reflexivity; exfalso; apply Hnot; set_solver.
Qed.

Lemma mapExternalStatus_inherited token :
  token ∈ Object_prototype_keys → mapExternalStatus token = inherited token.
Proof.
  unfold Object_prototype_keys. rewrite !elem_of_cons, elem_of_nil.
  intros H. repeat (destruct H as [->|H]; [reflexivity|]). destruct H.
Qed.

(** The status a webhook update leaves on the job it finds is what its
    token maps to, whatever the job's status was: "pending",
    "processing", "completed" and "failed" give PENDING, PROCESSING,
    COMPLETED and FAILED; a token that names a member of
    [Object.prototype] gives that member; every other token gives
    FAILED. No current status, terminal or not, stands in the way. *)
Lemma updateJobStatus_status_unconditional e u w job :
  findOneByExternalJobId e w = (inr (Some job), w) →
  ∃ k j', id job = Some k
    ∧ (updateJobStatus e u w).1 = inr tt
    ∧ jobTable (updateJobStatus e u w).2 !! k = Some j'
    ∧ status j' = mapExternalStatus (upd_status u)
    ∧ (upd_status u = "pending"%string → status j' = PENDING)
    ∧ (upd_status u = "processing"%string → status j' = PROCESSING)
    ∧ (upd_status u = "completed"%string → status j' = COMPLETED)
    ∧ (upd_status u = "failed"%string → status j' = FAILED)
    ∧ (upd_status u ∈ Object_prototype_keys →
       status j' = inherited (upd_status u))
    ∧ (upd_status u ∉ ["pending"; "processing"; "completed"; "failed"]%string →
       upd_status u ∉ Object_prototype_keys →
       status j' = FAILED).
Proof.
  intros Hfind.
  destruct (updateJobStatus_persists e u w job Hfind)
    as (k & j' & Hid & Hret & Htab & Hrun).
  destruct (updateJobStatus_found e u w job k Hfind Hid)
    as (j'' & Hrun' & _ & Hst & _).
  assert (j'' = j') as ->.
  { rewrite Hrun in Hrun'. injection Hrun' as Hw.
    apply (f_equal saves) in Hw. destruct w; cbn in Hw.
    by apply app_inj_tail in Hw as [_ ->]. }
  exists k, j'. do 3 (split; [assumption|]). split; [exact Hst|].
  rewrite Hst.
  repeat split; try (intros ->; reflexivity).
  - apply mapExternalStatus_inherited.
  - intros Hnot Hproto. rewrite (mapExternalStatus_unrecognized _ Hnot).
    by rewrite bool_decide_eq_false_2.
Qed.

(** A COMPLETED job is moved back to PENDING by a webhook delivery. *)
Lemma updateJobStatus_moves_back :
  status Sample.completedJob = COMPLETED
  ∧ ∃ j', jobTable
            (updateJobStatus "ext_job_123"
               {| upd_status := "pending"; upd_progress := None;
                  upd_error := None; upd_output := None |}
               (Sample.worldWith Sample.completedJob)).2 !! 1 = Some j'
          ∧ status j' = PENDING.
Proof.
  split; [reflexivity|].
  destruct (updateJobStatus_status_unconditional "ext_job_123"
              {| upd_status := "pending"; upd_progress := None;
                 upd_error := None; upd_output := None |}
              (Sample.worldWith Sample.completedJob) Sample.completedJob eq_refl)
    as (k & j' & Hid & _ & Htab & _ & Hpending & _).
  injection Hid as <-. exists j'. split; [exact Htab | by apply Hpending].
Qed.

(** C10, at the token "constructor". The token is none of the four the
    status map lists, so the claim has the job end FAILED. The lookup
    [statusMap["constructor"]] finds the constructor the map inherits
    from [Object.prototype], which is truthy, so [|| FAILED] does not
    apply: the webhook leaves on the job, and saves, a status that is
    that function and not FAILED, nor any value of the enum. *)
Theorem updateJobStatus_unrecognized_not_failed :
  let u := {| upd_status := "constructor"; upd_progress := None;
              upd_error := None; upd_output := None |} in
  let run := updateJobStatus "ext_job_123" u
               (Sample.worldWith Sample.halfwayJob) in
  (upd_status u ∉ ["pending"; "processing"; "completed"; "failed"]%string)
  ∧ run.1 = inr tt
  ∧ ∃ j', jobTable run.2 !! 1 = Some j'
          ∧ last (saves run.2) = Some j'
          ∧ status j' = inherited "constructor"
          ∧ status j' ≠ FAILED
          ∧ (∀ s : IngestionStatus, status j' ≠ s).
Proof.
  intros u run. split.
  { rewrite !elem_of_cons, elem_of_nil. cbn.
    intros H. by repeat destruct H as [H|H]. }
  split; [reflexivity|].
  exists (default Sample.halfwayJob (jobTable run.2 !! 1)).
  split; [vm_compute; reflexivity|]. split; [vm_compute; reflexivity|].
  split; [vm_compute; reflexivity|].
  split; [vm_compute; discriminate|].
  intros s. vm_compute. discriminate.
Qed.

(** C9 as the specification words it fails. On a job with a recorded
    error, a "failed" update without an error does not keep the job's
    errorMessage; a "completed" update that reports progress 50 leaves
    progress 100; and an update that reports progress 0 leaves the job's
    progress as it was. *)
Lemma updateJobStatus_fields_not_always_applied :
  let failed_silent := {| upd_status := "failed"; upd_progress := None;
                          upd_error := None; upd_output := None |} in
  let completed_half := {| upd_status := "completed"; upd_progress := Some 50;
                           upd_error := None; upd_output := None |} in
  let processing_zero := {| upd_status := "processing"; upd_progress := Some 0;
                            upd_error := None; upd_output := None |} in
  let stored u job :=
    jobTable (updateJobStatus "ext_job_123" u (Sample.worldWith job)).2 !! 1 in
  (errorMessage Sample.failedJob = Some "Processing error"%string
   ∧ errorMessage <$> stored failed_silent Sample.failedJob
     = Some (Some "Processing failed"%string))
  ∧ progress <$> stored completed_half Sample.mockIngestionJob = Some 100
  ∧ (progress Sample.halfwayJob = 40
     ∧ progress <$> stored processing_zero Sample.halfwayJob = Some 40).
Proof. vm_compute. repeat split. Qed.

(** C9, as the code has it. A webhook update on the job it finds applies
    a progress that is present and not zero, and keeps the job's progress
    when none is given, unless the token is "completed", which sets 100;
    it applies an error that is present and not empty, and keeps the
    job's errorMessage when none is given, unless the token is "failed",
    which then sets "Processing failed"; it applies an output that is
    present and truthy, as every object is, and keeps the job's
    outputData when none is given. *)
Theorem updateJobStatus_applies_fields e u w job :
  findOneByExternalJobId e w = (inr (Some job), w) →
  ∃ k j', id job = Some k
    ∧ (updateJobStatus e u w).1 = inr tt
    ∧ jobTable (updateJobStatus e u w).2 !! k = Some j'
    ∧ (upd_status u ≠ "completed"%string →
       ∀ p, upd_progress u = Some p → p ≠ 0 → progress j' = p)
    ∧ (upd_status u ≠ "completed"%string →
       upd_progress u = None → progress j' = progress job)
    ∧ (upd_status u = "completed"%string → progress j' = 100)
    ∧ (∀ m, upd_error u = Some m → m ≠ ""%string → errorMessage j' = Some m)
    ∧ (upd_status u ≠ "failed"%string →
       upd_error u = None → errorMessage j' = errorMessage job)
    ∧ (upd_status u = "failed"%string →
       upd_error u = None → errorMessage j' = Some "Processing failed"%string)
    ∧ (∀ o, upd_output u = Some o → truthy_json o = true →
       outputData j' = Some o)
    ∧ (∀ l, upd_output u = Some (JObj l) → outputData j' = Some (JObj l))
    ∧ (upd_output u = None → outputData j' = outputData job).
Proof.
  intros Hfind.
  destruct (updateJobStatus_persists e u w job Hfind)
    as (k & j' & Hid & Hret & Htab & Hrun).
  destruct (updateJobStatus_found e u w job k Hfind Hid)
    as (j'' & Hrun' & _ & _ & Hpr & Hem & Hod & _).
  assert (j'' = j') as ->.
  { rewrite Hrun in Hrun'. injection Hrun' as Hw.
    apply (f_equal saves) in Hw. destruct w; cbn in Hw.
    by apply app_inj_tail in Hw as [_ ->]. }
  exists k, j'. do 3 (split; [assumption|]).
  rewrite Hpr, Hem, Hod. clear Hpr Hem Hod.
  repeat split.
  - intros Hc p -> Hp. apply String.eqb_neq in Hc. rewrite Hc.
    unfold or_else, truthy_num. apply Z.eqb_neq in Hp. by rewrite Hp.
  - intros Hc ->. apply String.eqb_neq in Hc. by rewrite Hc.
  - intros ->. reflexivity.
  - intros m -> Hm. apply String.eqb_neq in Hm.
    unfold or_else, or_keep, truthy_str. rewrite Hm.
    by destruct (String.eqb (upd_status u) "failed").
  - intros Hf ->. apply String.eqb_neq in Hf. by rewrite Hf.
  - intros -> ->. reflexivity.
  - intros o -> Ho. unfold or_keep. by rewrite Ho.
  - intros l ->. reflexivity.
  - intros ->. reflexivity.
Qed.

(** The update of the unit test: "processing" with progress 50. *)
Lemma updateJobStatus_applies_fields_witness :
  ∃ j', jobTable
          (updateJobStatus "ext_job_123"
             {| upd_status := "processing"; upd_progress := Some 50;
                upd_error := None; upd_output := None |}
             (Sample.worldWith Sample.mockIngestionJob)).2 !! 1 = Some j'
        ∧ progress j' = 50
        ∧ errorMessage j' = errorMessage Sample.mockIngestionJob
        ∧ outputData j' = outputData Sample.mockIngestionJob.
Proof.
  destruct (updateJobStatus_applies_fields "ext_job_123"
              {| upd_status := "processing"; upd_progress := Some 50;
                 upd_error := None; upd_output := None |}
              (Sample.worldWith Sample.mockIngestionJob)
              Sample.mockIngestionJob eq_refl)
    as (k & j' & Hid & _ & Htab & Hp & _ & _ & _ & Hem & _ & _ & _ & Hod).
  injection Hid as <-. exists j'. split; [exact Htab|].
  split; [by apply Hp|]. split; [by apply Hem | by apply Hod].
Defined.

(** ** What an execution leaves alone *)

Ltac framed_done :=
  match goal with
  | Hrows : ∀ k', k' ≠ _ → _ !! k' = _ |- _ =>
      repeat split; cbn; try assumption;
      intros k' Hk'; rewrite lookup_insert_ne by congruence; apply Hrows, Hk'
  end.

Lemma progress_step_framed k w0 (step : Z) s :
  framed k w0 s →
  wp (assign (set_progress (round_div ((step + 1) * 100) 10));;
      saveThis accepts;; liftW (delay 200))
     (λ r s', r = inr tt ∧ framed k w0 s') s.
Proof.
  open_state s. intros (Hid & Hrows & Hpend & Hnext). cbn in Hid, Hrows, Hpend, Hnext.
  subst i. wp_run. split; [reflexivity|]. framed_done.
Qed.

Section ExecutionFrame.

Variable processDocuments :
  Processing.ProcessingType → list DocumentInfo → Json → Exn + ProcessingResult.

Lemma processJob_catch_framed e k w0 s :
  framed k w0 s → wp (processJob_catch accepts e) (λ _ s', framed k w0 s') s.
Proof.
  open_state s. intros (Hid & Hrows & Hpend & Hnext).
  cbn in Hid, Hrows, Hpend, Hnext. subst i.
  unfold processJob_catch. do 4 wp_next. apply wp_bind.
  destruct (rc <? mr) eqn:Hlt; wp_run_using Hlt; wp_run; framed_done.
Qed.

Lemma processJob_start_framed k w0 s :
  framed k w0 s →
  wp (processJob_start accepts) (λ r s', r = inr tt ∧ framed k w0 s') s.
Proof.
  unfold processJob_start. open_state s. intros (Hid & Hrows & Hpend & Hnext).
  cbn in Hid, Hrows, Hpend, Hnext. subst i.
  do 3 wp_next. wp_run. split; [reflexivity|]. framed_done.
Qed.

Lemma processJob_rest_framed docs k w0 s :
  framed k w0 s →
  wp (processJob_rest processDocuments accepts docs) (λ _ s', framed k w0 s') s.
Proof.
  unfold processJob_rest. intros Hfr1.
  wp_next. apply wp_bind.
  eapply wp_eval; [apply mapIngestionTypeToProcessingType_total|].
  cbn beta iota. apply wp_bind.
  eapply wp_mono;
    [|apply (wp_for_each _ _ (framed k w0));
      [intros step s1 Hs; apply progress_step_framed, Hs | exact Hfr1]].
  intros r s2 [-> Hfr2]. clear Hfr1.
  wp_next.
  destruct (processDocuments _ _ _) as [e|result].
  { wp_run. exact Hfr2. }
  open_state2 s2. destruct Hfr2 as (Hid & Hrows & Hpend & Hnext).
  cbn in Hid, Hrows, Hpend, Hnext. subst i2.
  apply wp_bind. destruct (res_success result).
  - do 4 wp_next. wp_run. wp_run. framed_done.
  - do 4 wp_next.
    match goal with
    | |- wp scheduleRetry _ (?j, _) =>
        destruct (retryCount j <? maxRetries j) eqn:Hlt
    end; cbn in Hlt; wp_run_using Hlt; wp_run; framed_done.
Qed.

Lemma processJob_try_framed docs k w0 s :
  framed k w0 s →
  wp (processJob_try processDocuments accepts docs) (λ _ s', framed k w0 s') s.
Proof.
  intros Hfr. unfold processJob_try. apply wp_bind.
  eapply wp_mono; [|apply processJob_start_framed, Hfr].
  intros r s1 [-> Hfr1]. cbn beta iota.
  apply processJob_rest_framed, Hfr1.
Qed.

(** The run of a job that has its key touches that row only. *)
Lemma processJob_framed job docs w k :
  id job = Some k →
  framed k w (processJob processDocuments accepts job docs w).2.
Proof.
  intros Hid. unfold processJob.
  change (wp (try_catch (processJob_try processDocuments accepts docs) (processJob_catch accepts))
            (λ _ s', framed k w s') (job, w)).
  assert (Hfr : framed k w (job, w)) by (by repeat split).
  apply wp_try_catch.
  eapply wp_mono; [|apply processJob_try_framed, Hfr].
  intros [e|[]] s' Hs'; cbn beta iota; [|exact Hs'].
  apply processJob_catch_framed, Hs'.
Qed.

(** And so does an execution taken up after its first [await]. *)
Lemma processJob_resume_framed job docs w k :
  id job = Some k →
  framed k w (processJob_resume processDocuments accepts job docs w).2.
Proof.
  intros Hid. unfold processJob_resume.
  change (wp (try_catch (processJob_rest processDocuments accepts docs)
                (processJob_catch accepts))
            (λ _ s', framed k w s') (job, w)).
  assert (Hfr : framed k w (job, w)) by (by repeat split).
  apply wp_try_catch.
  eapply wp_mono; [|apply processJob_rest_framed, Hfr].
  intros [e|[]] s' Hs'; cbn beta iota; [|exact Hs'].
  apply processJob_catch_framed, Hs'.
Qed.

End ExecutionFrame.

(** ** The external job id *)

Lemma externalJobIdOf_nonempty now suffix : externalJobIdOf now suffix ≠ "".
Proof. discriminate. Qed.

Lemma no_underscore_uint d : no_underscore (NilEmpty.string_of_uint d).
Proof. induction d; cbn; (split; [discriminate | assumption]) || exact I. Qed.

Lemma no_underscore_decimal n : no_underscore (decimal n).
Proof.
  unfold decimal, NilZero.string_of_uint.
  destruct (N.to_uint (Z.to_N n)) eqn:Hd; try (rewrite <- Hd; apply no_underscore_uint).
  cbn. split; [discriminate | exact I].
Qed.

Lemma decimal_inj a b : 0 ≤ a → 0 ≤ b → decimal a = decimal b → a = b.
Proof.
  intros Ha Hb Heq. unfold decimal in Heq.
  assert (Hread : ∀ d, N.of_uint <$> NilZero.uint_of_string (NilZero.string_of_uint d)
                       = Some (N.of_uint d)).
  { intros d. destruct d; try (rewrite NilZero.usu by discriminate); reflexivity. }
  apply (f_equal (λ s, N.of_uint <$> NilZero.uint_of_string s)) in Heq.
  rewrite !Hread in Heq. injection Heq as Heq.
  rewrite !DecimalN.Unsigned.of_to in Heq. lia.
Qed.

(** Two strings without underscore that are followed by an underscore
    end at the same place. *)
Lemma underscore_split a b s1 s2 :
  no_underscore a → no_underscore b →
  a +:+ "_" +:+ s1 = b +:+ "_" +:+ s2 → a = b ∧ s1 = s2.
Proof.
  revert b. induction a as [|c a IH]; intros [|c' b] Ha Hb Heq;
    cbn [String.append no_underscore] in *.
  - injection Heq as Heq. by split.
  - injection Heq as Hc _. destruct Hb as [Hb _]. by destruct Hb.
  - injection Heq as Hc _. destruct Ha as [Ha _]. by destruct Ha.
  - injection Heq as Hc Heq. destruct Ha as [_ Ha], Hb as [_ Hb].
    destruct (IH b Ha Hb Heq) as [Hab Hs]. by subst.
Qed.

(** The id tells the time and the suffix it was made of. *)
Lemma externalJobIdOf_inj t1 s1 t2 s2 :
  0 ≤ t1 → 0 ≤ t2 →
  externalJobIdOf t1 s1 = externalJobIdOf t2 s2 → t1 = t2 ∧ s1 = s2.
Proof.
  intros H1 H2 Heq. unfold externalJobIdOf in Heq. cbn in Heq.
  injection Heq as Heq.
  apply underscore_split in Heq as [Hd ->]; try apply no_underscore_decimal.
  split; [by apply decimal_inj | reflexivity].
Qed.

(** ** The external id over the life of the service *)

Lemma keeps_external_ids_refl w : keeps_external_ids w w.
Proof. intros k j Hk. by exists j. Qed.

Lemma keeps_external_ids_trans w1 w2 w3 :
  keeps_external_ids w1 w2 → keeps_external_ids w2 w3 → keeps_external_ids w1 w3.
Proof.
  intros H12 H23 k j Hk. destruct (H12 k j Hk) as (j2 & Hk2 & He2).
  destruct (H23 k j2 Hk2) as (j3 & Hk3 & He3). exists j3. split; congruence.
Qed.

(** Rewriting one row without touching its external id. *)
Lemma sync_row_update w w' k j j' :
  in_sync w → jobTable w !! k = Some j → jobTable w' !! k = Some j' →
  (∀ k', k' ≠ k → jobTable w' !! k' = jobTable w !! k') →
  externalJobId j' = externalJobId j → nextId w' = nextId w →
  (∀ job docs, (job, docs) ∈ pending w' →
     (job, docs) ∈ pending w
     ∨ id job = Some k ∧ externalJobId job = externalJobId j') →
  in_sync w' ∧ keeps_external_ids w w'.
Proof.
  intros [Hkeys Hpend] Hk Hk' Hrows Hext Hnext Hpend'.
  assert (Hkeep : keeps_external_ids w w').
  { intros k0 j0 Hk0. destruct (decide (k0 = k)) as [->|Hne].
    - exists j'. split; [exact Hk' | congruence].
    - exists j0. by rewrite Hrows. }
  split; [split | exact Hkeep].
  - intros k0 Hge. rewrite Hnext in Hge. destruct (decide (k0 = k)) as [->|Hne].
    + rewrite (Hkeys k Hge) in Hk. discriminate.
    + rewrite Hrows by exact Hne. by apply Hkeys.
  - intros job docs Hin. destruct (Hpend' job docs Hin) as [Hold|[Hid He]].
    + destruct (Hpend job docs Hold) as (k0 & j0 & Hid0 & Hk0 & He0).
      destruct (Hkeep k0 j0 Hk0) as (j1 & Hk1 & He1).
      exists k0, j1. split; [exact Hid0|]. split; [exact Hk1 | congruence].
    + exists k, j'. split; [exact Hid|]. by split.
Qed.

Lemma sync_same w : in_sync w → in_sync w ∧ keeps_external_ids w w.
Proof. intros Hs. split; [exact Hs | apply keeps_external_ids_refl]. Qed.

Lemma retryJob_sync k userId w :
  in_sync w →
  in_sync (retryJob k userId w).2 ∧ keeps_external_ids w (retryJob k userId w).2.
Proof.
  intros Hs. destruct (jobTable w !! k) as [job|] eqn:Hk.
  - destruct (decide (createdById job = userId)) as [Ho|Ho].
    + rewrite (retryJob_found _ _ _ _ Hk Ho).
      destruct (negb _); [by apply sync_same|].
      destruct (_ >=? _); [by apply sync_same|]. cbn [snd].
      apply (sync_row_update w _ k job
               (started (clock w) (retried (row k job))) Hs Hk).
      * destruct w; cbn. apply lookup_insert_eq.
      * intros k' Hk'. destruct w; cbn. by rewrite !lookup_insert_ne.
      * by destruct job.
      * by destruct w.
      * intros j docs Hin. destruct w; cbn in Hin.
        apply elem_of_app in Hin as [Hin|Hin]; [by left|].
        apply list_elem_of_singleton in Hin as [= -> _]. right. by destruct job.
    + unfold retryJob, mbind, M_bind. rewrite (findOne_denied _ _ _ _ Hk Ho).
      by apply sync_same.
  - unfold retryJob, mbind, M_bind. rewrite (findOne_missing _ _ _ Hk).
    by apply sync_same.
Qed.

Lemma updateJobStatus_sync e u w :
  in_sync w →
  in_sync (updateJobStatus e u w).2
  ∧ keeps_external_ids w (updateJobStatus e u w).2.
Proof.
  intros Hs.
  destruct (head (rowsByExternalJobId e (jobTable w))) as [job|] eqn:Hhead.
  - assert (Hfind : findOneByExternalJobId e w = (inr (Some job), w))
      by (unfold findOneByExternalJobId, gets; by rewrite Hhead).
    destruct (findOneByExternalJobId_found _ _ _ Hfind) as (k & j & Hk & _ & ->).
    destruct (updateJobStatus_found e u w (row k j) k Hfind)
      as (j' & -> & Hid' & _ & _ & _ & _ & _ & _ & _ & Hun); [by destruct j|].
    cbn [snd]. apply (sync_row_update w _ k j j' Hs Hk).
    + destruct w; cbn. apply lookup_insert_eq.
    + intros k' Hk'. destruct w; cbn. by apply lookup_insert_ne.
    + destruct Hun as (_ & _ & _ & _ & _ & _ & _ & He & _). by destruct j.
    + by destruct w.
    + intros job docs Hin. left. by destruct w.
  - assert (Hrun : updateJobStatus e u w = (inr tt, w)).
    { unfold updateJobStatus, mbind, M_bind, findOneByExternalJobId, gets.
      by rewrite Hhead. }
    rewrite Hrun. by apply sync_same.
Qed.

Lemma triggerIngestion_sync toISOString dto userId w :
  in_sync w →
  in_sync (triggerIngestion toISOString dto userId w).2
  ∧ keeps_external_ids w (triggerIngestion toISOString dto userId w).2.
Proof.
  intros Hs.
  destruct (validateDocuments (dto_documentIds dto) userId w).1
    as [e|docs] eqn:Hval.
  { rewrite (triggerIngestion_rejected _ _ _ _ _ Hval). by apply sync_same. }
  rewrite (triggerIngestion_run _ _ _ _ _ Hval). cbn [snd].
  destruct Hs as [Hkeys Hpend].
  assert (Hfresh : jobTable w !! nextId w = None) by (apply Hkeys; lia).
  assert (Hkeep : ∀ k j, jobTable w !! k = Some j →
            <[nextId w := started (clock w)
                            (secondSaved toISOString dto userId docs w)]>
              (<[nextId w := secondSaved toISOString dto userId docs w]>
                 (<[nextId w := firstSaved toISOString dto userId docs w]>
                    (jobTable w))) !! k = Some j).
  { intros k j Hk. rewrite !lookup_insert_ne; [exact Hk|congruence..]. }
  split; [split|].
  - cbn. intros k Hge. rewrite !lookup_insert_ne by lia. apply Hkeys. lia.
  - cbn. intros job docs' Hin. apply elem_of_app in Hin as [Hin|Hin].
    + destruct (Hpend job docs' Hin) as (k & j & Hid & Hk & He).
      exists k, j. split; [exact Hid|]. split; [by apply Hkeep | exact He].
    + apply list_elem_of_singleton in Hin as [= -> _].
      eexists _, _. split; [reflexivity|].
      split; [apply lookup_insert_eq | reflexivity].
  - intros k j Hk. exists j. split; [by apply Hkeep | reflexivity].
Qed.

Lemma runPending_sync pd w :
  in_sync w →
  in_sync (runPending pd w).2 ∧ keeps_external_ids w (runPending pd w).2.
Proof.
  intros Hs. destruct (pending w) as [|[job docs] rest] eqn:Hp.
  { unfold runPending. rewrite Hp. by apply sync_same. }
  rewrite (runPending_head _ _ _ _ _ Hp). cbn [snd].
  destruct (proj2 Hs job docs) as (k & j & Hid & Hk & He);
    [rewrite Hp; apply list_elem_of_here|].
  destruct (processJob_resume_settles pd job docs (set_pending rest w) k Hid)
    as (_ & Hset & _).
  pose proof (processJob_resume_framed pd job docs (set_pending rest w) k Hid)
    as (_ & Hrows & Hpend & Hnext).
  destruct Hset as (_ & Hun & Htab & _).
  destruct Hun as (_ & _ & _ & _ & _ & _ & _ & Hext & _).
  apply (sync_row_update w _ k j _ Hs Hk Htab).
  - intros k' Hk'. rewrite (Hrows k' Hk'). by destruct w.
  - congruence.
  - rewrite Hnext. by destruct w.
  - intros job' docs' Hin. left. rewrite Hpend in Hin.
    rewrite Hp. apply list_elem_of_further. by destruct w.
Qed.

Section Lifetime.

Variable processDocuments :
  Processing.ProcessingType → list DocumentInfo → Json → Exn + ProcessingResult.
Variable toISOString : Time → string.

Lemma step_sync w w' :
  in_sync w → step processDocuments toISOString w w' → in_sync w' ∧ keeps_external_ids w w'.
Proof.
  intros Hs Hstep. destruct Hstep.
  - by apply triggerIngestion_sync.
  - by apply retryJob_sync.
  - by apply updateJobStatus_sync.
  - by apply runPending_sync.
Qed.

Lemma steps_sync w w' :
  in_sync w → rtc (step processDocuments toISOString) w w' → in_sync w' ∧ keeps_external_ids w w'.
Proof.
  intros Hs Hsteps. induction Hsteps as [w|w w1 w2 Hstep Hsteps IH].
  - by apply sync_same.
  - destruct (step_sync w w1 Hs Hstep) as [Hs1 Hk1].
    destruct (IH Hs1) as [Hs2 Hk2].
    split; [exact Hs2 | by eapply keeps_external_ids_trans].
Qed.

End Lifetime.

(** C5 as the specification words it fails: two triggers in the same
    millisecond that draw the same random suffix create two jobs, under
    keys 1 and 2, with one and the same external id; nothing is
    regenerated. *)
Lemma externalJobId_collision :
  let dto := Sample.triggerDto (Some 3) in
  let w1 := (triggerIngestion Sample.toISOString dto 1 Sample.emptyWorld).2 in
  let w2 := (triggerIngestion Sample.toISOString dto 1 w1).2 in
  ∃ a b, jobTable w2 !! 1 = Some a ∧ jobTable w2 !! 2 = Some b
         ∧ id a = Some 1 ∧ id b = Some 2
         ∧ externalJobId a = Some "ext_job_1700000000000_k3x9q2m1z"%string
         ∧ externalJobId b = externalJobId a.
Proof.
  intros dto w1 w2.
  exists (default Sample.mockIngestionJob (jobTable w2 !! 1)),
         (default Sample.mockIngestionJob (jobTable w2 !! 2)).
  vm_compute. repeat split.
Qed.

(** C5, as the code has it. A trigger saves the new job twice before it
    starts the execution: first without an external id, then, as its
    next save, with the id [ext_job_<time>_<suffix>], which is not empty.
    Every later save of the call, the job the call returns and the row
    stored under the job's new key carry that id. No later trigger,
    retry, webhook delivery or execution changes the external id of any
    stored job. The id is not checked against the stored ones; it
    differs from the id of any trigger made at another time or with
    another suffix. *)
Theorem externalJobId_assigned_once_and_kept
    processDocuments toISOString dto userId w r w1 w2 :
  in_sync w → 0 ≤ clock w →
  triggerIngestion toISOString dto userId w = (inr r, w1) →
  rtc (step processDocuments toISOString) w1 w2 →
  ∃ first second later ext,
    saves w1 = saves w ++ first :: second :: later
    ∧ externalJobId first = None
    ∧ second = set_externalJobId (Some ext) first
    ∧ (∀ j, j ∈ later → externalJobId j = Some ext)
    ∧ externalJobId r = Some ext
    ∧ ext = externalJobIdOf (clock w) (random w (draws w))
    ∧ ext ≠ ""%string
    ∧ jobTable w !! nextId w = None
    ∧ jobTable w1 !! nextId w = Some r
    ∧ (∃ j, jobTable w2 !! nextId w = Some j ∧ externalJobId j = Some ext)
    ∧ keeps_external_ids w w2
    ∧ (∀ dto' userId' w' r' w1',
         0 ≤ clock w' →
         triggerIngestion toISOString dto' userId' w' = (inr r', w1') →
         clock w' ≠ clock w ∨ random w' (draws w') ≠ random w (draws w) →
         externalJobId r' ≠ Some ext).
Proof.
  intros Hs Hclock Hrun Hsteps.
  destruct (triggerIngestion_accepted_inv _ _ _ _ _ _ Hrun) as [docs Hval].
  pose proof (triggerIngestion_sync toISOString dto userId w Hs) as [Hs1 Hk1].
  rewrite Hrun in Hs1, Hk1. cbn [snd] in Hs1, Hk1.
  rewrite (triggerIngestion_run _ _ _ _ _ Hval) in Hrun.
  injection Hrun as <- <-.
  destruct (steps_sync _ _ _ _ Hs1 Hsteps) as [_ Hk2].
  exists (firstSaved toISOString dto userId docs w),
         (secondSaved toISOString dto userId docs w),
         [started (clock w) (secondSaved toISOString dto userId docs w)],
         (externalJobIdOf (clock w) (random w (draws w))).
  split; [cbn; by rewrite <- !app_assoc|].
  do 2 (split; [reflexivity|]).
  split; [by intros j ->%list_elem_of_singleton|].
  do 2 (split; [reflexivity|]).
  split; [apply externalJobIdOf_nonempty|].
  split; [apply Hs; lia|].
  split; [apply lookup_insert_eq|].
  split; [|split].
  - apply (Hk2 (nextId w)
             (started (clock w) (secondSaved toISOString dto userId docs w))).
    apply lookup_insert_eq.
  - by eapply keeps_external_ids_trans.
  - intros dto' userId' w' r' w1' Hclock' Hrun' Hdiff Heq.
    destruct (triggerIngestion_accepted_inv _ _ _ _ _ _ Hrun') as [docs' Hval'].
    rewrite (triggerIngestion_run _ _ _ _ _ Hval') in Hrun'.
    injection Hrun' as <- _.
    change (Some (externalJobIdOf (clock w') (random w' (draws w')))
            = Some (externalJobIdOf (clock w) (random w (draws w)))) in Heq.
    apply (inj Some) in Heq.
    apply externalJobIdOf_inj in Heq as [Ht Hsuf]; [|assumption..].
    destruct Hdiff; congruence.
Qed.

Lemma in_sync_emptyWorld : in_sync Sample.emptyWorld.
Proof.
  split.
  - intros k _. apply lookup_empty.
  - intros job docs Hin. by apply elem_of_nil in Hin.
Qed.

(** The triggered job fails, is retried, and still has its id. *)
Lemma externalJobId_assigned_once_and_kept_witness :
  let run := triggerIngestion Sample.toISOString (Sample.triggerDto (Some 3)) 1
               Sample.emptyWorld in
  let w3 := (retryJob 1 1 (runPending Sample.failingInvoker run.2).2).2 in
  ∃ j, jobTable w3 !! 1 = Some j
       ∧ retryCount j = 1
       ∧ externalJobId j = Some "ext_job_1700000000000_k3x9q2m1z"%string.
Proof.
  intros run w3.
  assert (Hrun : run = (inr (started (clock Sample.emptyWorld)
                               (secondSaved Sample.toISOString
                                  (Sample.triggerDto (Some 3)) 1
                                  [Sample.mockDocument] Sample.emptyWorld)),
                        run.2))
    by (vm_compute; reflexivity).
  assert (Hclock : 0 ≤ clock Sample.emptyWorld) by (vm_compute; discriminate).
  assert (Hsteps : rtc (step Sample.failingInvoker Sample.toISOString) run.2 w3).
  { eapply rtc_l; [apply step_run|]. eapply rtc_l; [apply step_retry|].
    apply rtc_refl. }
  destruct (externalJobId_assigned_once_and_kept Sample.failingInvoker
              Sample.toISOString (Sample.triggerDto (Some 3)) 1
              Sample.emptyWorld _ run.2 w3 in_sync_emptyWorld Hclock Hrun Hsteps)
    as (first & second & later & ext & _ & _ & _ & _ & _ & Hext & _ & _ & _
        & (j & Hj & He) & _).
  change (nextId Sample.emptyWorld) with 1 in Hj.
  exists j. split; [exact Hj|]. split.
  - assert (Hw3 : retryCount <$> jobTable w3 !! 1 = Some 1)
      by (vm_compute; reflexivity).
    rewrite Hj in Hw3. by injection Hw3.
  - rewrite He, Hext. vm_compute. reflexivity.
Defined.

(** * Further properties of the service *)

(** ** Back-off *)

(** X1. The retry delay never shrinks as the retry count grows, and it
    is at least one minute and at most one hour. *)
Theorem calculateNextRetry_monotone (job1 job2 : IngestionJob) (w : World) :
  0 ≤ retryCount job1 → retryCount job1 ≤ retryCount job2 →
  ∃ t1 t2,
    calculateNextRetry job1 w = (inr t1, w)
    ∧ calculateNextRetry job2 w = (inr t2, w)
    ∧ t1 ≤ t2
    ∧ clock w + 60 * 1000 ≤ t1
    ∧ t2 ≤ clock w + 60 * 60 * 1000.
Proof.
  intros H0 Hle. eexists _, _. split; [reflexivity|]. split; [reflexivity|].
  assert (0 < 2 ^ retryCount job1) by (apply Z.pow_pos_nonneg; lia).
  assert (2 ^ retryCount job1 ≤ 2 ^ retryCount job2)
    by (apply Z.pow_le_mono_r; lia).
  lia.
Qed.

Lemma calculateNextRetry_monotone_witness :
  ∃ t1 t2,
    calculateNextRetry Sample.mockIngestionJob Sample.emptyWorld
      = (inr t1, Sample.emptyWorld)
    ∧ calculateNextRetry Sample.failedJob Sample.emptyWorld
      = (inr t2, Sample.emptyWorld)
    ∧ t1 ≤ t2.
Proof.
  destruct (calculateNextRetry_monotone Sample.mockIngestionJob Sample.failedJob
              Sample.emptyWorld) as (t1 & t2 & H1 & H2 & Hle & _).
  - vm_compute. discriminate.
  - vm_compute. discriminate.
  - exists t1, t2. repeat split; assumption.
Defined.

(** ** Lookup *)

(** X2. [findOne] never writes. It returns a job only if a row with that
    key exists and belongs to the caller, and then it returns that row;
    a missing row is a NotFoundException and a row of another owner a
    BadRequestException, whatever the job's state. *)
Theorem findOne_outcomes (k userId : Z) (w : World) :
  (findOne k userId w).2 = w
  ∧ (∀ r, (findOne k userId w).1 = inr r ↔
          ∃ j, jobTable w !! k = Some j ∧ createdById j = userId ∧ r = row k j)
  ∧ ((findOne k userId w).1 = inl (NotFoundException "Ingestion job not found")
     ↔ jobTable w !! k = None)
  ∧ ((findOne k userId w).1
       = inl (BadRequestException "Access denied to this ingestion job")
     ↔ ∃ j, jobTable w !! k = Some j ∧ createdById j ≠ userId).
Proof.
  destruct (jobTable w !! k) as [j|] eqn:Hk.
  - destruct (decide (createdById j = userId)) as [Ho|Ho].
    + rewrite (findOne_found _ _ _ _ Hk Ho). cbn [fst snd].
      split; [reflexivity|]. split; [|split].
      * intros r. split.
        -- intros [= <-]. by exists j.
        -- intros (j' & [= <-] & _ & ->). reflexivity.
      * split; discriminate.
      * split; [discriminate|]. intros (j' & [= <-] & Hne). contradiction.
    + rewrite (findOne_denied _ _ _ _ Hk Ho). cbn [fst snd].
      split; [reflexivity|]. split; [|split].
      * intros r. split; [discriminate|].
        intros (j' & [= <-] & Ho' & _). contradiction.
      * split; discriminate.
      * split; [|reflexivity]. intros _. by exists j.
  - rewrite (findOne_missing _ _ _ Hk). cbn [fst snd].
    split; [reflexivity|]. split; [|split].
    + intros r. split; [discriminate|]. intros (j' & [=] & _).
    + split; reflexivity.
    + split; [discriminate|]. intros (j' & [=] & _).
Qed.

(** ** Retry *)

(** X3. A [retryJob] that fails changes nothing: the world is as it was,
    and the error is NotFoundException for a missing job and
    BadRequestException in the three other cases (a job of another owner,
    a job that is not FAILED, a job out of retries). *)
Theorem retryJob_failure_leaves_world (k userId : Z) (w : World) (e : Exn) :
  (retryJob k userId w).1 = inl e →
  (retryJob k userId w).2 = w
  ∧ (e = NotFoundException "Ingestion job not found"
       ∧ jobTable w !! k = None
     ∨ ∃ j, jobTable w !! k = Some j
        ∧ (e = BadRequestException "Access denied to this ingestion job"
             ∧ createdById j ≠ userId
           ∨ e = BadRequestException "Only failed jobs can be retried"
             ∧ createdById j = userId ∧ status j ≠ FAILED
           ∨ e = BadRequestException "Maximum retry attempts reached"
             ∧ createdById j = userId ∧ status j = FAILED
             ∧ maxRetries j ≤ retryCount j)).
Proof.
  destruct (jobTable w !! k) as [j|] eqn:Hk.
  - destruct (decide (createdById j = userId)) as [Ho|Ho].
    + rewrite (retryJob_found _ _ _ _ Hk Ho).
      destruct (bool_decide_reflect (status j = FAILED)) as [Hs|Hs]; cbn [negb].
      * destruct (Z.geb_spec (retryCount j) (maxRetries j)) as [Hc|Hc];
          cbn [fst snd]; [|discriminate].
        intros [= <-]. split; [reflexivity|]. right. exists j.
        split; [reflexivity|]. right. right. repeat split; [assumption..|lia].
      * cbn [fst snd]. intros [= <-]. split; [reflexivity|]. right. exists j.
        split; [reflexivity|]. right. left. by repeat split.
    + unfold retryJob, mbind, M_bind. rewrite (findOne_denied _ _ _ _ Hk Ho).
      cbn [fst snd]. intros [= <-]. split; [reflexivity|]. right. exists j.
      split; [reflexivity|]. left. by split.
  - unfold retryJob, mbind, M_bind. rewrite (findOne_missing _ _ _ Hk).
    cbn [fst snd]. intros [= <-]. split; [reflexivity|]. left. by split.
Qed.

Lemma retryJob_failure_leaves_world_witness :
  (retryJob 1 1 (Sample.worldWith Sample.completedJob)).2
    = Sample.worldWith Sample.completedJob.
Proof.
  apply (retryJob_failure_leaves_world 1 1 (Sample.worldWith Sample.completedJob)
           (BadRequestException "Only failed jobs can be retried")).
  reflexivity.
Defined.

(** ** Validation of the requested documents *)

(** The documents of a table with distinct ids that a list of ids finds
    are as many as the ids exactly when the ids are distinct and all in
    the table. *)
Lemma found_all_iff (ids : list Z) (table : list Document) :
  NoDup (doc_id <$> table) →
  length (filter (λ d, doc_id d ∈ ids) table) = length ids
  ↔ NoDup ids ∧ ∀ i, i ∈ ids → ∃ d, d ∈ table ∧ doc_id d = i.
Proof.
  intros Hnd. set (F := filter (λ d, doc_id d ∈ ids) table).
  assert (HndF : NoDup (doc_id <$> F)).
  { apply (sublist_NoDup _ (doc_id <$> table));
      first [exact Hnd | apply fmap_sublist, sublist_filter]. }
  assert (Hin : ∀ i, i ∈ doc_id <$> F → i ∈ ids).
  { intros i (d & -> & Hd)%list_elem_of_fmap.
    by apply list_elem_of_filter in Hd as [Hd _]. }
  assert (Hsub : doc_id <$> F ⊆+ ids) by (by apply NoDup_submseteq).
  rewrite <- (length_fmap doc_id F). split.
  - intros Hlen.
    assert (Hperm : doc_id <$> F ≡ₚ ids)
      by (apply submseteq_length_Permutation; [assumption | lia]).
    split; [by rewrite <- Hperm|].
    intros i Hi. rewrite <- Hperm in Hi.
    apply list_elem_of_fmap in Hi as (d & -> & Hd).
    apply list_elem_of_filter in Hd as [_ Hd]. by exists d.
  - intros [Hids Hall].
    assert (Hsup : ids ⊆+ doc_id <$> F).
    { apply NoDup_submseteq; [assumption|]. intros i Hi.
      destruct (Hall i Hi) as (d & Hd & <-).
      apply list_elem_of_fmap. exists d. split; [reflexivity|].
      apply list_elem_of_filter. by split. }
    apply submseteq_length in Hsub, Hsup. lia.
Qed.

(** X4. [validateDocuments] only reads. With document ids that are keys,
    it returns exactly when the requested ids are distinct, all resolve
    and all resolved documents belong to the caller, and then returns the
    requested documents in table order; an id that does not resolve (or a
    repeated one) is reported as "Some documents not found" before any
    ownership is looked at, and a foreign document as "Access denied to
    some documents". *)
Theorem validateDocuments_outcomes (ids : list Z) (userId : Z) (w : World) :
  NoDup (doc_id <$> documentTable w) →
  let complete :=
    NoDup ids ∧ ∀ i, i ∈ ids → ∃ d, d ∈ documentTable w ∧ doc_id d = i in
  let owned :=
    ∀ d, d ∈ documentTable w → doc_id d ∈ ids → doc_createdById d = userId in
  let run := validateDocuments ids userId w in
  run.2 = w
  ∧ ((∃ docs, run.1 = inr docs) ↔ complete ∧ owned)
  ∧ (∀ docs, run.1 = inr docs →
       docs = filter (λ d, doc_id d ∈ ids) (documentTable w)
       ∧ doc_id <$> docs ≡ₚ ids
       ∧ ∀ d, d ∈ docs → doc_createdById d = userId)
  ∧ (run.1 = inl (BadRequestException "Some documents not found")
     ↔ ¬ complete)
  ∧ (run.1 = inl (BadRequestException "Access denied to some documents")
     ↔ complete ∧ ¬ owned).
Proof.
  intros Hnd complete owned run.
  split; [apply validateDocuments_world|].
  pose proof (found_all_iff ids (documentTable w) Hnd) as Hfound.
  fold complete in Hfound.
  unfold run, validateDocuments, findDocuments, gets, mbind, M_bind.
  cbn [fst snd].
  set (F := filter (λ d, doc_id d ∈ ids) (documentTable w)) in *.
  set (U := filter (λ doc, doc_createdById doc ≠ userId) F).
  assert (Hown : U = [] ↔ owned).
  { split.
    - intros HU d Hd Hi. destruct (decide (doc_createdById d = userId)) as [|Hne];
        [assumption|].
      assert (d ∈ U) as HdU
        by (apply list_elem_of_filter; split; [assumption|];
            apply list_elem_of_filter; by split).
      rewrite HU in HdU. by apply elem_of_nil in HdU.
    - intros Ho. destruct U as [|d U'] eqn:HU; [reflexivity|].
      assert (d ∈ U) as HdU by (rewrite HU; apply list_elem_of_here).
      apply list_elem_of_filter in HdU as [Hne HdF].
      apply list_elem_of_filter in HdF as [Hi Hd]. destruct Hne. by apply Ho. }
  destruct (Nat.eqb_spec (length F) (length ids)) as [Hlen|Hlen]; cbn [negb].
  - assert (Hc : complete) by (by apply Hfound).
    destruct U as [|d U'] eqn:HU; cbn [length Nat.ltb Nat.leb fst].
    + assert (Ho : owned) by (by apply Hown).
      split; [split; [done | by eexists]|]. split; [|split].
      * intros docs [= <-]. split; [reflexivity|]. split.
        -- apply submseteq_length_Permutation; [|rewrite length_fmap; lia].
           apply NoDup_submseteq.
           ++ apply (sublist_NoDup _ (doc_id <$> documentTable w));
                first [exact Hnd | apply fmap_sublist, sublist_filter].
           ++ intros i (d & -> & Hd)%list_elem_of_fmap.
              by apply list_elem_of_filter in Hd as [Hd _].
        -- intros d Hd. apply list_elem_of_filter in Hd as [Hi Hd]. by apply Ho.
      * split; [discriminate | intros Hn; by destruct Hn].
      * split; [discriminate | intros [_ Hn]; by destruct Hn].
    + assert (Ho : ¬ owned) by (intros Ho; by apply Hown in Ho).
      split; [split; [intros [? [=]] | intros [_ ?]; contradiction]|].
      split; [intros docs [=]|]. split.
      * split; [discriminate | intros Hn; by destruct Hn].
      * split; [by split | reflexivity].
  - assert (Hc : ¬ complete) by (intros Hc; by apply Hfound in Hc).
    cbn [fst].
    split; [split; [intros [? [=]] | intros [? _]; contradiction]|].
    split; [intros docs [=]|]. split.
    + split; [done | reflexivity].
    + split; [discriminate | intros [? _]; contradiction].
Qed.

Lemma validateDocuments_outcomes_witness :
  (validateDocuments [1] 1 Sample.emptyWorld).1 = inr [Sample.mockDocument]
  ∧ (validateDocuments [1; 1] 1 Sample.emptyWorld).1
    = inl (BadRequestException "Some documents not found")
  ∧ (validateDocuments [1] 2 Sample.emptyWorld).1
    = inl (BadRequestException "Access denied to some documents").
Proof.
  assert (Hnd : NoDup (doc_id <$> documentTable Sample.emptyWorld))
    by (apply NoDup_singleton).
  split; [|split].
  - destruct (validateDocuments_outcomes [1] 1 Sample.emptyWorld Hnd)
      as (_ & _ & Hdocs & _).
    destruct (validateDocuments [1] 1 Sample.emptyWorld).1 as [e|docs] eqn:Hrun;
      [vm_compute in Hrun; discriminate|].
    by destruct (Hdocs docs eq_refl) as [-> _].
  - apply (validateDocuments_outcomes [1; 1] 1 Sample.emptyWorld Hnd).
    intros [Hnodup _]. apply NoDup_cons in Hnodup as [Hnot _].
    apply Hnot, list_elem_of_here.
  - apply (validateDocuments_outcomes [1] 2 Sample.emptyWorld Hnd). split.
    + split; [apply NoDup_singleton|]. intros i ->%list_elem_of_singleton.
      exists Sample.mockDocument. split; [apply list_elem_of_here | reflexivity].
    + intros Ho. specialize (Ho Sample.mockDocument).
      discriminate Ho; apply list_elem_of_here.
Defined.

(** ** Trigger *)

Lemma validateDocuments_errors ids userId w e :
  (validateDocuments ids userId w).1 = inl e →
  e = BadRequestException "Some documents not found"
  ∨ e = BadRequestException "Access denied to some documents".
Proof.
  unfold validateDocuments, findDocuments, gets, mbind, M_bind. cbn.
  repeat match goal with
         | |- context [if ?b then _ else _] => destruct b
         end; cbn; intros [=]; auto.
Qed.

(** X5. A trigger that is rejected leaves no trace: no job is created,
    nothing is saved or handed off, no random suffix is drawn. The only
    rejections are the two of the document validation. *)
Theorem triggerIngestion_rejected_leaves_world
    toISOString (dto : TriggerIngestionDto) (userId : Z) (w w' : World) (e : Exn) :
  triggerIngestion toISOString dto userId w = (inl e, w') →
  w' = w
  ∧ (e = BadRequestException "Some documents not found"
     ∨ e = BadRequestException "Access denied to some documents").
Proof.
  intros Hrun.
  destruct (validateDocuments (dto_documentIds dto) userId w).1
    as [e0|docs] eqn:Hval.
  - rewrite (triggerIngestion_rejected _ _ _ _ _ Hval) in Hrun.
    injection Hrun as <- <-. split; [reflexivity|].
    by apply (validateDocuments_errors _ _ _ _ Hval).
  - rewrite (triggerIngestion_run _ _ _ _ _ Hval) in Hrun. discriminate.
Qed.

Lemma triggerIngestion_rejected_leaves_world_witness :
  triggerIngestion Sample.toISOString (Sample.triggerDto (Some 3)) 2
    Sample.emptyWorld
  = (inl (BadRequestException "Access denied to some documents"),
     Sample.emptyWorld).
Proof.
  assert (Hrun : triggerIngestion Sample.toISOString (Sample.triggerDto (Some 3)) 2
                   Sample.emptyWorld
                 = (inl (BadRequestException "Access denied to some documents"),
                    (triggerIngestion Sample.toISOString
                       (Sample.triggerDto (Some 3)) 2 Sample.emptyWorld).2))
    by (vm_compute; reflexivity).
  destruct (triggerIngestion_rejected_leaves_world _ _ _ _ _ _ Hrun) as [Hw _].
  rewrite Hrun. by rewrite Hw.
Defined.

(** X6. A trigger that is accepted creates one job, [created]:
    PENDING, progress 0, no retries made, no error, no output, no
    timestamps, owned by the caller, of the requested type, with the
    requested ids and the snapshot of exactly the validated documents as
    input. It is saved under the next key, and the execution is started
    on it for those documents: one execution is handed off, of the
    created job as [processJob] has it at its first [await], which is
    the last save of the call. Every other row is as it was, and the job
    returned is the row, with the columns of [created] that an execution
    does not assign. *)
Theorem triggerIngestion_creates
    toISOString (dto : TriggerIngestionDto) (userId : Z) (w w' : World)
    (r : IngestionJob) :
  triggerIngestion toISOString dto userId w = (inr r, w') →
  ∃ docs created,
    (validateDocuments (dto_documentIds dto) userId w).1 = inr docs
    ∧ id created = Some (nextId w)
    ∧ status created = PENDING ∧ progress created = 0 ∧ retryCount created = 0
    ∧ errorMessage created = None ∧ outputData created = None
    ∧ startedAt created = None ∧ completedAt created = None
    ∧ nextRetryAt created = None
    ∧ createdById created = userId ∧ type created = dto_type dto
    ∧ description created = dto_description dto
    ∧ (dto_name dto = None →
       name created = "Ingestion Job " +:+ toISOString (clock w))
    ∧ (dto_parameters dto = None → parameters created = JObj [])
    ∧ inputData created = Some {| documentIds := dto_documentIds dto;
                                  documents := documentSnapshot <$> docs |}
    ∧ (∃ first, saves w' = saves w ++ [first; created; started (clock w) created])
    ∧ pending w' = pending w ++ [(started (clock w) created, docs)]
    ∧ jobTable w' !! nextId w = Some r
    ∧ id r = Some (nextId w) ∧ untouched created r
    ∧ (∀ k, k ≠ nextId w → jobTable w' !! k = jobTable w !! k)
    ∧ nextId w' = nextId w + 1
    ∧ documentTable w' = documentTable w ∧ clock w' = clock w.
Proof.
  intros Hrun.
  destruct (triggerIngestion_accepted_inv _ _ _ _ _ _ Hrun) as [docs Hval].
  exists docs, (secondSaved toISOString dto userId docs w).
  split; [exact Hval|].
  rewrite (triggerIngestion_run _ _ _ _ _ Hval) in Hrun.
  injection Hrun as <- <-. cbn.
  repeat (split; [first [reflexivity | by intros ->]|]).
  split; [eexists; by rewrite <- !app_assoc|].
  split; [reflexivity|].
  split; [apply lookup_insert_eq|].
  split; [reflexivity|]. split; [by repeat split|].
  split; [|done].
  intros k Hk. by rewrite !lookup_insert_ne.
Qed.

Lemma triggerIngestion_creates_witness :
  ∃ r w' created,
    triggerIngestion Sample.toISOString (Sample.triggerDto (Some 3)) 1
      Sample.emptyWorld = (inr r, w')
    ∧ status created = PENDING ∧ jobTable w' !! 1 = Some r
    ∧ pending w' = [(started 1700000000000 created, [Sample.mockDocument])].
Proof.
  set (run := triggerIngestion Sample.toISOString (Sample.triggerDto (Some 3)) 1
                Sample.emptyWorld).
  assert (Hrun : run = (inr (started (clock Sample.emptyWorld)
                               (secondSaved Sample.toISOString
                                  (Sample.triggerDto (Some 3)) 1
                                  [Sample.mockDocument] Sample.emptyWorld)),
                        run.2))
    by (vm_compute; reflexivity).
  destruct (triggerIngestion_creates _ _ _ _ _ _ Hrun)
    as (docs & created & Hval & _ & Hst & _ & _ & _ & _ & _ & _ & _ & _ & _ & _
        & _ & _ & _ & _ & Hpend & Htab & _).
  eexists _, _, created. split; [exact Hrun|]. split; [exact Hst|].
  split; [exact Htab|]. rewrite Hpend.
  vm_compute in Hval. by injection Hval as <-.
Defined.

Lemma filter_in_nil (table : list Document) :
  filter (λ d, doc_id d ∈ @nil Z) table = [].
Proof.
  induction table as [|d table IH]; [reflexivity|].
  rewrite filter_cons_False; [exact IH | apply not_elem_of_nil].
Qed.

(** X7. An empty list of document ids passes the validation, whatever
    the documents and the caller: the trigger is accepted and creates a
    job with no documents, whose execution is handed off with none. *)
Theorem triggerIngestion_accepts_no_documents
    toISOString (dto : TriggerIngestionDto) (userId : Z) (w : World) :
  dto_documentIds dto = [] →
  ∃ r w' handed,
    triggerIngestion toISOString dto userId w = (inr r, w')
    ∧ inputData r = Some {| documentIds := []; documents := [] |}
    ∧ jobTable w' !! nextId w = Some r
    ∧ pending w' = pending w ++ [(handed, [])]
    ∧ id handed = id r.
Proof.
  intros Hids.
  assert (Hval : (validateDocuments (dto_documentIds dto) userId w).1 = inr []).
  { rewrite Hids. unfold validateDocuments, findDocuments, gets, mbind, M_bind.
    cbn. by rewrite filter_in_nil. }
  eexists _, _, _. split; [apply (triggerIngestion_run _ _ _ _ _ Hval)|].
  cbn. rewrite Hids. split; [reflexivity|].
  split; [apply lookup_insert_eq|]. split; reflexivity.
Qed.

Lemma triggerIngestion_accepts_no_documents_witness :
  ∃ r w',
    triggerIngestion Sample.toISOString
      {| dto_name := None; dto_description := None; dto_type := OCR;
         dto_documentIds := []; dto_parameters := None;
         dto_maxRetries := None |} 7 Sample.emptyWorld = (inr r, w')
    ∧ inputData r = Some {| documentIds := []; documents := [] |}.
Proof.
  destruct (triggerIngestion_accepts_no_documents Sample.toISOString
              {| dto_name := None; dto_description := None; dto_type := OCR;
                 dto_documentIds := []; dto_parameters := None;
                 dto_maxRetries := None |} 7 Sample.emptyWorld eq_refl)
    as (r & w' & handed & Hrun & Hin & _).
  by exists r, w'.
Defined.

(** X8. The job a trigger returns is the job [findOne] then returns to
    its owner; any other caller is refused, and the owner cannot retry
    it, since it is not FAILED. *)
Theorem triggerIngestion_then_findOne
    toISOString (dto : TriggerIngestionDto) (userId : Z) (w w' : World)
    (r : IngestionJob) :
  triggerIngestion toISOString dto userId w = (inr r, w') →
  findOne (nextId w) userId w' = (inr r, w')
  ∧ (∀ other, other ≠ userId →
       findOne (nextId w) other w'
       = (inl (BadRequestException "Access denied to this ingestion job"), w'))
  ∧ retryJob (nextId w) userId w'
    = (inl (BadRequestException "Only failed jobs can be retried"), w').
Proof.
  intros Hrun.
  destruct (triggerIngestion_accepted_inv _ _ _ _ _ _ Hrun) as [docs Hval].
  rewrite (triggerIngestion_run _ _ _ _ _ Hval) in Hrun.
  injection Hrun as Hr Hw'.
  assert (Hid : id r = Some (nextId w)) by (by rewrite <- Hr).
  assert (Hst : status r = PROCESSING) by (by rewrite <- Hr).
  assert (Hown : createdById r = userId) by (by rewrite <- Hr).
  assert (Htab : jobTable w' !! nextId w = Some r)
    by (rewrite <- Hw', <- Hr; cbn; apply lookup_insert_eq).
  clear Hr Hw'.
  assert (Hrow : row (nextId w) r = r) by (destruct r; cbn in *; by subst).
  split; [|split].
  - rewrite (findOne_found _ _ _ _ Htab Hown). by rewrite Hrow.
  - intros other Hne. apply (findOne_denied _ _ _ _ Htab). congruence.
  - rewrite (retryJob_found _ _ _ _ Htab Hown). by rewrite Hst.
Qed.

Lemma triggerIngestion_then_findOne_witness :
  let run := triggerIngestion Sample.toISOString (Sample.triggerDto (Some 3)) 1
               Sample.emptyWorld in
  ∃ r, findOne 1 1 run.2 = (inr r, run.2) ∧ run.1 = inr r.
Proof.
  intros run.
  assert (Hrun : run = (inr (started (clock Sample.emptyWorld)
                               (secondSaved Sample.toISOString
                                  (Sample.triggerDto (Some 3)) 1
                                  [Sample.mockDocument] Sample.emptyWorld)),
                        run.2))
    by (vm_compute; reflexivity).
  eexists. split.
  - apply (triggerIngestion_then_findOne _ _ _ _ _ _ Hrun).
  - by rewrite Hrun.
Defined.

(** ** Listing *)

Lemma rowsByCreatedById_elem userId t job :
  job ∈ rowsByCreatedById userId t ↔
  ∃ k j, t !! k = Some j ∧ createdById j = userId ∧ job = row k j.
Proof.
  unfold rowsByCreatedById. rewrite list_elem_of_filter, list_elem_of_fmap.
  split.
  - intros (Hown & [k j] & -> & Hin). apply elem_of_map_to_list in Hin.
    exists k, j. cbn in *. by destruct j.
  - intros (k & j & Hk & Hown & ->). split; [by destruct j|].
    exists (k, j). split; [reflexivity | by apply elem_of_map_to_list].
Qed.

Lemma ceil_div_bounds n d :
  0 < d → (ceil_div n d - 1) * d < n ≤ ceil_div n d * d.
Proof.
  intros Hd. unfold ceil_div.
  pose proof (Z.mul_div_le (- n) d Hd).
  pose proof (Z.mul_succ_div_gt (- n) d Hd). lia.
Qed.

(** Cutting a list into [m] pieces of [n] loses nothing when [m * n]
    reaches its length. *)
Lemma chunks_concat {A} (l : list A) (n m : nat) :
  (length l ≤ m * n)%nat →
  concat ((λ p, take n (drop (p * n) l)) <$> seq 0 m) = l.
Proof.
  revert l. induction m as [|m IH]; intros l Hlen.
  - cbn in *. symmetry. apply nil_length_inv. lia.
  - cbn [seq fmap list_fmap concat]. rewrite <- fmap_S_seq, <- list_fmap_compose.
    cbn [Nat.mul Nat.add drop].
    transitivity (take n l ++ drop n l); [|apply take_drop]. f_equal.
    etransitivity; [|apply (IH (drop n l)); rewrite length_drop; lia].
    f_equal. apply list_fmap_ext. intros _ p _. cbn.
    by rewrite drop_drop.
Qed.

Section ListingProperties.

Variable orderByCreatedAtDesc : list IngestionJob → list IngestionJob.

Lemma findAll_run userId page limit w :
  findAll orderByCreatedAtDesc userId (Some page) (Some limit) w =
    (inr {| page_jobs :=
              take (Z.to_nat limit)
                (drop (Z.to_nat ((page - 1) * limit))
                   (orderByCreatedAtDesc (rowsByCreatedById userId (jobTable w))));
            page_total :=
              Z.of_nat (length (orderByCreatedAtDesc
                                  (rowsByCreatedById userId (jobTable w))));
            page_page := page; page_limit := limit;
            page_totalPages :=
              ceil_div
                (Z.of_nat (length (orderByCreatedAtDesc
                                     (rowsByCreatedById userId (jobTable w)))))
                limit |}, w).
Proof.
  unfold findAll, findAndCount, gets, mbind, M_bind, mret, M_ret. cbn.
  unfold formatJobResponse. by rewrite list_fmap_id.
Qed.

(** X9. For a page number and a page size of at least 1, [findAll] only
    reads and returns: the count of all the caller's jobs as [total]; as
    [jobs] stored jobs of the caller only, as many as the page size
    allows and the jobs after the skipped ones provide; and as
    [totalPages] the least number of pages that hold [total] jobs. A page
    beyond that number is empty. *)
Theorem findAll_page (userId page limit : Z) (w : World) :
  (∀ l, orderByCreatedAtDesc l ≡ₚ l) → 1 ≤ page → 1 ≤ limit →
  ∃ pg,
    findAll orderByCreatedAtDesc userId (Some page) (Some limit) w = (inr pg, w)
    ∧ page_page pg = page ∧ page_limit pg = limit
    ∧ page_total pg
      = Z.of_nat (length (rowsByCreatedById userId (jobTable w)))
    ∧ Z.of_nat (length (page_jobs pg))
      = Z.max 0 (Z.min limit (page_total pg - (page - 1) * limit))
    ∧ (∀ job, job ∈ page_jobs pg →
         createdById job = userId
         ∧ ∃ k j, jobTable w !! k = Some j ∧ job = row k j)
    ∧ (page_totalPages pg - 1) * limit < page_total pg
    ∧ page_total pg ≤ page_totalPages pg * limit
    ∧ (page_totalPages pg < page → page_jobs pg = []).
Proof.
  intros Hperm Hpage Hlimit. eexists. split; [apply findAll_run|]. cbn.
  set (rows := rowsByCreatedById userId (jobTable w)).
  set (sorted := orderByCreatedAtDesc rows).
  assert (Hlen : length sorted = length rows)
    by (apply Permutation_length, Hperm).
  pose proof (ceil_div_bounds (Z.of_nat (length sorted)) limit) as Hceil.
  split; [reflexivity|]. split; [reflexivity|].
  split; [by rewrite Hlen|]. split; [|split; [|split; [|split]]].
  - rewrite length_take, length_drop.
    assert (0 ≤ (page - 1) * limit) by nia. lia.
  - intros job Hin. apply subseteq_take, subseteq_drop in Hin.
    unfold sorted in Hin. rewrite Hperm in Hin.
    apply rowsByCreatedById_elem in Hin as (k & j & Hk & Hown & ->).
    split; [by destruct j | by exists k, j].
  - lia.
  - lia.
  - intros Hbeyond. rewrite drop_ge; [by destruct (Z.to_nat limit)|]. nia.
Qed.

(** X10. The pages 1, ..., [totalPages] of a page size of at least 1,
    put one after the other, are the caller's jobs in the order of the
    listing: each job exactly once, none left out. *)
Theorem findAll_pages_partition (userId limit : Z) (w : World) :
  1 ≤ limit →
  let jobsOf p :=
    match (findAll orderByCreatedAtDesc userId (Some p) (Some limit) w).1 with
    | inr pg => page_jobs pg
    | inl _ => []
    end in
  let totalPages :=
    ceil_div (Z.of_nat (length (orderByCreatedAtDesc
                                  (rowsByCreatedById userId (jobTable w)))))
             limit in
  concat ((λ i, jobsOf (Z.of_nat i + 1)) <$> seq 0 (Z.to_nat totalPages))
  = orderByCreatedAtDesc (rowsByCreatedById userId (jobTable w)).
Proof.
  intros Hlimit jobsOf totalPages.
  set (sorted := orderByCreatedAtDesc (rowsByCreatedById userId (jobTable w))) in *.
  pose proof (ceil_div_bounds (Z.of_nat (length sorted)) limit) as Hceil.
  fold totalPages in Hceil.
  etransitivity;
    [|apply (chunks_concat sorted (Z.to_nat limit) (Z.to_nat totalPages)); nia].
  f_equal. apply list_fmap_ext. intros _ i _. unfold jobsOf.
  rewrite findAll_run. cbn. fold sorted. do 2 f_equal. nia.
Qed.

End ListingProperties.

Lemma findAll_page_witness :
  ∃ pg,
    findAll (λ l, l) 1 (Some 1) (Some 10) (Sample.worldWith Sample.failedJob)
      = (inr pg, Sample.worldWith Sample.failedJob)
    ∧ page_total pg = 1 ∧ page_totalPages pg = 1
    ∧ page_jobs pg = [Sample.failedJob].
Proof.
  destruct (findAll_page (λ l, l) 1 1 10 (Sample.worldWith Sample.failedJob))
    as (pg & Hrun & _).
  - reflexivity.
  - vm_compute. discriminate.
  - vm_compute. discriminate.
  - exists pg. split; [exact Hrun|].
    assert (Hpg : inr pg = (findAll (λ l, l) 1 (Some 1) (Some 10)
                              (Sample.worldWith Sample.failedJob)).1)
      by (by rewrite Hrun).
    vm_compute in Hpg. injection Hpg as ->. repeat split.
Defined.

Lemma findAll_pages_partition_witness :
  concat ((λ i, match (findAll (λ l, l) 1 (Some (Z.of_nat i + 1)) (Some 1)
                         (Sample.worldWith Sample.failedJob)).1 with
                | inr pg => page_jobs pg
                | inl _ => []
                end) <$> seq 0 1)
  = [Sample.failedJob].
Proof.
  apply (findAll_pages_partition (λ l, l) 1 1 (Sample.worldWith Sample.failedJob)).
  vm_compute. discriminate.
Defined.

(** ** The execution path, step by step *)

(** X11. Whatever the job, the documents and the invoker, a run of
    [processJob] on the store that accepts every save makes these saves
    and no others: the job as PROCESSING
    with its old progress, then PROCESSING with progress 10, 20, ..., 100,
    then the final job, whose progress is 100 whether it completed or
    failed. The run takes the ten pauses of 200 ms; [startedAt] is the
    time of the start and [completedAt] the time of the end. *)
Theorem processJob_reports
    (processDocuments :
       Processing.ProcessingType → list DocumentInfo → Json → Exn + ProcessingResult)
    (job : IngestionJob) (docs : list Document) (w : World) :
  let run := processJob processDocuments accepts job docs w in
  ∃ new,
    saves run.2.2 = saves w ++ new
    ∧ (λ j, (status j, progress j)) <$> new
      = (enum PROCESSING, progress job)
        :: ((λ p, (enum PROCESSING, p)) <$> [10; 20; 30; 40; 50; 60; 70; 80; 90; 100])
        ++ [(status run.2.1, 100)]
    ∧ last new = Some run.2.1
    ∧ progress run.2.1 = 100
    ∧ startedAt run.2.1 = Some (clock w)
    ∧ completedAt run.2.1 = Some (clock w + 2000)
    ∧ clock run.2.2 = clock w + 2000.
Proof.
  intros run. unfold run, processJob.
  change (wp (try_catch (processJob_try processDocuments accepts docs) (processJob_catch accepts))
            (λ _ s', ∃ new,
               saves s'.2 = saves w ++ new
               ∧ (λ j, (status j, progress j)) <$> new
                 = (enum PROCESSING, progress job)
                   :: ((λ p, (enum PROCESSING, p))
                         <$> [10; 20; 30; 40; 50; 60; 70; 80; 90; 100])
                   ++ [(status s'.1, 100)]
               ∧ last new = Some s'.1
               ∧ progress s'.1 = 100
               ∧ startedAt s'.1 = Some (clock w)
               ∧ completedAt s'.1 = Some (clock w + 2000)
               ∧ clock s'.2 = clock w + 2000) (job, w)).
  destruct job as [i n d ty st pr em rc mr pa ind od ex sa ca nr cb];
  destruct w as [jt ni dt ck rn dr pe sv].
  assert (Hclock : ∀ t : Z,
    t + 200 + 200 + 200 + 200 + 200 + 200 + 200 + 200 + 200 + 200 = t + 2000)
    by (intros; lia).
  apply wp_try_catch.
  unfold processJob_try, processJob_start, processJob_rest, processJob_catch.
  destruct i as [k|]; do 2 wp_next; cbn [type];
    (apply wp_bind;
     eapply wp_eval; [apply mapIngestionTypeToProcessingType_total|];
     cbn beta iota);
    apply wp_bind;
    change (Z.of_nat <$> seq 0 (Z.to_nat 10)) with [0; 1; 2; 3; 4; 5; 6; 7; 8; 9];
    cbn [for_each]; do 10 wp_next; wp_run; wp_next;
    (destruct (processDocuments _ _ _) as [e|result];
     [ wp_run; do 4 wp_next; apply wp_bind
     | apply wp_bind; destruct (res_success result);
       [do 4 wp_next; wp_run | do 4 wp_next] ]);
    try (destruct (rc <? mr) eqn:Hlt; wp_run_using Hlt);
    wp_run; rewrite <- !app_assoc; cbn [app snd fst saves clock];
    (eexists; split; [reflexivity|]);
    rewrite ?Hclock; repeat split.
Qed.

(** X12. On the store that accepts every save, the run of a job that
    has its key writes that job's row and no other: every other row, the key sequence and the queue of handed-off
    executions are as before, and in the job's own row the name, the
    description, the type, the retry counters, the parameters, the input,
    the external id and the owner are those of the job object that was
    handed off. *)
Theorem processJob_touches_own_row
    (processDocuments :
       Processing.ProcessingType → list DocumentInfo → Json → Exn + ProcessingResult)
    (job : IngestionJob) (docs : list Document) (w : World) (k : Z) :
  id job = Some k →
  let run := processJob processDocuments accepts job docs w in
  (∀ k', k' ≠ k → jobTable run.2.2 !! k' = jobTable w !! k')
  ∧ nextId run.2.2 = nextId w
  ∧ pending run.2.2 = pending w
  ∧ ∃ j, jobTable run.2.2 !! k = Some j
         ∧ name j = name job ∧ description j = description job
         ∧ type j = type job
         ∧ retryCount j = retryCount job ∧ maxRetries j = maxRetries job
         ∧ parameters j = parameters job ∧ inputData j = inputData job
         ∧ externalJobId j = externalJobId job
         ∧ createdById j = createdById job.
Proof.
  intros Hid run.
  destruct (processJob_framed processDocuments job docs w k Hid)
    as (_ & Hrows & Hpend & Hnext).
  destruct (processJob_settles processDocuments job docs w) as (_ & Hset & _).
  rewrite Hid in Hset. destruct Hset as (_ & Hun & Htab & _).
  split; [exact Hrows|]. split; [exact Hnext|]. split; [exact Hpend|].
  exists run.2.1. split; [exact Htab | exact Hun].
Qed.

Lemma processJob_touches_own_row_witness :
  let w := <[2 := Sample.completedJob]> ∅ in
  let world := set_jobTable (<[1 := Sample.failedJob]> w)
                 (Sample.worldWith Sample.failedJob) in
  jobTable (processJob Sample.throwingInvoker accepts Sample.failedJob
              [Sample.mockDocument] world).2.2 !! 2
  = Some Sample.completedJob.
Proof.
  intros w world.
  destruct (processJob_touches_own_row Sample.throwingInvoker Sample.failedJob
              [Sample.mockDocument] world 1 eq_refl) as (Hrows & _).
  rewrite (Hrows 2) by discriminate. reflexivity.
Defined.

(** X13. On the store that accepts every save, what a run makes of the
    job depends on the invocation alone. A
    successful result gives COMPLETED with the result's data as
    outputData, and leaves errorMessage and nextRetryAt as they were. An
    unsuccessful result or an exception gives FAILED with the error, or
    "Processing failed" when the error is missing or empty, leaves
    outputData as it was, and sets nextRetryAt to the end of the run plus
    the back-off of the job's retry count if retries remain; when none
    remain, nextRetryAt is left as it was. *)
Theorem processJob_outcome
    (processDocuments :
       Processing.ProcessingType → list DocumentInfo → Json → Exn + ProcessingResult)
    (job : IngestionJob) (docs : list Document) (w : World) :
  let final := (processJob processDocuments accepts job docs w).2.1 in
  let failed (reason : option string) :=
    status final = FAILED
    ∧ errorMessage final = Some (or_else truthy_str reason "Processing failed")
    ∧ outputData final = outputData job
    ∧ nextRetryAt final =
        (if retryCount job <? maxRetries job
         then Some (clock w + 2000 + Z.min (2 ^ retryCount job) 60 * 60 * 1000)
         else nextRetryAt job) in
  match invocation processDocuments job docs with
  | inr result =>
      if res_success result
      then status final = COMPLETED
           ∧ outputData final = res_data result
           ∧ errorMessage final = errorMessage job
           ∧ nextRetryAt final = nextRetryAt job
      else failed (res_error result)
  | inl e => failed (Some (message e))
  end.
Proof.
  intros final failed. unfold failed, final, processJob. clear failed final.
  change (wp (try_catch (processJob_try processDocuments accepts docs) (processJob_catch accepts))
            (λ _ s',
               match invocation processDocuments job docs with
               | inr result =>
                   if res_success result
                   then status s'.1 = COMPLETED
                        ∧ outputData s'.1 = res_data result
                        ∧ errorMessage s'.1 = errorMessage job
                        ∧ nextRetryAt s'.1 = nextRetryAt job
                   else status s'.1 = FAILED
                        ∧ errorMessage s'.1 =
                            Some (or_else truthy_str (res_error result)
                                    "Processing failed")
                        ∧ outputData s'.1 = outputData job
                        ∧ nextRetryAt s'.1 =
                            (if retryCount job <? maxRetries job
                             then Some (clock w + 2000
                                        + Z.min (2 ^ retryCount job) 60 * 60 * 1000)
                             else nextRetryAt job)
               | inl e =>
                   status s'.1 = FAILED
                   ∧ errorMessage s'.1 =
                       Some (or_else truthy_str (Some (message e))
                               "Processing failed")
                   ∧ outputData s'.1 = outputData job
                   ∧ nextRetryAt s'.1 =
                       (if retryCount job <? maxRetries job
                        then Some (clock w + 2000
                                   + Z.min (2 ^ retryCount job) 60 * 60 * 1000)
                        else nextRetryAt job)
               end) (job, w)).
  destruct job as [i n d ty st pr em rc mr pa ind od ex sa ca nr cb];
  destruct w as [jt ni dt ck rn dr pe sv].
  unfold invocation. cbn [type parameters retryCount maxRetries outputData
                          errorMessage nextRetryAt clock].
  assert (Hclock : ∀ t : Z,
    t + 200 + 200 + 200 + 200 + 200 + 200 + 200 + 200 + 200 + 200 = t + 2000)
    by (intros; lia).
  apply wp_try_catch.
  unfold processJob_try, processJob_start, processJob_rest, processJob_catch.
  destruct i as [k|]; do 2 wp_next; cbn [type];
    (apply wp_bind;
     eapply wp_eval; [apply mapIngestionTypeToProcessingType_total|];
     cbn beta iota);
    apply wp_bind;
    change (Z.of_nat <$> seq 0 (Z.to_nat 10)) with [0; 1; 2; 3; 4; 5; 6; 7; 8; 9];
    cbn [for_each]; do 10 wp_next; wp_run; wp_next;
    (destruct (processDocuments _ _ _) as [e|result];
     [ wp_run; do 4 wp_next; apply wp_bind
     | apply wp_bind; destruct (res_success result);
       [do 4 wp_next; wp_run | do 4 wp_next] ]);
    try (destruct (rc <? mr) eqn:Hlt; wp_run_using Hlt);
    wp_run; cbn [fst snd status errorMessage outputData nextRetryAt];
    rewrite ?Hclock; repeat split.
Qed.

(** ** Retries until none remain *)

Section RetryCycles.

Variable processDocuments :
  Processing.ProcessingType → list DocumentInfo → Json → Exn + ProcessingResult.
Hypothesis always_fails :
  ∀ job docs, fails (invocation processDocuments job docs).

Lemma retryCycle_step k userId c m w :
  failed_after k userId c m w → c < m →
  failed_after k userId (c + 1) m (retryCycle processDocuments k userId w)
  ∧ ∃ r, (retryJob k userId w).1 = inr r ∧ retryCount r = c + 1.
Proof.
  intros (Hpend & j & Hk & Ho & Hs & Hc & Hm) Hlt. unfold retryCycle.
  rewrite (retryJob_found _ _ _ _ Hk Ho), Hs, Hc, Hm.
  destruct (Z.geb_spec c m) as [|_]; [lia|]. cbn [negb bool_decide fst snd].
  rewrite bool_decide_eq_true_2 by reflexivity. cbn [negb fst snd].
  split;
    [|exists (started (clock w) (retried (row k j)));
      by destruct j; cbn in *; subst].
  set (job := started (clock w) (retried (row k j))).
  match goal with
  | |- context [runPending _ ?w0] =>
      assert (Hp : pending w0 = [(job, retryDocuments j w)])
        by (clear -Hpend; destruct w; cbn in Hpend |- *; by rewrite Hpend);
      rewrite (runPending_head _ _ _ _ _ Hp)
  end.
  cbn [snd].
  match goal with
  | |- context [processJob_resume _ accepts job ?docs ?w'] =>
      set (w1 := w'); set (ds := docs)
  end.
  assert (Hid : id job = Some k) by (by destruct j).
  assert (Hjob : retryCount job = c + 1 ∧ maxRetries job = m
                 ∧ createdById job = userId)
    by (destruct j; cbn in *; by subst).
  assert (Hw1 : pending w1 = []) by (by destruct w).
  clearbody w1 ds job.
  destruct (processJob_resume_settles processDocuments job ds w1 k Hid)
    as (_ & Hset & Hver).
  pose proof (processJob_resume_framed processDocuments job ds w1 k Hid)
    as (_ & _ & Hpend1 & _).
  apply verdict_fails in Hver; [|apply always_fails].
  destruct Hset as (_ & Hun & Htab & _).
  destruct Hun as (_ & _ & _ & Hrc & Hmr & _ & _ & _ & Hcb).
  destruct Hjob as (Hc1 & Hm1 & Ho1).
  split; [by rewrite Hpend1|].
  eexists. split; [exact Htab|]. repeat split; congruence.
Qed.

Lemma retryCycle_iter k userId c m w (i : nat) :
  failed_after k userId c m w → c + Z.of_nat i ≤ m →
  failed_after k userId (c + Z.of_nat i) m
    (Nat.iter i (retryCycle processDocuments k userId) w).
Proof.
  intros Hw. induction i as [|i IH]; intros Hle.
  - cbn. by rewrite Z.add_0_r.
  - cbn [Nat.iter].
    replace (c + Z.of_nat (S i)) with (c + Z.of_nat i + 1) by lia.
    apply retryCycle_step; [apply IH|]; lia.
Qed.

(** X14. A FAILED job whose executions keep failing can be retried as
    often as retries remain and no more: each of the [maxRetries -
    retryCount] retries in turn is accepted and counts one up; after
    them the job is FAILED with [retryCount = maxRetries], and the next
    retry is refused with "Maximum retry attempts reached". *)
Theorem retries_exhaust (k userId : Z) (w : World) (j : IngestionJob) :
  jobTable w !! k = Some j → createdById j = userId → status j = FAILED →
  pending w = [] → retryCount j ≤ maxRetries j →
  let n := Z.to_nat (maxRetries j - retryCount j) in
  let after i := Nat.iter i (retryCycle processDocuments k userId) w in
  (∀ i, (i < n)%nat →
     ∃ r, (retryJob k userId (after i)).1 = inr r
          ∧ retryCount r = retryCount j + Z.of_nat i + 1)
  ∧ (∃ j', jobTable (after n) !! k = Some j' ∧ status j' = FAILED
           ∧ retryCount j' = maxRetries j)
  ∧ retryJob k userId (after n)
    = (inl (BadRequestException "Maximum retry attempts reached"), after n).
Proof.
  intros Hk Ho Hs Hpend Hle n after.
  assert (Hw : failed_after k userId (retryCount j) (maxRetries j) w)
    by (split; [assumption | by exists j]).
  split; [|split].
  - intros i Hi.
    destruct (retryCycle_step k userId (retryCount j + Z.of_nat i)
                (maxRetries j) (after i)) as (_ & r & Hr & Hc);
      [apply retryCycle_iter; [assumption | lia] | lia |].
    by exists r.
  - destruct (retryCycle_iter k userId _ _ w n Hw) as (_ & j' & Hk' & _ & Hs' & Hc' & _);
      [lia|].
    exists j'. split; [exact Hk'|]. split; [exact Hs' | lia].
  - destruct (retryCycle_iter k userId _ _ w n Hw)
      as (_ & j' & Hk' & Ho' & Hs' & Hc' & Hm'); [lia|].
    fold (after n) in Hk'.
    rewrite (retryJob_found _ _ _ _ Hk' Ho'), Hs'.
    rewrite bool_decide_eq_true_2 by reflexivity. cbn [negb].
    destruct (Z.geb_spec (retryCount j') (maxRetries j')); [reflexivity | lia].
Qed.

End RetryCycles.

(** The scenario of two retries: a FAILED job with [maxRetries = 3] and
    one retry made takes two more, and the third is refused. *)
Lemma retries_exhaust_witness :
  let after i := Nat.iter i (retryCycle Sample.failingInvoker 1 1)
                   (Sample.worldWith Sample.failedJob) in
  (∃ j', jobTable (after 2%nat) !! 1 = Some j' ∧ status j' = FAILED
         ∧ retryCount j' = 3)
  ∧ retryJob 1 1 (after 2%nat)
    = (inl (BadRequestException "Maximum retry attempts reached"), after 2%nat).
Proof.
  intros after.
  apply (retries_exhaust Sample.failingInvoker (λ _ _, eq_refl) 1 1
           (Sample.worldWith Sample.failedJob) Sample.failedJob);
    first [reflexivity | vm_compute; discriminate].
Defined.

(** ** The webhook, further *)

(** The row a webhook update stores, with what it makes of each column. *)
Lemma updateJobStatus_stored e u w job :
  findOneByExternalJobId e w = (inr (Some job), w) →
  ∃ k j',
    id job = Some k
    ∧ updateJobStatus e u w =
        (inr tt, set_saves (saves w ++ [j'])
                   (set_jobTable (<[k := j']> (jobTable w)) w))
    ∧ jobTable (updateJobStatus e u w).2 !! k = Some j'
    ∧ status j' = mapExternalStatus (upd_status u)
    ∧ progress j' =
        (if String.eqb (upd_status u) "completed" then 100
         else or_else truthy_num (upd_progress u) (progress job))
    ∧ errorMessage j' =
        (if String.eqb (upd_status u) "failed"
         then Some (or_else truthy_str (upd_error u) "Processing failed")
         else or_keep truthy_str (upd_error u) (errorMessage job))
    ∧ outputData j' = or_keep truthy_json (upd_output u) (outputData job)
    ∧ startedAt j' =
        (if String.eqb (upd_status u) "processing"
         then Some (default (clock w) (startedAt job))
         else startedAt job)
    ∧ completedAt j' =
        (if String.eqb (upd_status u) "completed" then Some (clock w)
         else completedAt job)
    ∧ nextRetryAt j' =
        (if String.eqb (upd_status u) "failed"
            && (retryCount job <? maxRetries job)
         then Some (clock w + Z.min (2 ^ retryCount job) 60 * 60 * 1000)
         else nextRetryAt job)
    ∧ untouched job j'.
Proof.
  intros Hfind.
  destruct (findOneByExternalJobId_found _ _ _ Hfind) as (k & j & _ & _ & ->).
  assert (Hid : id (row k j) = Some k) by (by destruct j).
  destruct (updateJobStatus_found e u w (row k j) k Hfind Hid)
    as (j' & Hrun & _ & Hfields).
  exists k, j'. split; [exact Hid|]. split; [exact Hrun|]. split; [|exact Hfields].
  rewrite Hrun. destruct w. cbn. apply lookup_insert_eq.
Qed.

(** X15. Through the controller a webhook always answers "Status updated
    successfully". The job it finds ends in the status whose wire value
    the body carries, except that "retrying" ends in FAILED: no webhook
    leaves a job RETRYING. Unlike "failed", "retrying" gives no default
    error message and schedules no retry. *)
Theorem webhook_status_via_controller
    (dto : WebhookStatusUpdateDto) (w : World) (job : IngestionJob) :
  findOneByExternalJobId (wh_externalJobId dto) w = (inr (Some job), w) →
  ∃ k j',
    id job = Some k
    ∧ (Controller.updateJobStatus dto w).1 = inr "Status updated successfully"%string
    ∧ jobTable (Controller.updateJobStatus dto w).2 !! k = Some j'
    ∧ status j' = match wh_status dto with
                  | RETRYING => FAILED
                  | s => s
                  end
    ∧ status j' ≠ RETRYING
    ∧ (wh_status dto = RETRYING →
       errorMessage j' = or_keep truthy_str (wh_error dto) (errorMessage job)
       ∧ nextRetryAt j' = nextRetryAt job).
Proof.
  intros Hfind.
  set (u := {| upd_status := IngestionStatus_value (wh_status dto);
               upd_progress := wh_progress dto; upd_error := wh_error dto;
               upd_output := wh_output dto |}).
  destruct (updateJobStatus_stored _ u w job Hfind)
    as (k & j' & Hid & Hrun & Htab & Hst & _ & Hem & _ & _ & _ & Hnr & _).
  assert (Hctl : Controller.updateJobStatus dto w
                 = (inr "Status updated successfully"%string,
                    (updateJobStatus (wh_externalJobId dto) u w).2)).
  { unfold Controller.updateJobStatus, mbind, M_bind. fold u. by rewrite Hrun. }
  exists k, j'. rewrite Hctl. cbn [fst snd].
  split; [exact Hid|]. split; [reflexivity|]. split; [exact Htab|].
  split; [rewrite Hst; by destruct (wh_status dto)|].
  split; [rewrite Hst; by destruct (wh_status dto)|].
  intros Hretry. rewrite Hem, Hnr. subst u. cbn. by rewrite Hretry.
Qed.

Lemma webhook_status_via_controller_witness :
  ∃ j', jobTable
          (Controller.updateJobStatus
             {| wh_externalJobId := "ext_job_123"; wh_status := RETRYING;
                wh_progress := None; wh_error := None; wh_output := None |}
             (Sample.worldWith Sample.halfwayJob)).2 !! 1 = Some j'
        ∧ status j' = FAILED ∧ errorMessage j' = None.
Proof.
  destruct (webhook_status_via_controller
              {| wh_externalJobId := "ext_job_123"; wh_status := RETRYING;
                 wh_progress := None; wh_error := None; wh_output := None |}
              (Sample.worldWith Sample.halfwayJob) Sample.halfwayJob eq_refl)
    as (k & j' & Hid & _ & Htab & Hst & _ & Hretry).
  injection Hid as <-. exists j'. split; [exact Htab|]. split; [exact Hst|].
  by destruct (Hretry eq_refl) as [-> _].
Defined.

(** X16. A webhook update that finds a job makes one save and writes
    that job's row only. It never changes the job's retry counters,
    input, external id, owner, name or type. [startedAt] is set by
    "processing" if it was not set and is otherwise kept; [completedAt]
    is set by "completed" only; [nextRetryAt] is set, to the time of the
    call plus the back-off of the retry count, by "failed" when retries
    remain, and is otherwise kept as it was. *)
Theorem updateJobStatus_bookkeeping
    (e : string) (u : StatusUpdate) (w : World) (job : IngestionJob) :
  findOneByExternalJobId e w = (inr (Some job), w) →
  let w' := (updateJobStatus e u w).2 in
  ∃ k j',
    id job = Some k ∧ jobTable w' !! k = Some j'
    ∧ saves w' = saves w ++ [j']
    ∧ (∀ k', k' ≠ k → jobTable w' !! k' = jobTable w !! k')
    ∧ nextId w' = nextId w ∧ pending w' = pending w ∧ clock w' = clock w
    ∧ untouched job j'
    ∧ (upd_status u = "processing"%string →
       startedAt j' = Some (default (clock w) (startedAt job)))
    ∧ (upd_status u ≠ "processing"%string → startedAt j' = startedAt job)
    ∧ (upd_status u = "completed"%string → completedAt j' = Some (clock w))
    ∧ (upd_status u ≠ "completed"%string → completedAt j' = completedAt job)
    ∧ (upd_status u = "failed"%string → retryCount job < maxRetries job →
       nextRetryAt j'
       = Some (clock w + Z.min (2 ^ retryCount job) 60 * 60 * 1000))
    ∧ (upd_status u ≠ "failed"%string ∨ maxRetries job ≤ retryCount job →
       nextRetryAt j' = nextRetryAt job).
Proof.
  intros Hfind w'.
  destruct (updateJobStatus_stored e u w job Hfind)
    as (k & j' & Hid & Hrun & Htab & _ & _ & _ & _ & Hsa & Hca & Hnr & Hun).
  exists k, j'. split; [exact Hid|]. split; [exact Htab|].
  unfold w'. rewrite Hrun. cbn [snd].
  split; [by destruct w|].
  split; [intros k' Hk'; destruct w; cbn; by apply lookup_insert_ne|].
  do 3 (split; [by destruct w|]). split; [exact Hun|].
  rewrite Hsa, Hca, Hnr. repeat split.
  - intros ->. reflexivity.
  - intros Hne. apply String.eqb_neq in Hne. by rewrite Hne.
  - intros ->. reflexivity.
  - intros Hne. apply String.eqb_neq in Hne. by rewrite Hne.
  - intros -> Hlt. apply Z.ltb_lt in Hlt. by rewrite Hlt.
  - intros [Hne|Hge].
    + apply String.eqb_neq in Hne. by rewrite Hne.
    + apply Z.ltb_ge in Hge. rewrite Hge. by rewrite andb_false_r.
Qed.

Lemma updateJobStatus_bookkeeping_witness :
  ∃ j', jobTable
          (updateJobStatus "ext_job_123"
             {| upd_status := "failed"; upd_progress := None;
                upd_error := Some "Processing error"%string; upd_output := None |}
             (Sample.worldWith Sample.failedJob)).2 !! 1 = Some j'
        ∧ retryCount j' = 1
        ∧ nextRetryAt j' = Some (1700000000000 + 2 * 60 * 1000).
Proof.
  destruct (updateJobStatus_bookkeeping "ext_job_123"
              {| upd_status := "failed"; upd_progress := None;
                 upd_error := Some "Processing error"%string; upd_output := None |}
              (Sample.worldWith Sample.failedJob) Sample.failedJob eq_refl)
    as (k & j' & Hid & Htab & _ & _ & _ & _ & _ & Hun & _ & _ & _ & _ & Hnr & _).
  injection Hid as <-. exists j'. split; [exact Htab|].
  split; [apply Hun|]. apply Hnr; [reflexivity | vm_compute; reflexivity].
Defined.

(** ** Correlation by external id *)

Lemma findOneByExternalJobId_unique e w k j :
  jobTable w !! k = Some j → externalJobId j = Some e →
  (∀ k' j', jobTable w !! k' = Some j' → externalJobId j' = Some e → k' = k) →
  findOneByExternalJobId e w = (inr (Some (row k j)), w).
Proof.
  intros Hk Hext Huniq. unfold findOneByExternalJobId, gets. f_equal. f_equal.
  destruct (head (rowsByExternalJobId e (jobTable w))) as [job|] eqn:Hhead.
  - apply head_Some_elem_of, rowsByExternalJobId_elem in Hhead
      as (k' & j' & Hk' & Hext' & ->).
    pose proof (Huniq k' j' Hk' Hext') as ->. congruence.
  - apply head_None in Hhead.
    assert (Hin : row k j ∈ rowsByExternalJobId e (jobTable w))
      by (apply rowsByExternalJobId_elem; eauto).
    rewrite Hhead in Hin. by apply elem_of_nil in Hin.
Qed.

Lemma row_of_keyed k j : id j = Some k → row k j = j.
Proof. intros Hid. destruct j. cbn in *. by subst. Qed.

(** X17. The external id a trigger returns is the handle by which a
    webhook reaches the job: if no job stored before the trigger carries
    that id, an update addressed to it finds the new job, and no other,
    sets its status, and leaves every older row as it was before the
    trigger. *)
Theorem webhook_reaches_triggered_job
    toISOString (dto : TriggerIngestionDto) (userId : Z) (w w' : World)
    (r : IngestionJob) (u : StatusUpdate) :
  triggerIngestion toISOString dto userId w = (inr r, w') →
  (∀ k j, jobTable w !! k = Some j → externalJobId j ≠ externalJobId r) →
  ∃ e j',
    externalJobId r = Some e
    ∧ findOneByExternalJobId e w' = (inr (Some r), w')
    ∧ jobTable (updateJobStatus e u w').2 !! nextId w = Some j'
    ∧ status j' = mapExternalStatus (upd_status u)
    ∧ untouched r j'
    ∧ ∀ k, k ≠ nextId w →
           jobTable (updateJobStatus e u w').2 !! k = jobTable w !! k.
Proof.
  intros Hrun Hfresh.
  destruct (triggerIngestion_accepted_inv _ _ _ _ _ _ Hrun) as [docs Hval].
  rewrite (triggerIngestion_run _ _ _ _ _ Hval) in Hrun.
  injection Hrun as Hr Hw'.
  set (e := externalJobIdOf (clock w) (random w (draws w))).
  assert (Hext : externalJobId r = Some e) by (by rewrite <- Hr).
  assert (Hid : id r = Some (nextId w)) by (by rewrite <- Hr).
  assert (Htab : jobTable w' !! nextId w = Some r)
    by (rewrite <- Hw', <- Hr; cbn; apply lookup_insert_eq).
  assert (Hrows : ∀ k, k ≠ nextId w → jobTable w' !! k = jobTable w !! k)
    by (intros k Hk; rewrite <- Hw'; cbn; by rewrite !lookup_insert_ne).
  clear Hr Hw' Hval.
  assert (Hfind : findOneByExternalJobId e w' = (inr (Some r), w')).
  { pose proof (findOneByExternalJobId_unique e w' (nextId w) r Htab Hext) as H.
    rewrite (row_of_keyed _ _ Hid) in H. apply H.
    intros k' j0 Hk' He'. destruct (decide (k' = nextId w)) as [|Hne]; [done|].
    rewrite (Hrows k' Hne) in Hk'. destruct (Hfresh k' j0 Hk'). congruence. }
  destruct (updateJobStatus_stored e u w' r Hfind)
    as (k & j' & Hid' & Hrun' & Htab' & Hst & _ & _ & _ & _ & _ & _ & Hun).
  rewrite Hid in Hid'. injection Hid' as <-.
  exists e, j'. split; [exact Hext|]. split; [exact Hfind|].
  split; [exact Htab'|]. split; [exact Hst|]. split; [exact Hun|].
  intros k Hk. rewrite <- (Hrows k Hk). rewrite Hrun'.
  clear -Hk. destruct w'. cbn. by apply lookup_insert_ne.
Qed.

Lemma webhook_reaches_triggered_job_witness :
  let run := triggerIngestion Sample.toISOString (Sample.triggerDto (Some 3)) 1
               Sample.emptyWorld in
  ∃ e j',
    jobTable (updateJobStatus e
                {| upd_status := "completed"; upd_progress := None;
                   upd_error := None; upd_output := None |} run.2).2 !! 1
    = Some j'
    ∧ status j' = COMPLETED.
Proof.
  intros run.
  assert (Hrun : run = (inr (started (clock Sample.emptyWorld)
                               (secondSaved Sample.toISOString
                                  (Sample.triggerDto (Some 3)) 1
                                  [Sample.mockDocument] Sample.emptyWorld)),
                        run.2))
    by (vm_compute; reflexivity).
  destruct (webhook_reaches_triggered_job _ _ _ _ _ _
              {| upd_status := "completed"; upd_progress := None;
                 upd_error := None; upd_output := None |} Hrun)
    as (e & j' & _ & _ & Htab & Hst & _).
  - intros k j Hk. cbn in Hk. by rewrite lookup_empty in Hk.
  - exists e, j'. split; [exact Htab | exact Hst].
Defined.

(** ** A webhook delivered twice *)

Lemma or_else_idem {A} (truthy : A → bool) (x : option A) (d : A) :
  or_else truthy x (or_else truthy x d) = or_else truthy x d.
Proof. destruct x as [v|]; [|reflexivity]. cbn. by destruct (truthy v). Qed.

Lemma or_keep_idem {A} (truthy : A → bool) (x d : option A) :
  or_keep truthy x (or_keep truthy x d) = or_keep truthy x d.
Proof. destruct x as [v|]; [|reflexivity]. cbn. by destruct (truthy v). Qed.

(** X18. A webhook update delivered a second time, at a later time [t],
    to a job whose external id no other job carries, changes the job's
    row only in its time stamps: status, progress, error message,
    output, [startedAt] and the retry counters are those of the first
    delivery, while "completed" stamps [completedAt] again and "failed",
    with retries remaining, schedules [nextRetryAt] again, both from
    [t]. In particular a repeated "failed" never counts as a retry. *)
Theorem updateJobStatus_redelivered
    (e : string) (u : StatusUpdate) (w : World) (k : Z) (j : IngestionJob)
    (t : Time) :
  jobTable w !! k = Some j → externalJobId j = Some e →
  (∀ k' j', jobTable w !! k' = Some j' → externalJobId j' = Some e → k' = k) →
  let w1 := (updateJobStatus e u w).2 in
  let w2 := (updateJobStatus e u (set_clock t w1)).2 in
  ∃ j1 j2,
    jobTable w1 !! k = Some j1 ∧ jobTable w2 !! k = Some j2
    ∧ status j2 = status j1 ∧ progress j2 = progress j1
    ∧ errorMessage j2 = errorMessage j1 ∧ outputData j2 = outputData j1
    ∧ startedAt j2 = startedAt j1
    ∧ untouched j1 j2
    ∧ completedAt j2 =
        (if String.eqb (upd_status u) "completed" then Some t
         else completedAt j1)
    ∧ nextRetryAt j2 =
        (if String.eqb (upd_status u) "failed" && (retryCount j <? maxRetries j)
         then Some (t + Z.min (2 ^ retryCount j) 60 * 60 * 1000)
         else nextRetryAt j1)
    ∧ (∀ k', k' ≠ k → jobTable w2 !! k' = jobTable w !! k').
Proof.
  intros Hk Hext Huniq w1 w2.
  pose proof (findOneByExternalJobId_unique e w k j Hk Hext Huniq) as Hfind.
  assert (Hidr : id (row k j) = Some k) by (by destruct j).
  destruct (updateJobStatus_found e u w (row k j) k Hfind Hidr)
    as (j1 & Hrun1 & Hid1 & Hst1 & Hpr1 & Hem1 & Hod1 & Hsa1 & Hca1 & Hnr1 & Hun1).
  assert (Hw1 : w1 = set_saves (saves w ++ [j1])
                       (set_jobTable (<[k := j1]> (jobTable w)) w))
    by (unfold w1; by rewrite Hrun1).
  clearbody w1. clear Hrun1.
  set (w1' := set_clock t w1) in *.
  assert (Htab1 : jobTable w1' !! k = Some j1)
    by (unfold w1'; rewrite Hw1; destruct w; cbn; apply lookup_insert_eq).
  assert (Hrows1 : ∀ k', k' ≠ k → jobTable w1' !! k' = jobTable w !! k')
    by (intros k' Hk'; unfold w1'; rewrite Hw1; destruct w; cbn;
        by apply lookup_insert_ne).
  assert (Hclock1 : clock w1' = t) by (unfold w1'; by destruct w1).
  assert (Htab1' : jobTable w1 !! k = Some j1)
    by (rewrite Hw1; destruct w; cbn; apply lookup_insert_eq).
  assert (Hrc : retryCount (row k j) = retryCount j
                ∧ maxRetries (row k j) = maxRetries j
                ∧ externalJobId (row k j) = externalJobId j) by (by destruct j).
  destruct Hrc as (Hrc & Hmr & Hex).
  assert (Hext1 : externalJobId j1 = Some e).
  { destruct Hun1 as (_ & _ & _ & _ & _ & _ & _ & He & _). congruence. }
  assert (Hfind1 : findOneByExternalJobId e w1' = (inr (Some j1), w1')).
  { pose proof (findOneByExternalJobId_unique e w1' k j1 Htab1 Hext1) as H.
    rewrite (row_of_keyed _ _ Hid1) in H. apply H.
    intros k' j0 Hk' He'. destruct (decide (k' = k)) as [|Hne]; [done|].
    rewrite (Hrows1 k' Hne) in Hk'. by apply (Huniq k' j0). }
  destruct (updateJobStatus_found e u w1' j1 k Hfind1 Hid1)
    as (j2 & Hrun2 & _ & Hst2 & Hpr2 & Hem2 & Hod2 & Hsa2 & Hca2 & Hnr2 & Hun2).
  assert (Hrc1 : retryCount j1 = retryCount j ∧ maxRetries j1 = maxRetries j).
  { destruct Hun1 as (_ & _ & _ & Hr & Hm & _). split; congruence. }
  destruct Hrc1 as [Hrc1 Hmr1].
  exists j1, j2. split; [exact Htab1'|].
  unfold w2. rewrite Hrun2.
  split; [clear; destruct w1'; cbn; apply lookup_insert_eq|].
  split; [congruence|].
  split.
  { rewrite Hpr2, Hpr1.
    destruct (String.eqb (upd_status u) "completed"); [reflexivity|].
    apply or_else_idem. }
  split.
  { rewrite Hem2, Hem1.
    destruct (String.eqb (upd_status u) "failed"); [reflexivity|].
    apply or_keep_idem. }
  split; [rewrite Hod2, Hod1; apply or_keep_idem|].
  split.
  { rewrite Hsa2, Hsa1. by destruct (String.eqb (upd_status u) "processing"). }
  split; [exact Hun2|].
  split; [by rewrite Hca2, Hclock1|].
  split; [by rewrite Hnr2, Hclock1, Hrc1, Hmr1|].
  intros k' Hk'. rewrite <- (Hrows1 k' Hk').
  clear -Hk'. destruct w1'. cbn. by apply lookup_insert_ne.
Qed.

Lemma updateJobStatus_redelivered_witness :
  let u := {| upd_status := "failed"; upd_progress := None;
              upd_error := Some "Processing error"%string; upd_output := None |} in
  let w1 := (updateJobStatus "ext_job_123" u
               (Sample.worldWith Sample.halfwayJob)).2 in
  ∃ j2, jobTable (updateJobStatus "ext_job_123" u
                    (set_clock 1700000060000 w1)).2 !! 1 = Some j2
        ∧ status j2 = FAILED ∧ retryCount j2 = 0
        ∧ nextRetryAt j2 = Some (1700000060000 + 1 * 60 * 1000).
Proof.
  intros u w1.
  destruct (updateJobStatus_redelivered "ext_job_123" u
              (Sample.worldWith Sample.halfwayJob) 1 Sample.halfwayJob
              1700000060000 eq_refl eq_refl)
    as (j1 & j2 & Htab1 & Htab2 & Hst & _ & _ & _ & _ & Hun & _ & Hnr & _).
  - intros k' j' Hk' _. destruct (decide (k' = 1)) as [|Hne]; [done|].
    cbn in Hk'. by rewrite lookup_singleton_ne in Hk'.
  - exists j2. split; [exact Htab2|].
    assert (Hj1 : Some j1 = jobTable w1 !! 1) by (symmetry; exact Htab1).
    vm_compute in Hj1. injection Hj1 as Hj1.
    split; [by rewrite Hst, Hj1|].
    split; [|exact Hnr].
    destruct Hun as (_ & _ & _ & -> & _). by rewrite Hj1.
Defined.

(** ** Bounds kept by every request *)

Lemma processJob_resume_final_progress pd job docs w :
  progress (processJob_resume pd accepts job docs w).2.1 = 100.
Proof.
  unfold processJob_resume.
  change (wp (try_catch (processJob_rest pd accepts docs) (processJob_catch accepts))
            (λ _ s', progress s'.1 = 100) (job, w)).
  destruct job as [i n d ty st pr em rc mr pa ind od ex sa ca nr cb];
  destruct w as [jt ni dt ck rn dr pe sv].
  apply wp_try_catch.
  unfold processJob_rest, processJob_catch.
  destruct i as [k|]; wp_next; cbn [type];
    (apply wp_bind;
     eapply wp_eval; [apply mapIngestionTypeToProcessingType_total|];
     cbn beta iota);
    apply wp_bind;
    change (Z.of_nat <$> seq 0 (Z.to_nat 10)) with [0; 1; 2; 3; 4; 5; 6; 7; 8; 9];
    cbn [for_each]; do 10 wp_next; wp_run; wp_next;
    (destruct (pd _ _ _) as [e|result];
     [ wp_run; do 4 wp_next; apply wp_bind
     | apply wp_bind; destruct (res_success result);
       [do 4 wp_next; wp_run | do 4 wp_next] ]);
    try (destruct (rc <? mr) eqn:Hlt; wp_run_using Hlt);
    wp_run; reflexivity.
Qed.

Lemma well_formed_untouched j0 j :
  well_formed j0 → untouched j0 j → 0 ≤ progress j ≤ 100 → well_formed j.
Proof.
  intros (_ & Hrc & Hmr) (_ & _ & _ & Hr & Hm & _) Hp.
  unfold well_formed. rewrite Hr, Hm. auto.
Qed.

Lemma well_formed_row k j : well_formed j → well_formed (row k j).
Proof. by destruct j. Qed.

Lemma secondSaved_well_formed toISOString dto userId docs w :
  validTriggerIngestionDto dto = true →
  well_formed (secondSaved toISOString dto userId docs w).
Proof.
  unfold validTriggerIngestionDto, well_formed. cbn.
  destruct (dto_maxRetries dto) as [v|]; cbn; [|lia].
  intros [Hlo%Z.leb_le Hhi%Z.leb_le]%andb_true_iff.
  unfold truthy_num. destruct (v =? 0) eqn:Hz; cbn; [lia|].
  apply Z.eqb_neq in Hz. lia.
Qed.

Lemma started_well_formed now job :
  well_formed job → well_formed (started now job).
Proof. by destruct job. Qed.

Lemma retried_well_formed job :
  well_formed job → retryCount job < maxRetries job → well_formed (retried job).
Proof. destruct job. unfold well_formed. cbn. lia. Qed.

Lemma all_well_formed_update w w' k j' :
  all_well_formed w → well_formed j' →
  jobTable w' !! k = Some j' →
  (∀ k', k' ≠ k → jobTable w' !! k' = jobTable w !! k') →
  (∀ job docs, (job, docs) ∈ pending w' → (job, docs) ∈ pending w ∨ job = j') →
  all_well_formed w'.
Proof.
  intros [Hrows Hpend] Hj' Hk Hother Hp. split.
  - intros k0 j0 Hk0. destruct (decide (k0 = k)) as [->|Hne].
    + congruence.
    + rewrite (Hother k0 Hne) in Hk0. eauto.
  - intros job docs Hin. destruct (Hp job docs Hin) as [Hold| ->]; eauto.
Qed.

Lemma findOne_world k userId w : (findOne k userId w).2 = w.
Proof.
  destruct (jobTable w !! k) as [job|] eqn:Hk.
  - destruct (decide (createdById job = userId)) as [Ho|Ho].
    + by rewrite (findOne_found _ _ _ _ Hk Ho).
    + by rewrite (findOne_denied _ _ _ _ Hk Ho).
  - by rewrite (findOne_missing _ _ _ Hk).
Qed.

Lemma updateJobStatus_returns e u w : (updateJobStatus e u w).1 = inr tt.
Proof.
  destruct (head (rowsByExternalJobId e (jobTable w))) as [job|] eqn:Hhead.
  - assert (Hfind : findOneByExternalJobId e w = (inr (Some job), w))
      by (unfold findOneByExternalJobId, gets; by rewrite Hhead).
    by destruct (updateJobStatus_persists e u w job Hfind) as (_ & _ & _ & -> & _).
  - unfold updateJobStatus, mbind, M_bind, findOneByExternalJobId, gets.
    by rewrite Hhead.
Qed.

Lemma Controller_updateJobStatus_run dto w :
  Controller.updateJobStatus dto w =
    (inr "Status updated successfully"%string,
     (updateJobStatus (wh_externalJobId dto)
        {| upd_status := IngestionStatus_value (wh_status dto);
           upd_progress := wh_progress dto; upd_error := wh_error dto;
           upd_output := wh_output dto |} w).2).
Proof.
  unfold Controller.updateJobStatus, mbind, M_bind.
  pose proof (updateJobStatus_returns (wh_externalJobId dto)
                {| upd_status := IngestionStatus_value (wh_status dto);
                   upd_progress := wh_progress dto; upd_error := wh_error dto;
                   upd_output := wh_output dto |} w) as Hret.
  destruct (updateJobStatus _ _ w) as [r w']. cbn in Hret. by subst r.
Qed.

Section Bounds.

Variable processDocuments :
  Processing.ProcessingType → list DocumentInfo → Json → Exn + ProcessingResult.
Variable toISOString : Time → string.

Lemma request_sync w w' :
  in_sync w → request processDocuments toISOString w w' → in_sync w'.
Proof.
  intros Hs Hreq. destruct Hreq.
  - by apply triggerIngestion_sync.
  - by rewrite findOne_world.
  - by apply retryJob_sync.
  - rewrite Controller_updateJobStatus_run. by apply updateJobStatus_sync.
  - by apply runPending_sync.
Qed.

Lemma request_well_formed w w' :
  in_sync w → all_well_formed w → request processDocuments toISOString w w' →
  all_well_formed w'.
Proof.
  intros Hs Hwf Hreq.
  destruct Hreq as [dto userId w Hvalid|k userId w|k userId w|dto w Hvalid|w].
  - destruct (validateDocuments (dto_documentIds dto) userId w).1
      as [e|docs] eqn:Hval.
    { by rewrite (triggerIngestion_rejected _ _ _ _ _ Hval). }
    rewrite (triggerIngestion_run _ _ _ _ _ Hval). cbn [snd].
    apply (all_well_formed_update w _ (nextId w)
             (started (clock w) (secondSaved toISOString dto userId docs w)) Hwf).
    + by apply started_well_formed, secondSaved_well_formed.
    + cbn. apply lookup_insert_eq.
    + intros k' Hk'. cbn. by rewrite !lookup_insert_ne.
    + intros job docs' Hin. cbn in Hin.
      apply elem_of_app in Hin as [Hin|Hin]; [by left|].
      apply list_elem_of_singleton in Hin as [= -> _]. by right.
  - by rewrite findOne_world.
  - destruct (jobTable w !! k) as [job|] eqn:Hk.
    + destruct (decide (createdById job = userId)) as [Ho|Ho].
      * rewrite (retryJob_found _ _ _ _ Hk Ho).
        destruct (negb _); [exact Hwf|].
        destruct (retryCount job >=? maxRetries job) eqn:Hge; [exact Hwf|].
        cbn [snd].
        apply (all_well_formed_update w _ k
                 (started (clock w) (retried (row k job))) Hwf).
        -- apply started_well_formed, retried_well_formed;
             [apply well_formed_row, (proj1 Hwf k job Hk)|].
           rewrite Z.geb_leb in Hge. apply Z.leb_gt in Hge. by destruct job.
        -- destruct w; cbn. apply lookup_insert_eq.
        -- intros k' Hk'. destruct w; cbn. by rewrite !lookup_insert_ne.
        -- intros j docs Hin. destruct w; cbn in Hin.
           apply elem_of_app in Hin as [Hin|Hin]; [by left|].
           apply list_elem_of_singleton in Hin as [= -> _]. by right.
      * unfold retryJob, mbind, M_bind.
        by rewrite (findOne_denied _ _ _ _ Hk Ho).
    + unfold retryJob, mbind, M_bind. by rewrite (findOne_missing _ _ _ Hk).
  - rewrite Controller_updateJobStatus_run. cbn [snd].
    set (e := wh_externalJobId dto).
    set (u := {| upd_status := IngestionStatus_value (wh_status dto);
                 upd_progress := wh_progress dto; upd_error := wh_error dto;
                 upd_output := wh_output dto |}).
    destruct (head (rowsByExternalJobId e (jobTable w))) as [job|] eqn:Hhead.
    + assert (Hfind : findOneByExternalJobId e w = (inr (Some job), w))
        by (unfold findOneByExternalJobId, gets; by rewrite Hhead).
      destruct (findOneByExternalJobId_found _ _ _ Hfind) as (k & j & Hk & _ & ->).
      destruct (updateJobStatus_found e u w (row k j) k Hfind)
        as (j' & -> & _ & _ & Hpr & _ & _ & _ & _ & _ & Hun); [by destruct j|].
      cbn [snd].
      pose proof (well_formed_row k j (proj1 Hwf k j Hk)) as Hwfj.
      apply (all_well_formed_update w _ k j' Hwf).
      * apply (well_formed_untouched (row k j)); [exact Hwfj | exact Hun|].
        rewrite Hpr. destruct (String.eqb (upd_status u) "completed"); [lia|].
        destruct Hwfj as (Hp & _). subst u. cbn [upd_progress].
        unfold validWebhookStatusUpdateDto in Hvalid.
        apply andb_true_iff in Hvalid as [Hvalid _].
        destruct (wh_progress dto) as [p|]; cbn; [|exact Hp].
        apply andb_true_iff in Hvalid as [Hlo%Z.leb_le Hhi%Z.leb_le].
        destruct (truthy_num p); [lia | exact Hp].
      * destruct w; cbn. apply lookup_insert_eq.
      * intros k' Hk'. destruct w; cbn. by apply lookup_insert_ne.
      * intros job docs Hin. left. by destruct w.
    + assert (Hrun : updateJobStatus e u w = (inr tt, w)).
      { unfold updateJobStatus, mbind, M_bind, findOneByExternalJobId, gets.
        by rewrite Hhead. }
      by rewrite Hrun.
  - destruct (pending w) as [|[job docs] rest] eqn:Hp.
    { unfold runPending. by rewrite Hp. }
    rewrite (runPending_head _ _ _ _ _ Hp). cbn [snd].
    destruct (proj2 Hs job docs) as (k & j & Hid & Hk & He);
      [rewrite Hp; apply list_elem_of_here|].
    destruct (processJob_resume_settles processDocuments job docs
                (set_pending rest w) k Hid) as (_ & Hset & _).
    pose proof (processJob_resume_framed processDocuments job docs
                  (set_pending rest w) k Hid) as (_ & Hrows & Hpend & Hnext).
    destruct Hset as (_ & Hun & Htab & _).
    refine (all_well_formed_update w _ k _ Hwf _ Htab _ _).
    + apply (well_formed_untouched job); [|exact Hun|].
      * apply (proj2 Hwf job docs). rewrite Hp. apply list_elem_of_here.
      * rewrite processJob_resume_final_progress. lia.
    + intros k' Hk'. rewrite (Hrows k' Hk'). by destruct w.
    + intros job' docs' Hin. left. rewrite Hpend in Hin.
      rewrite Hp. apply list_elem_of_further. by destruct w.
Qed.

(** X19. Bounds that no sequence of requests breaks. Start from a world
    whose keys are in step and whose jobs are within bounds, the empty
    one for instance, and let any requests arrive in any order: triggers
    and webhook updates with bodies their DTOs accept, reads, retries,
    and the executions handed off. Then every stored job, and every job
    object still waiting for execution, has a progress between 0 and 100
    and a retry count between 0 and its maximum, which is at most 10. *)
Theorem requests_keep_bounds (w w' : World) :
  in_sync w → all_well_formed w →
  rtc (request processDocuments toISOString) w w' →
  (∀ k j, jobTable w' !! k = Some j →
     0 ≤ progress j ≤ 100 ∧ 0 ≤ retryCount j ≤ maxRetries j ∧ maxRetries j ≤ 10)
  ∧ all_well_formed w'.
Proof.
  intros Hs Hwf Hreqs.
  assert (Hinv : in_sync w' ∧ all_well_formed w').
  { induction Hreqs as [w|w w1 w2 Hreq _ IH]; [by split|].
    apply IH; [by eapply request_sync | by eapply request_well_formed]. }
  destruct Hinv as [_ Hwf']. split; [apply Hwf' | exact Hwf'].
Qed.

End Bounds.

Lemma requests_keep_bounds_witness :
  all_well_formed
    (runPending Sample.failingInvoker
       (triggerIngestion Sample.toISOString (Sample.triggerDto (Some 3)) 1
          Sample.emptyWorld).2).2.
Proof.
  apply (requests_keep_bounds Sample.failingInvoker Sample.toISOString
           Sample.emptyWorld).
  - apply in_sync_emptyWorld.
  - split.
    + intros k j Hk. cbn in Hk. by rewrite lookup_empty in Hk.
    + intros job docs Hin. cbn in Hin. by apply elem_of_nil in Hin.
  - apply (rtc_l _ _ (triggerIngestion Sample.toISOString
                        (Sample.triggerDto (Some 3)) 1 Sample.emptyWorld).2).
    + by apply (request_trigger _ _ (Sample.triggerDto (Some 3)) 1
                  Sample.emptyWorld).
    + apply rtc_once. apply request_run.
Defined.

(** ** The controller *)

(** X20. The webhook endpoint never reports an error: whatever the body
    and whatever is stored, it answers "Status updated successfully".
    When no stored job carries the external id of the body, that answer
    is all that happens: the world is left as it was. *)
Theorem webhook_always_acknowledged (dto : WebhookStatusUpdateDto) (w : World) :
  (Controller.updateJobStatus dto w).1 = inr "Status updated successfully"%string
  ∧ ((∀ k j, jobTable w !! k = Some j →
             externalJobId j ≠ Some (wh_externalJobId dto)) →
     (Controller.updateJobStatus dto w).2 = w).
Proof.
  rewrite Controller_updateJobStatus_run. split; [reflexivity|].
  intros Hno. cbn [snd]. unfold updateJobStatus, mbind, M_bind.
  by rewrite (findOneByExternalJobId_unknown _ _ Hno).
Qed.

(** X21. Called without [page] and [limit], the controller's listing is
    the service's listing with its own defaults: page 1 of pages of 10,
    that is, the first ten of the caller's jobs in the order of the
    listing. *)
Theorem Controller_findAll_defaults
    (orderByCreatedAtDesc : list IngestionJob → list IngestionJob)
    (userId : Z) (w : World) :
  Controller.findAll orderByCreatedAtDesc None None userId w
  = findAll orderByCreatedAtDesc userId None None w
  ∧ ∃ pg,
      Controller.findAll orderByCreatedAtDesc None None userId w = (inr pg, w)
      ∧ page_page pg = 1 ∧ page_limit pg = 10
      ∧ page_jobs pg
        = take 10 (orderByCreatedAtDesc (rowsByCreatedById userId (jobTable w))).
Proof.
  split; [reflexivity|]. unfold Controller.findAll. cbn [or_else].
  eexists. split; [apply findAll_run|]. cbn. by rewrite drop_0.
Qed.

(** ** Types on the wire *)

(** X22. The processing type a job's type maps to has the wire value of
    the job's type, the mapping returns for every ingestion type, and
    two types never map to the same processing type. *)
Theorem mapIngestionTypeToProcessingType_wire (t : IngestionType) (w : World) :
  ∃ p,
    mapIngestionTypeToProcessingType t w = (inr p, w)
    ∧ ProcessingType_value p = IngestionType_value t
    ∧ ∀ t' p', mapIngestionTypeToProcessingType t' w = (inr p', w) →
               p' = p → t' = t.
Proof.
  exists (processingTypeOf t). split; [by destruct t|].
  split; [by destruct t|].
  intros t' p' Hrun ->. destruct t, t'; cbv in Hrun; congruence.
Qed.

(** ** ProcessingService *)

(** X23. [processDocuments] of the processing service never throws. It
    runs the routine of the requested type, on the documents and the
    parameters, [{}] when there are none, and reports under that type
    the time the routine took. If the routine returns, the report is a
    success with the routine's data and, as metadata, the number of
    documents and the parameters; if the routine throws, the report is a
    failure that carries the exception's message and no data. *)
Theorem ProcessingService_processDocuments_reports
    (processOCR processTextExtraction processDocumentClassification
       processDataExtraction : list DocumentInfo → Json → M World Json)
    (type_ : Processing.ProcessingType) (documents_ : list DocumentInfo)
    (parameters_ : option Json) (w : World) :
  let routine :=
    match type_ with
    | Processing.OCR => processOCR
    | Processing.TEXT_EXTRACTION => processTextExtraction
    | Processing.DOCUMENT_CLASSIFICATION => processDocumentClassification
    | Processing.DATA_EXTRACTION => processDataExtraction
    end in
  let given := default (JObj []) parameters_ in
  ∃ report,
    ProcessingService.processDocuments processOCR processTextExtraction
      processDocumentClassification processDataExtraction
      type_ documents_ parameters_ w
    = (inr report, (routine documents_ given w).2)
    ∧ ProcessingService.type report = type_
    ∧ ProcessingService.processingTime report
      = clock (routine documents_ given w).2 - clock w
    ∧ match (routine documents_ given w).1 with
      | inr result =>
          ProcessingService.success report = true
          ∧ ProcessingService.data report = Some result
          ∧ ProcessingService.error report = None
          ∧ ProcessingService.metadata report
            = Some (Z.of_nat (length documents_), given)
      | inl e =>
          ProcessingService.success report = false
          ∧ ProcessingService.data report = None
          ∧ ProcessingService.error report = Some (message e)
          ∧ ProcessingService.metadata report = None
      end.
Proof.
  intros routine given.
  unfold ProcessingService.processDocuments, try_catch, Date_now, gets,
    mbind, M_bind, mret, M_ret.
  fold given.
  assert (Hroutine :
    match type_ with
    | Processing.OCR => processOCR documents_ given
    | Processing.TEXT_EXTRACTION => processTextExtraction documents_ given
    | Processing.DOCUMENT_CLASSIFICATION =>
        processDocumentClassification documents_ given
    | Processing.DATA_EXTRACTION => processDataExtraction documents_ given
    end = routine documents_ given) by (by destruct type_).
  rewrite Hroutine.
  destruct (routine documents_ given w) as [[e|result] w1];
    cbn; eexists; repeat split.
Qed.

(** ** A webhook between hand-off and execution *)

(** The job object an execution ends with is made from the job object
    handed off, the documents, the invoker and the clock: the table is
    not read. *)
Lemma processJob_resume_final_independent pd job docs w1 w2 k :
  id job = Some k → clock w1 = clock w2 →
  (processJob_resume pd accepts job docs w1).2.1
  = (processJob_resume pd accepts job docs w2).2.1.
Proof.
  intros Hid Hclock.
  destruct job as [i n d ty st pr em rc mr pa ind od ex sa ca nr cb];
  destruct w1 as [jt1 ni1 dt1 ck rn1 dr1 pe1 sv1];
  destruct w2 as [jt2 ni2 dt2 ck2 rn2 dr2 pe2 sv2].
  cbn in Hid, Hclock. subst i ck2.
  set (w2 := Build_World jt2 ni2 dt2 ck rn2 dr2 pe2 sv2).
  destruct (pd (processingTypeOf ty) (documentInfo <$> docs) pa)
    as [e|result] eqn:Hinv;
    [|destruct (res_success result) eqn:Hok];
    destruct (rc <? mr) eqn:Hlt.
  all: unfold processJob_resume;
    match goal with
    | |- (try_catch ?c ?h ?s).2.1 = ?rhs =>
        change (wp (try_catch c h) (λ _ s', s'.1 = rhs) s)
    end;
    apply wp_try_catch; unfold processJob_rest, processJob_catch at 1;
    wp_next; cbn [type];
    (apply wp_bind;
     eapply wp_eval; [apply mapIngestionTypeToProcessingType_total|];
     cbn beta iota);
    apply wp_bind;
    change (Z.of_nat <$> seq 0 (Z.to_nat 10)) with [0; 1; 2; 3; 4; 5; 6; 7; 8; 9];
    cbn [for_each]; do 10 wp_next; wp_run; wp_next;
    cbn [parameters]; rewrite Hinv;
    first [ wp_run; do 4 wp_next; apply wp_bind
          | apply wp_bind; rewrite Hok; do 4 wp_next; wp_run
          | apply wp_bind; rewrite Hok; do 4 wp_next ];
    try wp_run_using Hlt; wp_run;
    symmetry; unfold processJob_resume;
    match goal with
    | |- (try_catch ?c ?h ?s).2.1 = ?rhs =>
        change (wp (try_catch c h) (λ _ s', s'.1 = rhs) s)
    end;
    apply wp_try_catch; unfold processJob_rest, processJob_catch;
    unfold w2; wp_next; cbn [type];
    (apply wp_bind;
     eapply wp_eval; [apply mapIngestionTypeToProcessingType_total|];
     cbn beta iota);
    apply wp_bind;
    change (Z.of_nat <$> seq 0 (Z.to_nat 10)) with [0; 1; 2; 3; 4; 5; 6; 7; 8; 9];
    cbn [for_each]; do 10 wp_next; wp_run; wp_next;
    cbn [parameters]; rewrite Hinv;
    first [ wp_run; do 4 wp_next; apply wp_bind
          | apply wp_bind; rewrite Hok; do 4 wp_next; wp_run
          | apply wp_bind; rewrite Hok; do 4 wp_next ];
    try wp_run_using Hlt; wp_run; reflexivity.
Qed.

Lemma updateJobStatus_frame e u w :
  pending (updateJobStatus e u w).2 = pending w
  ∧ clock (updateJobStatus e u w).2 = clock w.
Proof.
  destruct (head (rowsByExternalJobId e (jobTable w))) as [job|] eqn:Hhead.
  - assert (Hfind : findOneByExternalJobId e w = (inr (Some job), w))
      by (unfold findOneByExternalJobId, gets; by rewrite Hhead).
    destruct (updateJobStatus_persists e u w job Hfind) as (k & j' & _ & _ & _ & ->).
    by destruct w.
  - assert (Hrun : updateJobStatus e u w = (inr tt, w)).
    { unfold updateJobStatus, mbind, M_bind, findOneByExternalJobId, gets.
      by rewrite Hhead. }
    by rewrite Hrun.
Qed.

(** X24. An execution does not read the row of its job: it writes the
    job object that was handed off. So a webhook update that arrives
    after the hand-off and before the execution is taken up is lost to
    the job's row: after the execution the row is what it would have been
    without the update, whatever the update and whichever job it
    reached. *)
Theorem webhook_before_execution_is_lost
    (processDocuments :
       Processing.ProcessingType → list DocumentInfo → Json → Exn + ProcessingResult)
    (e : string) (u : StatusUpdate) (w : World)
    (job : IngestionJob) (docs : list Document)
    (rest : list (IngestionJob * list Document)) (k : Z) :
  pending w = (job, docs) :: rest → id job = Some k →
  ∃ j',
    jobTable (runPending processDocuments w).2 !! k = Some j'
    ∧ jobTable (runPending processDocuments (updateJobStatus e u w).2).2 !! k
      = Some j'
    ∧ untouched job j'.
Proof.
  intros Hp Hid.
  destruct (updateJobStatus_frame e u w) as [Hp' Hclock].
  set (w' := (updateJobStatus e u w).2) in *. clearbody w'.
  rewrite Hp in Hp'.
  rewrite (runPending_head _ _ _ _ _ Hp), (runPending_head _ _ _ _ _ Hp').
  cbn [snd].
  destruct (processJob_resume_settles processDocuments job docs
              (set_pending rest w) k Hid) as (_ & Hset & _).
  destruct (processJob_resume_settles processDocuments job docs
              (set_pending rest w') k Hid) as (_ & Hset' & _).
  destruct Hset as (_ & Hun & Htab & _). destruct Hset' as (_ & _ & Htab' & _).
  eexists. split; [exact Htab|]. split; [|exact Hun].
  rewrite Htab'. f_equal.
  apply (processJob_resume_final_independent _ _ _ _ _ k Hid).
  clear -Hclock. destruct w, w'. cbn in *. congruence.
Qed.

Lemma webhook_before_execution_is_lost_witness :
  let w := set_pending [(Sample.mockIngestionJob, [Sample.mockDocument])]
             (Sample.worldWith Sample.mockIngestionJob) in
  let u := {| upd_status := "completed"; upd_progress := None;
              upd_error := None;
              upd_output := Some (JObj [("text", JStr "done")]) |} in
  ∃ j',
    jobTable (runPending Sample.failingInvoker w).2 !! 1 = Some j'
    ∧ jobTable (runPending Sample.failingInvoker
                  (updateJobStatus "ext_job_123" u w).2).2 !! 1 = Some j'.
Proof.
  intros w u.
  destruct (webhook_before_execution_is_lost Sample.failingInvoker
              "ext_job_123" u w Sample.mockIngestionJob [Sample.mockDocument]
              [] 1 eq_refl eq_refl) as (j' & H1 & H2 & _).
  exists j'. split; [exact H1 | exact H2].
Defined.
